(** * biorbd model creation: frames, markers, anthropometry and chain assembly

    A shallow embedding of [binding/python3/model_creation.py] (classes
    [Marker], [Axis], [RT], [Segment], [KinematicChain], [DeLeva],
    [MarkerGeneric], [AxisGeneric], [RTGeneric], [SegmentGeneric],
    [KinematicModelGeneric]) and of
    [binding/python3/model_creation/segment_coordinate_system_real.py]
    (class [SegmentCoordinateSystemReal]).

    Numbers.  numpy's float64 is idealised as the real numbers: rounding and
    the infinities are not modelled.  The one place where the source tests
    for NaN ([Marker.from_data]) reads trial data whose entries are either
    NaN or a real ([sample]).  Division is the division of [R]; no statement
    below depends on the value of a division by zero. *)

From Stdlib Require Import Reals Lra Psatz RNsatz List String Bool Arith Lia.
From Stdlib Require Import Ascii Permutation.
Import ListNotations.

Local Open Scope R_scope.

#[local] Set Warnings "-register-all".

(** ** Exceptions and results *)

(** The Python exceptions the modelled code raises, with their message (or
    key).  [OSError] stands for a failure of [open]. *)
Inductive exception : Type :=
| ValueError (msg : string)
| RuntimeError (msg : string)
| KeyError (key : string)
| IndexError
| OSError (path : string).

Inductive result (A : Type) : Type :=
| Ok (a : A)
| Raise (e : exception).

Arguments Ok {A} a.
Arguments Raise {A} e.

Definition bind {A B : Type} (c : result A) (f : A -> result B) : result B :=
  match c with
  | Ok a => f a
  | Raise e => Raise e
  end.

Declare Scope result_scope.
Delimit Scope result_scope with result.
Notation "x <- c ;; k" := (bind c (fun x => k))
  (at level 61, c at next level, right associativity) : result_scope.
Local Open Scope result_scope.

Definition is_ok {A : Type} (c : result A) : bool :=
  match c with Ok _ => true | Raise _ => false end.

(** [for x in l: f(x)] collecting the values, stopping at the first raise. *)
Fixpoint mapM {A B : Type} (f : A -> result B) (l : list A) : result (list B) :=
  match l with
  | [] => Ok []
  | a :: l' => b <- f a ;; bs <- mapM f l' ;; Ok (b :: bs)
  end.

(** ** [repr] of a string

    A character of a string stands for the code point of the same number
    (below 256).  [repr] encloses the string in single quotes, or in double
    quotes when it holds a single quote and no double quote; it puts a
    backslash before the enclosing quote and before a backslash, writes tab,
    newline and carriage return as [\t], [\n] and [\r], and the other
    characters that are not printable (below 32, 127, 128 to 160 and 173) as
    [\x] and two lowercase hexadecimal digits. *)
Definition squote : ascii := Ascii.ascii_of_nat 39.
Definition dquote : ascii := Ascii.ascii_of_nat 34.
Definition backslash : ascii := Ascii.ascii_of_nat 92.

Definition hexdigit (n : nat) : ascii :=
  match n with
  | 0 => "0" | 1 => "1" | 2 => "2" | 3 => "3" | 4 => "4" | 5 => "5" | 6 => "6" | 7 => "7"
  | 8 => "8" | 9 => "9" | 10 => "a" | 11 => "b" | 12 => "c" | 13 => "d" | 14 => "e"
  | _ => "f"
  end%char%nat.

Fixpoint contains (c : ascii) (s : string) : bool :=
  match s with
  | EmptyString => false
  | String c' s' => Ascii.eqb c' c || contains c s'
  end.

(** [str.isprintable] of a code point from 127 to 255 *)
Definition isprintable (n : nat) : bool :=
  negb ((n =? 127) || ((128 <=? n) && (n <=? 160)) || (n =? 173))%nat.

Definition repr_char (quote c : ascii) : string :=
  let n := Ascii.nat_of_ascii c in
  let escaped (x : ascii) := String backslash (String x EmptyString) in
  let hex :=
    String backslash
      (String "x"%char (String (hexdigit (n / 16)%nat)
                          (String (hexdigit (n mod 16)%nat) EmptyString))) in
  if Ascii.eqb c quote || Ascii.eqb c backslash then escaped c
  else if (n =? 9)%nat then escaped "t"%char
  else if (n =? 10)%nat then escaped "n"%char
  else if (n =? 13)%nat then escaped "r"%char
  else if (n <? 32)%nat || (n =? 127)%nat then hex
  else if (n <? 127)%nat then String c EmptyString
  else if isprintable n then String c EmptyString
  else hex.

Fixpoint repr_chars (quote : ascii) (s : string) : string :=
  match s with
  | EmptyString => EmptyString
  | String c s' => (repr_char quote c ++ repr_chars quote s')%string
  end.

Definition repr_str (s : string) : string :=
  let quote := if contains squote s && negb (contains dquote s) then dquote else squote in
  String quote (repr_chars quote s ++ String quote EmptyString).

(** [l.index(x)] on a list of strings: the first position of [x], or the
    [ValueError] whose message is [repr(x)] followed by " is not in list". *)
Definition not_in_list (x : string) : string :=
  (repr_str x ++ " is not in list")%string.

Fixpoint index_from (l : list string) (x : string) (i : nat) : result nat :=
  match l with
  | [] => Raise (ValueError (not_in_list x))
  | y :: l' => if String.eqb y x then Ok i else index_from l' x (S i)
  end.

Definition index (l : list string) (x : string) : result nat := index_from l x 0.

(** [l[i]] on a list. *)
Definition getitem {A : Type} (l : list A) (i : nat) : result A :=
  match nth_error l i with
  | Some a => Ok a
  | None => Raise IndexError
  end.

(** A dict with string keys, in insertion order.  [d[key]]: *)
Fixpoint dict_getitem {V : Type} (d : list (string * V)) (key : string) : result V :=
  match d with
  | [] => Raise (KeyError key)
  | (k, v) :: d' => if String.eqb k key then Ok v else dict_getitem d' key
  end.

(** [d[key] = value]: a key that is present keeps its place. *)
Fixpoint dict_setitem {V : Type} (d : list (string * V)) (key : string) (value : V) :
    list (string * V) :=
  match d with
  | [] => [(key, value)]
  | (k, v) :: d' =>
      if String.eqb k key then (k, value) :: d' else (k, v) :: dict_setitem d' key value
  end.

(** ** numpy: vectors and 4x4 matrices *)

(** An array of shape (3,). *)
Record Vec3 : Type := mkVec3 { vx : R; vy : R; vz : R }.

(** An array of shape (4,). *)
Record Vec4 : Type := mkVec4 { e0 : R; e1 : R; e2 : R; e3 : R }.

(** An array of shape (4, 4), by rows. *)
Record Mat4 : Type := mkMat4 { row0 : Vec4; row1 : Vec4; row2 : Vec4; row3 : Vec4 }.

Definition vzero : Vec3 := mkVec3 0 0 0.

Definition vsub (a b : Vec3) : Vec3 :=
  mkVec3 (vx a - vx b) (vy a - vy b) (vz a - vz b).

Definition vadd (a b : Vec3) : Vec3 :=
  mkVec3 (vx a + vx b) (vy a + vy b) (vz a + vz b).

Definition vopp (a : Vec3) : Vec3 := mkVec3 (- vx a) (- vy a) (- vz a).

(** [k * v] *)
Definition vscale (k : R) (a : Vec3) : Vec3 :=
  mkVec3 (k * vx a) (k * vy a) (k * vz a).

(** [v / k] *)
Definition vdiv (a : Vec3) (k : R) : Vec3 :=
  mkVec3 (vx a / k) (vy a / k) (vz a / k).

Definition dot (a b : Vec3) : R := vx a * vx b + vy a * vy b + vz a * vz b.

(** [np.cross(a, b)] *)
Definition cross (a b : Vec3) : Vec3 :=
  mkVec3 (vy a * vz b - vz a * vy b)
         (vz a * vx b - vx a * vz b)
         (vx a * vy b - vy a * vx b).

(** [np.linalg.norm(v)] *)
Definition norm (a : Vec3) : R := sqrt (dot a a).

(** [v / np.linalg.norm(v)] *)
Definition normalize (a : Vec3) : Vec3 := vdiv a (norm a).

(** [np.zeros((4, 4))] and [np.identity(4)] *)
Definition zeros : Mat4 :=
  mkMat4 (mkVec4 0 0 0 0) (mkVec4 0 0 0 0) (mkVec4 0 0 0 0) (mkVec4 0 0 0 0).

Definition identity : Mat4 :=
  mkMat4 (mkVec4 1 0 0 0) (mkVec4 0 1 0 0) (mkVec4 0 0 1 0) (mkVec4 0 0 0 1).

(** [v[j]]; the call sites below pass only 0..3. *)
Definition vget (v : Vec4) (j : nat) : R :=
  match j with
  | 0%nat => e0 v
  | 1%nat => e1 v
  | 2%nat => e2 v
  | _ => e3 v
  end.

Definition vset (v : Vec4) (j : nat) (x : R) : Vec4 :=
  match j with
  | 0%nat => mkVec4 x (e1 v) (e2 v) (e3 v)
  | 1%nat => mkVec4 (e0 v) x (e2 v) (e3 v)
  | 2%nat => mkVec4 (e0 v) (e1 v) x (e3 v)
  | _ => mkVec4 (e0 v) (e1 v) (e2 v) x
  end.

(** [m[i, :]] *)
Definition mrow (m : Mat4) (i : nat) : Vec4 :=
  match i with
  | 0%nat => row0 m
  | 1%nat => row1 m
  | 2%nat => row2 m
  | _ => row3 m
  end.

(** [m[i, j]] *)
Definition mget (m : Mat4) (i j : nat) : R := vget (mrow m i) j.

(** [m[:, j]] *)
Definition mcol (m : Mat4) (j : nat) : Vec4 :=
  mkVec4 (mget m 0 j) (mget m 1 j) (mget m 2 j) (mget m 3 j).

(** [m[:3, j]] *)
Definition col3 (m : Mat4) (j : nat) : Vec3 :=
  mkVec3 (mget m 0 j) (mget m 1 j) (mget m 2 j).

(** [m[i, :3]] *)
Definition row3_of (m : Mat4) (i : nat) : Vec3 :=
  mkVec3 (mget m i 0) (mget m i 1) (mget m i 2).

(** [m[:3, j] = v] *)
Definition set_col3 (m : Mat4) (j : nat) (v : Vec3) : Mat4 :=
  mkMat4 (vset (row0 m) j (vx v)) (vset (row1 m) j (vy v))
         (vset (row2 m) j (vz v)) (row3 m).

(** [m[i, j] = x] for the last row, the only one the source writes
    entry by entry ([rt[3, 3] = 1]). *)
Definition set_row3_entry (m : Mat4) (j : nat) (x : R) : Mat4 :=
  mkMat4 (row0 m) (row1 m) (row2 m) (vset (row3 m) j x).

(** [m[3, :3] = 0] *)
Definition clear_row3 (m : Mat4) : Mat4 :=
  mkMat4 (row0 m) (row1 m) (row2 m) (mkVec4 0 0 0 (e3 (row3 m))).

(** [m.T] *)
Definition mT (m : Mat4) : Mat4 :=
  mkMat4 (mcol m 0) (mcol m 1) (mcol m 2) (mcol m 3).

Definition dot4 (a b : Vec4) : R :=
  e0 a * e0 b + e1 a * e1 b + e2 a * e2 b + e3 a * e3 b.

(** [m @ v] for [v] of shape (4,) *)
Definition mulv (m : Mat4) (v : Vec4) : Vec4 :=
  mkVec4 (dot4 (row0 m) v) (dot4 (row1 m) v) (dot4 (row2 m) v) (dot4 (row3 m) v).

(** [a @ b] for two (4, 4) arrays *)
Definition mmul (a b : Mat4) : Mat4 :=
  let r (i : nat) :=
    mkVec4 (dot4 (mrow a i) (mcol b 0)) (dot4 (mrow a i) (mcol b 1))
           (dot4 (mrow a i) (mcol b 2)) (dot4 (mrow a i) (mcol b 3)) in
  mkMat4 (r 0%nat) (r 1%nat) (r 2%nat) (r 3%nat).

(** [m[:3, :3] @ v] for [v] of shape (3,) *)
Definition block3_mulv (m : Mat4) (v : Vec3) : Vec3 :=
  mkVec3 (dot (row3_of m 0) v) (dot (row3_of m 1) v) (dot (row3_of m 2) v).

(** [v[:3]] *)
Definition first3 (v : Vec4) : Vec3 := mkVec3 (e0 v) (e1 v) (e2 v).

(** An array of shape (3, 3), by rows. *)
Record Mat3 : Type := mkMat3 { r3_0 : Vec3; r3_1 : Vec3; r3_2 : Vec3 }.

(** [m[:, j]] of a (3, 3) array, for the three columns *)
Definition c3_0 (b : Mat3) : Vec3 := mkVec3 (vx (r3_0 b)) (vx (r3_1 b)) (vx (r3_2 b)).
Definition c3_1 (b : Mat3) : Vec3 := mkVec3 (vy (r3_0 b)) (vy (r3_1 b)) (vy (r3_2 b)).
Definition c3_2 (b : Mat3) : Vec3 := mkVec3 (vz (r3_0 b)) (vz (r3_1 b)) (vz (r3_2 b)).

(** [m[:3, :3]] *)
Definition block3 (m : Mat4) : Mat3 :=
  mkMat3 (row3_of m 0) (row3_of m 1) (row3_of m 2).

(** [a @ b] for two (3, 3) arrays *)
Definition mmul3 (a b : Mat3) : Mat3 :=
  let r (v : Vec3) := mkVec3 (dot v (c3_0 b)) (dot v (c3_1 b)) (dot v (c3_2 b)) in
  mkMat3 (r (r3_0 a)) (r (r3_1 a)) (r (r3_2 a)).

(** [m[:3, :3] = b] *)
Definition set_block3 (m : Mat4) (b : Mat3) : Mat4 :=
  let r (old : Vec4) (v : Vec3) := mkVec4 (vx v) (vy v) (vz v) (e3 old) in
  mkMat4 (r (row0 m) (r3_0 b)) (r (row1 m) (r3_1 b)) (r (row2 m) (r3_2 b)) (row3 m).

(** ** Module level state and externals *)

(** [ezc3d_found] is set once, when the module is imported.  When the import
    of ezc3d fails the name [ezc3d] is bound to [None], and the annotation
    [ezc3d.c3d] of [MarkerGeneric.to_marker] then makes the import of
    model_creation.py itself fail; in every program that runs this code the
    flag is therefore [True]. *)
Definition ezc3d_found : bool := true.

(** What the serializer takes from Python and numpy: the format
    specifications [:0.3f] and [:0.4f], [str] of a number, [np.arctan2] and
    [np.arcsin]. *)
Record externals : Type := Build_externals
  { format_3f : R -> string;
    format_4f : R -> string;
    str_number : R -> string;
    arctan2 : R -> R -> R;
    arcsin : R -> R }.

(** The characters [\n] and [\t] of the format strings. *)
Definition nl : string := String (Ascii.ascii_of_nat 10) EmptyString.
Definition tab : string := String (Ascii.ascii_of_nat 9) EmptyString.

(** [repr] of a tuple of strings *)
Definition repr_tuple (l : list string) : string :=
  match l with
  | [] => "()"%string
  | [a] => ("(" ++ repr_str a ++ ",)")%string
  | _ => ("(" ++ String.concat ", " (map repr_str l) ++ ")")%string
  end.

(** ** class Marker *)

Module Marker.

Record t : Type := Build
  { name : string;
    parent_name : string;
    position : Vec3;
    is_technical : bool;
    is_anatomical : bool }.

(** [Marker.__str__] *)
Definition __str__ (ext : externals) (self : t) : string :=
  ("marker " ++ name self ++ nl
   ++ tab ++ "parent " ++ parent_name self ++ nl
   ++ tab ++ "position " ++ format_4f ext (vx (position self)) ++ " "
   ++ format_4f ext (vy (position self)) ++ " "
   ++ format_4f ext (vz (position self)) ++ nl
   ++ tab ++ "technical " ++ (if is_technical self then "1" else "0") ++ nl
   ++ tab ++ "anatomical " ++ (if is_anatomical self then "1" else "0") ++ nl
   ++ "endmarker" ++ nl)%string.

End Marker.

(** ** class Axis *)

Module Axis.

(** [class Name(Enum)]: X = 0, Y = 1, Z = 2 *)
Inductive Name : Type := X | Y | Z.

Definition value (n : Name) : nat :=
  match n with X => 0%nat | Y => 1%nat | Z => 2%nat end.

Definition Name_eqb (a b : Name) : bool :=
  match a, b with
  | X, X | Y, Y | Z, Z => true
  | _, _ => false
  end.

Record t : Type := Build
  { name : Name;
    start_point : Marker.t;
    end_point : Marker.t }.

(** [Axis.axis] *)
Definition axis (self : t) : result Vec3 :=
  if negb ezc3d_found
  then Raise (RuntimeError "Ezc3d must be install to use the 'get_axis_from_data' constructor")
  else
    let start := Marker.position (start_point self) in
    let end_ := Marker.position (end_point self) in
    Ok (vsub end_ start).

End Axis.

(** ** class RT *)

Module RT.

(** An RT holds a reference to its parent's RT; nothing in the module
    writes to an RT after it is built, so the reference is embedded as the
    parent's value. *)
Inductive t : Type :=
| Build (rt : Mat4) (parent_rt : option t) (is_rt_local : bool).

Definition rt (self : t) : Mat4 := let (m, _, _) := self in m.
Definition parent_rt (self : t) : option t := let (_, p, _) := self in p.
Definition is_rt_local (self : t) : bool := let (_, _, l) := self in l.

(** [RT()]: the default arguments of [__init__] *)
Definition default : t := Build identity None false.

(** The reordering of the two axes at the head of [from_markers]: the name
    of the third axis, then the two axes in right-handed order. *)
Definition reorder (first_axis second_axis : Axis.t) : Axis.Name * Axis.t * Axis.t :=
  match Axis.name first_axis with
  | Axis.X =>
      let third_axis_name :=
        if Axis.Name_eqb (Axis.name second_axis) Axis.Z then Axis.Y else Axis.Z in
      if Axis.Name_eqb (Axis.name second_axis) Axis.Z
      then (third_axis_name, second_axis, first_axis)
      else (third_axis_name, first_axis, second_axis)
  | Axis.Y =>
      let third_axis_name :=
        if Axis.Name_eqb (Axis.name second_axis) Axis.X then Axis.Z else Axis.X in
      if Axis.Name_eqb (Axis.name second_axis) Axis.X
      then (third_axis_name, second_axis, first_axis)
      else (third_axis_name, first_axis, second_axis)
  | Axis.Z =>
      let third_axis_name :=
        if Axis.Name_eqb (Axis.name second_axis) Axis.Y then Axis.X else Axis.Y in
      if Axis.Name_eqb (Axis.name second_axis) Axis.Y
      then (third_axis_name, second_axis, first_axis)
      else (third_axis_name, first_axis, second_axis)
  end.

(** [RT.from_markers].  The last [else] of the source's chain on
    [first_axis.name] ("first_axis should be an X, Y or Z axis") is for a
    name that is no member of [Axis.Name]; the type has none. *)
Definition from_markers (origin : Marker.t) (axes : Axis.t * Axis.t * Axis.Name)
    (parent_rt : option t) : result t :=
  let first_axis := fst (fst axes) in
  let second_axis := snd (fst axes) in
  let axis_name_to_keep := snd axes in
  if Axis.Name_eqb (Axis.name first_axis) (Axis.name second_axis)
  then Raise (ValueError "The two axes cannot be the same axis")
  else
    let '(third_axis_name, first_axis, second_axis) := reorder first_axis second_axis in
    first_axis_vector <- Axis.axis first_axis ;;
    second_axis_vector <- Axis.axis second_axis ;;
    let third_axis_vector := cross first_axis_vector second_axis_vector in
    vectors <-
      (if Axis.Name_eqb axis_name_to_keep (Axis.name first_axis)
       then Ok (first_axis_vector, cross third_axis_vector first_axis_vector)
       else if Axis.Name_eqb axis_name_to_keep (Axis.name second_axis)
       then Ok (cross second_axis_vector third_axis_vector, second_axis_vector)
       else Raise (ValueError "Name of axis to keep should be one of the two axes")) ;;
    let '(first_axis_vector, second_axis_vector) := vectors in
    let rt := zeros in
    let rt := set_col3 rt (Axis.value (Axis.name first_axis))
                (vdiv first_axis_vector (norm first_axis_vector)) in
    let rt := set_col3 rt (Axis.value (Axis.name second_axis))
                (vdiv second_axis_vector (norm second_axis_vector)) in
    let rt := set_col3 rt (Axis.value third_axis_name)
                (vdiv third_axis_vector (norm third_axis_vector)) in
    let rt := set_col3 rt 3 (Marker.position origin) in
    let rt := set_row3_entry rt 3 1 in
    Ok (Build rt parent_rt false).

(** [RT.copy]: [copy(self.rt)] is a fresh array with the same entries; the
    flag is not passed, so [__init__] gives it its default. *)
Definition copy (self : t) : t := Build (rt self) (parent_rt self) false.

(** [RT.transpose] (a property).  After [out.rt = out.rt.T] the old
    translation is [out.rt[3, :3]]; the right-hand side of the next
    statement is evaluated before the column is written.  The unary minus
    of [-out.rt[:3, :3] @ out.rt[3, :3]] applies to the block; the product
    of the negated block is the negated product. *)
Definition transpose (self : t) : t :=
  let out := copy self in
  let m := mT (rt out) in
  let m := set_col3 m 3 (vopp (block3_mulv m (row3_of m 3))) in
  let m := clear_row3 m in
  Build m (parent_rt out) (is_rt_local out).

(** [RT.__matmul__] with an array of shape (4, 4) or (4,) *)
Definition matmul (self : t) (other : Mat4) : Mat4 := mmul (rt self) other.
Definition matmul_vec (self : t) (other : Vec4) : Vec4 := mulv (rt self) other.

(** The matrix [rt] that [RT.__str__] decomposes.  The conditional
    expression binds weaker than [@]: without a parent the value is
    [np.identity(4)]. *)
Definition str_rt (self : t) : Mat4 :=
  if is_rt_local self then rt self
  else
    match parent_rt self with
    | Some parent => matmul (transpose parent) (rt self)
    | None => identity
    end.

(** The rest of [__str__], from the matrix on. *)
Definition str_of_matrix (ext : externals) (rt : Mat4) : string :=
  let tx := mget rt 0 3 in
  let ty := mget rt 1 3 in
  let tz := mget rt 2 3 in
  let rx := arctan2 ext (- mget rt 1 2) (mget rt 2 2) in
  let ry := arcsin ext (mget rt 0 2) in
  let rz := arctan2 ext (- mget rt 0 1) (mget rt 0 0) in
  (format_3f ext rx ++ " " ++ format_3f ext ry ++ " " ++ format_3f ext rz ++ " xyz "
   ++ format_3f ext tx ++ " " ++ format_3f ext ty ++ " " ++ format_3f ext tz)%string.

(** [RT.__str__] *)
Definition __str__ (ext : externals) (self : t) : string :=
  str_of_matrix ext (str_rt self).

(** The dict [matrix] of [from_euler_and_translation]: [matrix[axis](angle)],
    a [KeyError] for a letter that is not x, y or z. *)
Definition matrix (axis : Ascii.ascii) (angle : R) : result Mat3 :=
  if Ascii.eqb axis "x"%char
  then Ok (mkMat3 (mkVec3 1 0 0)
                  (mkVec3 0 (cos angle) (- sin angle))
                  (mkVec3 0 (sin angle) (cos angle)))
  else if Ascii.eqb axis "y"%char
  then Ok (mkMat3 (mkVec3 (cos angle) 0 (sin angle))
                  (mkVec3 0 1 0)
                  (mkVec3 (- sin angle) 0 (cos angle)))
  else if Ascii.eqb axis "z"%char
  then Ok (mkMat3 (mkVec3 (cos angle) (- sin angle) 0)
                  (mkVec3 (sin angle) (cos angle) 0)
                  (mkVec3 0 0 1))
  else Raise (KeyError (String axis EmptyString)).

(** The loop [for angle, axis in zip(angles, angle_sequence)] *)
Fixpoint rotate (rt : Mat4) (pairs : list (R * Ascii.ascii)) : result Mat4 :=
  match pairs with
  | [] => Ok rt
  | (angle, axis) :: pairs' =>
      m <- matrix axis angle ;;
      rotate (set_block3 rt (mmul3 (block3 rt) m)) pairs'
  end.

(** [RT.from_euler_and_translation].  [translations] is a tuple of three
    numbers. *)
Definition from_euler_and_translation (angles : list R) (angle_sequence : string)
    (translations : Vec3) (parent_rt : option t) : result t :=
  let rt := identity in
  rt <- rotate rt (combine angles (list_ascii_of_string angle_sequence)) ;;
  let rt := set_col3 rt 3 translations in
  Ok (Build rt parent_rt true).

End RT.

(** ** The motion-capture trial *)

(** An entry of [c3d["data"]["points"]]: NaN (the marker was not seen) or a
    number. *)
Inductive sample : Type :=
| nan
| num (x : R).

Definition isnan (s : sample) : bool :=
  match s with nan => true | num _ => false end.

(** [s / k] *)
Definition sdiv (s : sample) (k : R) : sample :=
  match s with nan => nan | num x => num (x / k) end.

(** The entries that are not NaN. *)
Fixpoint values (l : list sample) : list R :=
  match l with
  | [] => []
  | nan :: l' => values l'
  | num x :: l' => x :: values l'
  end.

Fixpoint Rsum (l : list R) : R :=
  match l with
  | [] => 0
  | x :: l' => x + Rsum l'
  end.

(** [np.nanmean] along an axis: the mean of the entries that are not NaN,
    NaN when there is none. *)
Definition nanmean (l : list sample) : sample :=
  let xs := values l in
  match xs with
  | [] => nan
  | _ => num (Rsum xs / INR (List.length xs))
  end.

(** [np.mean] along an axis: NaN as soon as an entry is NaN, and for an
    empty axis. *)
Definition mean (l : list sample) : sample :=
  if existsb isnan l then nan
  else
    match l with
    | [] => nan
    | _ => num (Rsum (values l) / INR (List.length l))
    end.

Module C3d.

(** What the code reads of an ezc3d trial:
    [c3d["parameters"]["POINT"]["LABELS"]["value"]],
    [c3d["parameters"]["POINT"]["UNITS"]["value"]] and
    [c3d["data"]["points"]], an array of shape
    (4, [nb_points], [nb_frames]). *)
Record t : Type := Build
  { LABELS : list string;
    UNITS : list string;
    nb_points : nat;
    nb_frames : nat;
    points : nat -> nat -> nat -> sample }.

End C3d.

(** [from_markers: str | tuple[str, ...]] *)
Inductive str_or_tuple : Type :=
| Str (s : string)
| Tuple (l : list string).

(** [points[:, index, :]] raises when an index is outside the second axis. *)
Definition check_indices (c3d : C3d.t) (index : list nat) : result unit :=
  if forallb (fun i => (i <? C3d.nb_points c3d)%nat) index then Ok tt
  else Raise IndexError.

(** Row [r] of [np.mean(np.nanmean(points[:, index, :], axis=2), axis=1)] *)
Definition mean_of_nanmeans (c3d : C3d.t) (index : list nat) (r : nat) : sample :=
  mean (map (fun i =>
               nanmean (map (fun f => C3d.points c3d r i f)
                            (seq 0 (C3d.nb_frames c3d))))
            index).

(** [to_meter] of [Marker.from_data], on the array of shape (4,) *)
Definition to_meter (c3d : C3d.t) (data : sample * sample * sample * sample) :
    sample * sample * sample * sample :=
  let units := C3d.UNITS c3d in
  let factor :=
    match units with
    | u :: _ => if String.eqb u "mm" then 1000 else 1
    | [] => 1
    end in
  let '(d0, d1, d2, d3) := data in
  let '(d0, d1, d2, d3) := (sdiv d0 factor, sdiv d1 factor, sdiv d2 factor, sdiv d3 factor) in
  (d0, d1, d2, num 1).

(** [np.isnan(position).any()], and the array as numbers when no entry is
    NaN. *)
Definition finite4 (position : sample * sample * sample * sample) : option Vec4 :=
  match position with
  | (num a, num b, num c, num d) => Some (mkVec4 a b c d)
  | _ => None
  end.

(** [Marker.from_data] *)
Definition Marker_from_data (c3d : C3d.t) (name : string) (from_markers : str_or_tuple)
    (parent_name : string) (parent_rt : option RT.t)
    (is_technical is_anatomical : bool) : result Marker.t :=
  if negb ezc3d_found
  then Raise (RuntimeError "Ezc3d must be install to use the 'from_data' constructor")
  else
    let from_markers :=
      match from_markers with
      | Str s => [s]
      | Tuple l => l
      end in
    index <- mapM (index (C3d.LABELS c3d)) from_markers ;;
    _ <- check_indices c3d index ;;
    let position :=
      to_meter c3d (mean_of_nanmeans c3d index 0, mean_of_nanmeans c3d index 1,
                    mean_of_nanmeans c3d index 2, mean_of_nanmeans c3d index 3) in
    match finite4 position with
    | None =>
        Raise (RuntimeError ("The markers " ++ repr_tuple from_markers
                             ++ " are not present in the c3d"))
    | Some position =>
        let position :=
          match parent_rt with
          | Some parent_rt => RT.matmul_vec (RT.transpose parent_rt) position
          | None => mulv identity position
          end in
        Ok (Marker.Build name parent_name (first3 position) is_technical is_anatomical)
    end.

(** ** class Segment *)

Module Segment.

Record t : Type := Build
  { name : string;
    parent_name : string;
    translations : string;
    rotations : string;
    markers : list Marker.t;
    rt : option RT.t;
    mass : R;
    center_of_mass : R * R * R;
    inertia_xxyyzz : R * R * R;
    mesh : option (list (R * R * R)) }.

(** [Segment(name=..., parent_name=..., rt=..., translations=...,
    rotations=...)], the call of [generate_personalized]: no marker yet, and
    the defaults for mass, centre of mass, inertia and mesh. *)
Definition init (name parent_name : string) (rt : option RT.t)
    (translations rotations : string) : t :=
  Build name parent_name translations rotations [] rt 0 (0, 0, 0) (0, 0, 0) None.

(** [Segment.add_marker] *)
Definition add_marker (self : t) (marker : Marker.t) : t :=
  Build (name self) (parent_name self) (translations self) (rotations self)
        (markers self ++ [marker]) (rt self) (mass self) (center_of_mass self)
        (inertia_xxyyzz self) (mesh self).

(** A string is true when it is not empty. *)
Definition truthy (s : string) : bool :=
  match s with EmptyString => false | _ => true end.

(** [Segment.__str__].  The tuples of three numbers are never empty, so the
    tests on [center_of_mass] and [inertia_xxyyzz] hold. *)
Definition __str__ (ext : externals) (self : t) : string :=
  let out_string := ("segment " ++ name self ++ nl)%string in
  let out_string :=
    if truthy (parent_name self)
    then (out_string ++ tab ++ "parent " ++ parent_name self ++ nl)%string
    else out_string in
  let out_string :=
    match rt self with
    | Some rt => (out_string ++ tab ++ "RT " ++ RT.__str__ ext rt ++ nl)%string
    | None => out_string
    end in
  let out_string :=
    if truthy (translations self)
    then (out_string ++ tab ++ "translations " ++ translations self ++ nl)%string
    else out_string in
  let out_string :=
    if truthy (rotations self)
    then (out_string ++ tab ++ "rotations " ++ rotations self ++ nl)%string
    else out_string in
  let out_string := (out_string ++ tab ++ "mass " ++ str_number ext (mass self) ++ nl)%string in
  let out_string :=
    let '(c0, c1, c2) := center_of_mass self in
    (out_string ++ tab ++ "com " ++ str_number ext c0 ++ " " ++ str_number ext c1 ++ " "
     ++ str_number ext c2 ++ nl)%string in
  let out_string :=
    let '(i0, i1, i2) := inertia_xxyyzz self in
    (out_string
     ++ tab ++ "inertia " ++ str_number ext i0 ++ " 0 0" ++ nl
     ++ tab ++ "        0 " ++ str_number ext i1 ++ " 0" ++ nl
     ++ tab ++ "        0 0 " ++ str_number ext i2 ++ nl)%string in
  let out_string :=
    match mesh self with
    | Some mesh =>
        fold_left (fun out m =>
                     let '(m0, m1, m2) := m in
                     (out ++ tab ++ "mesh " ++ str_number ext m0 ++ " " ++ str_number ext m1
                      ++ " " ++ str_number ext m2 ++ nl)%string)
                  mesh out_string
    | None => out_string
    end in
  let out_string := (out_string ++ "endsegment" ++ nl)%string in
  fold_left (fun out marker => (out ++ Marker.__str__ ext marker)%string)
            (markers self) out_string.

End Segment.

(** ** The file system *)

(** The files by path, and the paths [open(path, "w")] can open. *)
Record filesystem : Type := Build_filesystem
  { files : string -> option string;
    can_open : string -> bool }.

(** [with open(file_path, "w") as file: file.write(text)] *)
Definition write_file (fs : filesystem) (file_path text : string) :
    result unit * filesystem :=
  if can_open fs file_path
  then
    (Ok tt,
     Build_filesystem
       (fun p => if String.eqb p file_path then Some text else files fs p)
       (can_open fs))
  else (Raise (OSError file_path), fs).

(** ** class KinematicChain *)

Module KinematicChain.

Record t : Type := Build { segments : list Segment.t }.

(** [KinematicChain.__str__] *)
Definition __str__ (ext : externals) (self : t) : string :=
  fold_left (fun out segment =>
               (out ++ Segment.__str__ ext segment ++ nl ++ nl ++ nl)%string)
            (segments self) ("version 4" ++ nl ++ nl)%string.

(** [KinematicChain.write] *)
Definition write (ext : externals) (self : t) (fs : filesystem) (file_path : string) :
    result unit * filesystem :=
  write_file fs file_path (__str__ ext self).

End KinematicChain.

(** ** class DeLeva *)

(** What [DeLeva] calls of a [biorbd.Model]: [nbQ()], [markerNames()] (as
    strings) and [markers(q)] (as arrays of shape (3,)). *)
Module Model.

Record t : Type := Build
  { nbQ : nat;
    markerNames : list string;
    markers : list R -> list Vec3 }.

End Model.

Module DeLeva.

(** [class Param] *)
Record Param : Type := Build_Param
  { marker_names : string * string;
    mass : R;
    center_of_mass : R;
    radii : R * R * R }.

(** [self.table], a dict by sex of dicts by segment name *)
Definition table : list (string * list (string * Param)) :=
  [ ("male"%string,
     [ ("HEAD"%string, Build_Param ("TOP_HEAD", "SHOULDER")%string 0.0694 0.5002 (0.303, 0.315, 0.261));
       ("TRUNK"%string, Build_Param ("SHOULDER", "PELVIS")%string 0.4346 0.5138 (0.328, 0.306, 0.169));
       ("UPPER_ARM"%string, Build_Param ("SHOULDER", "ELBOW")%string (0.0271 * 2) 0.5772 (0.285, 0.269, 0.158));
       ("LOWER_ARM"%string, Build_Param ("ELBOW", "WRIST")%string (0.0162 * 2) 0.4574 (0.276, 0.265, 0.121));
       ("HAND"%string, Build_Param ("WRIST", "FINGER")%string (0.0061 * 2) 0.7900 (0.628, 0.513, 0.401));
       ("THIGH"%string, Build_Param ("PELVIS", "KNEE")%string (0.1416 * 2) 0.4095 (0.329, 0.329, 0.149));
       ("SHANK"%string, Build_Param ("KNEE", "ANKLE")%string (0.0433 * 2) 0.4459 (0.255, 0.249, 0.103));
       ("FOOT"%string, Build_Param ("ANKLE", "TOE")%string (0.0137 * 2) 0.4415 (0.257, 0.245, 0.124)) ]);
    ("female"%string,
     [ ("HEAD"%string, Build_Param ("TOP_HEAD", "SHOULDER")%string 0.0669 0.4841 (0.271, 0.295, 0.261));
       ("TRUNK"%string, Build_Param ("SHOULDER", "PELVIS")%string 0.4257 0.4964 (0.307, 0.292, 0.147));
       ("UPPER_ARM"%string, Build_Param ("SHOULDER", "ELBOW")%string (0.0255 * 2) 0.5754 (0.278, 0.260, 0.148));
       ("LOWER_ARM"%string, Build_Param ("ELBOW", "WRIST")%string (0.0138 * 2) 0.4559 (0.261, 0.257, 0.094));
       ("HAND"%string, Build_Param ("WRIST", "FINGER")%string (0.0056 * 2) 0.7474 (0.531, 0.454, 0.335));
       ("THIGH"%string, Build_Param ("PELVIS", "KNEE")%string (0.1478 * 2) 0.3612 (0.369, 0.364, 0.162));
       ("SHANK"%string, Build_Param ("KNEE", "ANKLE")%string (0.0481 * 2) 0.4416 (0.271, 0.267, 0.093));
       ("FOOT"%string, Build_Param ("ANKLE", "TOE")%string (0.0129 * 2) 0.4014 (0.299, 0.279, 0.124)) ]) ].

Record t : Type := Build
  { sex : string;
    mass_ : R;
    model : Model.t;
    q_zero : list R;
    marker_names_ : list string }.

(** [DeLeva.__init__]; the table is the same for every instance. *)
Definition init (sex : string) (mass : R) (model : Model.t) : t :=
  Build sex mass model (repeat 0 (Model.nbQ model)) (Model.markerNames model).

(** [self.table[self.sex][segment]] *)
Definition param (self : t) (segment : string) : result Param :=
  by_segment <- dict_getitem table (sex self) ;;
  dict_getitem by_segment segment.

(** [DeLeva.segment_mass] *)
Definition segment_mass (self : t) (segment : string) : result R :=
  p <- param self segment ;;
  Ok (mass p * mass_ self).

(** [DeLeva.segment_length] *)
Definition segment_length (self : t) (segment : string) : result R :=
  table <- param self segment ;;
  let marker_positions := Model.markers (model self) (q_zero self) in
  idx_proximal <- index (marker_names_ self) (fst (marker_names table)) ;;
  idx_distal <- index (marker_names_ self) (snd (marker_names table)) ;;
  distal <- getitem marker_positions idx_distal ;;
  proximal <- getitem marker_positions idx_proximal ;;
  Ok (norm (vsub distal proximal)).

(** [DeLeva.segment_center_of_mass] *)
Definition segment_center_of_mass (self : t) (segment : string) (inverse_proximal : bool) :
    result (R * R * R) :=
  table <- param self segment ;;
  let marker_positions := Model.markers (model self) (q_zero self) in
  idx_proximal <- index (marker_names_ self) (fst (marker_names table)) ;;
  idx_distal <- index (marker_names_ self) (snd (marker_names table)) ;;
  center_of_mass <-
    (if inverse_proximal
     then
       proximal <- getitem marker_positions idx_proximal ;;
       distal <- getitem marker_positions idx_distal ;;
       Ok (vscale (1 - center_of_mass table) (vsub proximal distal))
     else
       distal <- getitem marker_positions idx_distal ;;
       proximal <- getitem marker_positions idx_proximal ;;
       Ok (vscale (center_of_mass table) (vsub distal proximal))) ;;
  Ok (vx center_of_mass, vy center_of_mass, vz center_of_mass).

(** [DeLeva.segment_moment_of_inertia] *)
Definition segment_moment_of_inertia (self : t) (segment : string) : result (R * R * R) :=
  mass <- segment_mass self segment ;;
  length <- segment_length self segment ;;
  p <- param self segment ;;
  let '(r0, r1, r2) := radii p in
  Ok (mass * (length * r0) ^ 2, mass * (length * r1) ^ 2, mass * (length * r2) ^ 2).

End DeLeva.

(** ** The generic (template) classes *)

Module MarkerGeneric.

Record t : Type := Build
  { name : string;
    from_markers : str_or_tuple;
    parent_name : string;
    is_technical : bool;
    is_anatomical : bool }.

(** [MarkerGeneric.to_marker] *)
Definition to_marker (self : t) (c3d : C3d.t) (parent_rt : option RT.t) : result Marker.t :=
  Marker_from_data c3d (name self) (from_markers self) (parent_name self) parent_rt
                   (is_technical self) (is_anatomical self).

End MarkerGeneric.

Module AxisGeneric.

Record t : Type := Build
  { name : Axis.Name;
    start_point : MarkerGeneric.t;
    end_point : MarkerGeneric.t }.

(** [AxisGeneric.to_axis] *)
Definition to_axis (self : t) (c3d : C3d.t) (parent_rt : option RT.t) : result Axis.t :=
  if negb ezc3d_found
  then Raise (RuntimeError "Ezc3d must be install to use the 'get_axis_from_data' constructor")
  else
    start <- MarkerGeneric.to_marker (start_point self) c3d parent_rt ;;
    end_ <- MarkerGeneric.to_marker (end_point self) c3d parent_rt ;;
    Ok (Axis.Build (name self) start end_).

End AxisGeneric.

Module RTGeneric.

Record t : Type := Build
  { origin : MarkerGeneric.t;
    axes : AxisGeneric.t * AxisGeneric.t * Axis.Name }.

(** [RTGeneric.to_rt] *)
Definition to_rt (self : t) (c3d : C3d.t) (parent_rt : option RT.t) : result RT.t :=
  origin <- MarkerGeneric.to_marker (origin self) c3d None ;;
  axis0 <- AxisGeneric.to_axis (fst (fst (axes self))) c3d None ;;
  axis1 <- AxisGeneric.to_axis (snd (fst (axes self))) c3d None ;;
  let axes := (axis0, axis1, snd (axes self)) in
  RT.from_markers origin axes parent_rt.

End RTGeneric.

Module SegmentGeneric.

Record t : Type := Build
  { name : string;
    parent_name : string;
    translations : string;
    rotations : string;
    markers : list MarkerGeneric.t;
    rt : option RTGeneric.t }.

(** [SegmentGeneric.__init__] *)
Definition init (name parent_name translations rotations : string) : t :=
  Build name parent_name translations rotations [] None.

(** [SegmentGeneric.add_marker] *)
Definition add_marker (self : t) (marker : MarkerGeneric.t) : t :=
  Build (name self) (parent_name self) (translations self) (rotations self)
        (markers self ++ [marker]) (rt self).

(** [SegmentGeneric.set_rt] *)
Definition set_rt (self : t) (origin_from_markers : str_or_tuple)
    (first_axis_name : Axis.Name) (first_axis_markers : str_or_tuple * str_or_tuple)
    (second_axis_name : Axis.Name) (second_axis_markers : str_or_tuple * str_or_tuple)
    (axis_to_keep : Axis.Name) : t :=
  let generic (from_markers : str_or_tuple) :=
    MarkerGeneric.Build EmptyString from_markers EmptyString true false in
  let first_axis_tp :=
    AxisGeneric.Build first_axis_name (generic (fst first_axis_markers))
                      (generic (snd first_axis_markers)) in
  let second_axis_tp :=
    AxisGeneric.Build second_axis_name (generic (fst second_axis_markers))
                      (generic (snd second_axis_markers)) in
  Build (name self) (parent_name self) (translations self) (rotations self) (markers self)
        (Some (RTGeneric.Build (generic origin_from_markers)
                               (first_axis_tp, second_axis_tp, axis_to_keep))).

End SegmentGeneric.

Module KinematicModelGeneric.

(** [self.segments], the dict of the segments by name *)
Record t : Type := Build { segments : list (string * SegmentGeneric.t) }.

(** [KinematicModelGeneric()] *)
Definition init : t := Build [].

(** [KinematicModelGeneric.add_segment] *)
Definition add_segment (self : t) (name parent_name translations rotations : string) : t :=
  Build (dict_setitem (segments self) name
           (SegmentGeneric.init name parent_name translations rotations)).

(** [KinematicModelGeneric.set_rt]; the segment object is updated in place,
    which keeps its place in the dict. *)
Definition set_rt (self : t) (segment_name : string) (origin_markers : str_or_tuple)
    (first_axis_name : Axis.Name) (first_axis_markers : str_or_tuple * str_or_tuple)
    (second_axis_name : Axis.Name) (second_axis_markers : str_or_tuple * str_or_tuple)
    (axis_to_keep : Axis.Name) : result t :=
  s <- dict_getitem (segments self) segment_name ;;
  Ok (Build (dict_setitem (segments self) segment_name
               (SegmentGeneric.set_rt s origin_markers first_axis_name first_axis_markers
                                      second_axis_name second_axis_markers axis_to_keep))).

(** [KinematicModelGeneric.add_marker] *)
Definition add_marker (self : t) (segment name : string) (from_markers : option str_or_tuple)
    (is_technical is_anatomical : bool) : result t :=
  let from_markers :=
    match from_markers with
    | None => Str name
    | Some from_markers => from_markers
    end in
  s <- dict_getitem (segments self) segment ;;
  Ok (Build (dict_setitem (segments self) segment
               (SegmentGeneric.add_marker s
                  (MarkerGeneric.Build name from_markers segment is_technical is_anatomical)))).

(** One turn of the loop of [generate_personalized], for the key [name] of
    [self.segments], with [segments] the list built so far. *)
Definition personalize_segment (self : t) (c3d : C3d.t) (segments : list Segment.t)
    (name : string) : result (list Segment.t) :=
  s <- dict_getitem (KinematicModelGeneric.segments self) name ;;
  parent_index <-
    (if Segment.truthy (SegmentGeneric.parent_name s)
     then
       i <- index (map Segment.name segments) (SegmentGeneric.parent_name s) ;;
       Ok (Some i)
     else Ok None) ;;
  rt <-
    match SegmentGeneric.rt s with
    | None => Ok RT.default
    | Some generic =>
        parent_rt <-
          match parent_index with
          | Some parent_index =>
              parent <- getitem segments parent_index ;;
              Ok (Segment.rt parent)
          | None => Ok None
          end ;;
        RTGeneric.to_rt generic c3d parent_rt
    end ;;
  let segment :=
    Segment.init (SegmentGeneric.name s) (SegmentGeneric.parent_name s) (Some rt)
                 (SegmentGeneric.translations s) (SegmentGeneric.rotations s) in
  markers <- mapM (fun marker => MarkerGeneric.to_marker marker c3d (Some rt))
                  (SegmentGeneric.markers s) ;;
  Ok (segments ++ [fold_left Segment.add_marker markers segment]).

(** The loop of [generate_personalized] over the keys of [self.segments]. *)
Fixpoint personalize_segments (self : t) (c3d : C3d.t) (names : list string)
    (segments : list Segment.t) : result (list Segment.t) :=
  match names with
  | [] => Ok segments
  | name :: names' =>
      segments <- personalize_segment self c3d segments name ;;
      personalize_segments self c3d names' segments
  end.

(** The [model] of [generate_personalized], before it is written. *)
Definition personalized_chain (self : t) (c3d : C3d.t) : result KinematicChain.t :=
  segments <- personalize_segments self c3d (map fst (segments self)) [] ;;
  Ok (KinematicChain.Build segments).

(** [KinematicModelGeneric.generate_personalized] *)
Definition generate_personalized (ext : externals) (self : t) (c3d : C3d.t)
    (fs : filesystem) (save_path : string) : result unit * filesystem :=
  match personalized_chain self c3d with
  | Ok model => KinematicChain.write ext model fs save_path
  | Raise e => (Raise e, fs)
  end.

End KinematicModelGeneric.

(** ** class SegmentCoordinateSystemReal *)

Module SegmentCoordinateSystemReal.

(** Modelled from the spec: the classes [MarkerReal] and [AxisReal], which
    segment_coordinate_system_real.py imports from marker_real.py and
    axis_real.py; the two files are not part of the sources.  The spec has
    one concrete Marker (a position) and one concrete Axis (a name among X,
    Y, Z, a start and an end marker, and the vector end - start), so the two
    classes are taken to be [Marker] and [Axis] above. *)
Definition MarkerReal : Type := Marker.t.
Definition AxisReal : Type := Axis.t.

(** Modelled from the spec: the column that an [AxisReal.Name] selects in
    [rt[:3, first_axis.name]] ("the rotation columns at their respective
    axis slots"): 0 for X, 1 for Y, 2 for Z. *)
Definition slot (n : Axis.Name) : nat := Axis.value n.

Inductive t : Type :=
| Build (scs : Mat4) (parent_scs : option t) (is_scs_local : bool).

Definition scs (self : t) : Mat4 := let (m, _, _) := self in m.
Definition parent_scs (self : t) : option t := let (_, p, _) := self in p.
Definition is_rt_local (self : t) : bool := let (_, _, l) := self in l.

(** [SegmentCoordinateSystemReal.from_markers] *)
Definition from_markers (origin : MarkerReal) (first_axis second_axis : AxisReal)
    (axis_to_keep : Axis.Name) (parent_scs : option t) : result t :=
  if Axis.Name_eqb (Axis.name first_axis) (Axis.name second_axis)
  then Raise (ValueError "The two axes cannot be the same axis")
  else
    let '(third_axis_name, first_axis, second_axis) := RT.reorder first_axis second_axis in
    first_axis_vector <- Axis.axis first_axis ;;
    second_axis_vector <- Axis.axis second_axis ;;
    let third_axis_vector := cross first_axis_vector second_axis_vector in
    vectors <-
      (if Axis.Name_eqb axis_to_keep (Axis.name first_axis)
       then Ok (first_axis_vector, cross third_axis_vector first_axis_vector)
       else if Axis.Name_eqb axis_to_keep (Axis.name second_axis)
       then Ok (cross second_axis_vector third_axis_vector, second_axis_vector)
       else Raise (ValueError "Name of axis to keep should be one of the two axes")) ;;
    let '(first_axis_vector, second_axis_vector) := vectors in
    let rt := zeros in
    let rt := set_col3 rt (slot (Axis.name first_axis))
                (vdiv first_axis_vector (norm first_axis_vector)) in
    let rt := set_col3 rt (slot (Axis.name second_axis))
                (vdiv second_axis_vector (norm second_axis_vector)) in
    let rt := set_col3 rt (slot third_axis_name)
                (vdiv third_axis_vector (norm third_axis_vector)) in
    let rt := set_col3 rt 3 (Marker.position origin) in
    let rt := set_row3_entry rt 3 1 in
    Ok (Build rt parent_scs false).

(** [SegmentCoordinateSystemReal.copy] *)
Definition copy (self : t) : t := Build (scs self) (parent_scs self) false.

(** [SegmentCoordinateSystemReal.transpose] *)
Definition transpose (self : t) : t :=
  let out := copy self in
  let m := mT (scs out) in
  let m := set_col3 m 3 (vopp (block3_mulv m (row3_of m 3))) in
  let m := clear_row3 m in
  Build m (parent_scs out) (is_rt_local out).

(** [SegmentCoordinateSystemReal.__matmul__] *)
Definition matmul (self : t) (other : Mat4) : Mat4 := mmul (scs self) other.

(** The matrix [rt] of [SegmentCoordinateSystemReal.__str__] *)
Definition str_rt (self : t) : Mat4 :=
  if is_rt_local self then scs self
  else
    match parent_scs self with
    | Some parent => matmul (transpose parent) (scs self)
    | None => identity
    end.

(** [SegmentCoordinateSystemReal.__str__] *)
Definition __str__ (ext : externals) (self : t) : string :=
  RT.str_of_matrix ext (str_rt self).

(** [SegmentCoordinateSystemReal.from_euler_and_translation]; its dict
    [matrix] and its loop are those of [RT.from_euler_and_translation]. *)
Definition from_euler_and_translation (angles : list R) (angle_sequence : string)
    (translations : Vec3) (parent_scs : option t) : result t :=
  let rt := identity in
  rt <- RT.rotate rt (combine angles (list_ascii_of_string angle_sequence)) ;;
  let rt := set_col3 rt 3 translations in
  Ok (Build rt parent_scs true).

(** The same data as an [RT]. *)
Fixpoint to_RT (self : t) : RT.t :=
  match self with
  | Build m p l =>
      RT.Build m (match p with Some p' => Some (to_RT p') | None => None end) l
  end.

End SegmentCoordinateSystemReal.


(** ** The objects behind [transpose]: arrays, views and the two classes

    [RT.transpose] and [SegmentCoordinateSystemReal.transpose] above are
    written on values.  The source works on objects: [copy(self.rt)]
    allocates an array, [out.rt.T] is a view of that array, and the two
    assignments write through the view.  The store below keeps the arrays,
    the RT objects and the SegmentCoordinateSystemReal objects apart, so that
    what [transpose] writes can be told from what it leaves alone. *)
Module Store.

(** An array object of shape (4, 4): the buffer it reads and writes, and
    whether it views it transposed. *)
Record ndarray : Type := Build_ndarray { buffer : nat; transposed : bool }.

(** An RT object; its parent is a reference to another RT object. *)
Record RT_object : Type := Build_RT_object
  { rt : ndarray; parent_rt : option nat; is_rt_local : bool }.

(** A SegmentCoordinateSystemReal object; its parent is a reference to
    another such object. *)
Record SCS_object : Type := Build_SCS_object
  { scs : ndarray; parent_scs : option nat; scs_is_rt_local : bool }.

Record t : Type := Build
  { buffers : list Mat4; objects : list RT_object; scs_objects : list SCS_object }.

(** The entries of an array object. *)
Definition read (s : t) (a : ndarray) : option Mat4 :=
  match nth_error (buffers s) (buffer a) with
  | Some m => Some (if transposed a then mT m else m)
  | None => None
  end.

(** Replace the buffer at [b]. *)
Fixpoint set_buffer (l : list Mat4) (b : nat) (m : Mat4) : list Mat4 :=
  match l, b with
  | [], _ => []
  | _ :: l', O => m :: l'
  | x :: l', S b' => x :: set_buffer l' b' m
  end.

(** [m[i, :3] = v] for the last row *)
Definition set_row3_first3 (m : Mat4) (v : Vec3) : Mat4 :=
  mkMat4 (row0 m) (row1 m) (row2 m) (mkVec4 (vx v) (vy v) (vz v) (e3 (row3 m))).

(** [a[:3, 3] = v] through the array object [a]: on a transposed view the
    column 3 is the row 3 of the buffer. *)
Definition assign_col3 (s : t) (a : ndarray) (v : Vec3) : option t :=
  match nth_error (buffers s) (buffer a) with
  | Some m =>
      let m' := if transposed a then set_row3_first3 m v else set_col3 m 3 v in
      Some (Build (set_buffer (buffers s) (buffer a) m') (objects s) (scs_objects s))
  | None => None
  end.

(** [a[3, :3] = 0] through the array object [a] *)
Definition assign_row3_zero (s : t) (a : ndarray) : option t :=
  match nth_error (buffers s) (buffer a) with
  | Some m =>
      let m' := if transposed a then set_col3 m 3 vzero else clear_row3 m in
      Some (Build (set_buffer (buffers s) (buffer a) m') (objects s) (scs_objects s))
  | None => None
  end.

(** [copy(a)]: a new array with the entries of [a] *)
Definition copy_array (s : t) (a : ndarray) : option (ndarray * t) :=
  match read s a with
  | Some m =>
      Some (Build_ndarray (List.length (buffers s)) false,
            Build (buffers s ++ [m]) (objects s) (scs_objects s))
  | None => None
  end.

(** [RT(rt=a, parent_rt=p)]: a new RT object *)
Definition new_RT (s : t) (a : ndarray) (p : option nat) (l : bool) : nat * t :=
  (List.length (objects s),
   Build (buffers s) (objects s ++ [Build_RT_object a p l]) (scs_objects s)).

(** [SegmentCoordinateSystemReal(scs=a, parent_scs=p)]: a new object *)
Definition new_SCS (s : t) (a : ndarray) (p : option nat) (l : bool) : nat * t :=
  (List.length (scs_objects s),
   Build (buffers s) (objects s) (scs_objects s ++ [Build_SCS_object a p l])).

(** Replace the object at [o]. *)
Fixpoint set_object {A : Type} (l : list A) (o : nat) (x : A) : list A :=
  match l, o with
  | [], _ => []
  | _ :: l', O => x :: l'
  | y :: l', S o' => y :: set_object l' o' x
  end.

(** [o.rt = a] *)
Definition setattr_rt (s : t) (o : nat) (a : ndarray) : option t :=
  match nth_error (objects s) o with
  | Some x =>
      Some (Build (buffers s)
                  (set_object (objects s) o (Build_RT_object a (parent_rt x) (is_rt_local x)))
                  (scs_objects s))
  | None => None
  end.

(** [o.scs = a] *)
Definition setattr_scs (s : t) (o : nat) (a : ndarray) : option t :=
  match nth_error (scs_objects s) o with
  | Some x =>
      Some (Build (buffers s) (objects s)
                  (set_object (scs_objects s) o
                     (Build_SCS_object a (parent_scs x) (scs_is_rt_local x))))
  | None => None
  end.

Definition obind {A B : Type} (c : option A) (f : A -> option B) : option B :=
  match c with Some a => f a | None => None end.

(** [RT.copy] on the object [self] *)
Definition copy (s : t) (self : nat) : option (nat * t) :=
  obind (nth_error (objects s) self) (fun x =>
  obind (copy_array s (rt x)) (fun '(a, s) =>
  Some (new_RT s a (parent_rt x) false))).

(** [RT.transpose] on the object [self], statement by statement *)
Definition transpose (s : t) (self : nat) : option (nat * t) :=
  (* out = self.copy() *)
  obind (copy s self) (fun '(out, s) =>
  (* out.rt = out.rt.T *)
  obind (nth_error (objects s) out) (fun x =>
  let view := Build_ndarray (buffer (rt x)) (negb (transposed (rt x))) in
  obind (setattr_rt s out view) (fun s =>
  (* out.rt[:3, 3] = -out.rt[:3, :3] @ out.rt[3, :3] *)
  obind (read s view) (fun m =>
  obind (assign_col3 s view (vopp (block3_mulv m (row3_of m 3)))) (fun s =>
  (* out.rt[3, :3] = 0 *)
  obind (assign_row3_zero s view) (fun s =>
  Some (out, s))))))).

(** [SegmentCoordinateSystemReal.copy] on the object [self] *)
Definition scs_copy (s : t) (self : nat) : option (nat * t) :=
  obind (nth_error (scs_objects s) self) (fun x =>
  obind (copy_array s (scs x)) (fun '(a, s) =>
  Some (new_SCS s a (parent_scs x) false))).

(** [SegmentCoordinateSystemReal.transpose] on the object [self], statement
    by statement *)
Definition scs_transpose (s : t) (self : nat) : option (nat * t) :=
  (* out = self.copy() *)
  obind (scs_copy s self) (fun '(out, s) =>
  (* out.scs = out.scs.T *)
  obind (nth_error (scs_objects s) out) (fun x =>
  let view := Build_ndarray (buffer (scs x)) (negb (transposed (scs x))) in
  obind (setattr_scs s out view) (fun s =>
  (* out.scs[:3, 3] = -out.scs[:3, :3] @ out.scs[3, :3] *)
  obind (read s view) (fun m =>
  obind (assign_col3 s view (vopp (block3_mulv m (row3_of m 3)))) (fun s =>
  (* out.scs[3, :3] = 0 *)
  obind (assign_row3_zero s view) (fun s =>
  Some (out, s))))))).

End Store.

(** ** [Marker.__add__] and [Marker.__sub__] *)

(** What [other] can be: a tuple or an array of three numbers, a Marker, or
    an object of another type (given by [str(type(other))]). *)
Inductive operand : Type :=
| a_tuple (v : Vec3)
| an_ndarray (v : Vec3)
| a_Marker (m : Marker.t)
| another (type_name : string).

(** [NotImplementedError], with its message. *)
Inductive not_implemented : Type :=
| NotImplementedError (msg : string).

(** [Marker(name=..., parent_name=..., position=...)]: the flags take the
    defaults of [__init__]. *)
Definition Marker_init (name parent_name : string) (position : Vec3) : Marker.t :=
  Marker.Build name parent_name position true false.

(** [Marker.__add__] *)
Definition Marker_add (self : Marker.t) (other : operand) : Marker.t + not_implemented :=
  let other := match other with a_tuple v => an_ndarray v | _ => other end in
  match other with
  | a_tuple v | an_ndarray v =>
      inl (Marker_init (Marker.name self) (Marker.parent_name self)
                       (vadd (Marker.position self) v))
  | a_Marker m =>
      inl (Marker_init (Marker.name self) (Marker.parent_name self)
                       (vadd (Marker.position self) (Marker.position m)))
  | another type_name =>
      inr (NotImplementedError ("The addition for " ++ type_name ++ " is not implemented"))
  end.

(** [Marker.__sub__] *)
Definition Marker_sub (self : Marker.t) (other : operand) : Marker.t + not_implemented :=
  let other := match other with a_tuple v => an_ndarray v | _ => other end in
  match other with
  | a_tuple v | an_ndarray v =>
      inl (Marker_init (Marker.name self) (Marker.parent_name self)
                       (vsub (Marker.position self) v))
  | a_Marker m =>
      inl (Marker_init (Marker.name self) (Marker.parent_name self)
                       (vsub (Marker.position self) (Marker.position m)))
  | another type_name =>
      inr (NotImplementedError ("The subtraction for " ++ type_name ++ " is not implemented"))
  end.
(** * Vocabulary of the statements *)

(** The value of [Axis.axis]: end minus start. *)
Definition axis_vector (a : Axis.t) : Vec3 :=
  vsub (Marker.position (Axis.end_point a)) (Marker.position (Axis.start_point a)).

(** Two vectors are parallel when their cross product vanishes. *)
Definition parallel (u v : Vec3) : Prop := cross u v = vzero.

(** The columns of the rotation block [m[:3, :3]]. *)
Definition unit_columns (m : Mat4) : Prop :=
  norm (col3 m 0) = 1 /\ norm (col3 m 1) = 1 /\ norm (col3 m 2) = 1.

Definition orthogonal_columns (m : Mat4) : Prop :=
  dot (col3 m 0) (col3 m 1) = 0 /\ dot (col3 m 0) (col3 m 2) = 0 /\
  dot (col3 m 1) (col3 m 2) = 0.

Definition right_handed (m : Mat4) : Prop :=
  col3 m 2 = cross (col3 m 0) (col3 m 1).

(** The bottom row of a homogeneous transform. *)
Definition homogeneous (m : Mat4) : Prop := row3 m = mkVec4 0 0 0 1.

(** The cyclic order X, Y, Z, X. *)
Definition next_name (n : Axis.Name) : Axis.Name :=
  match n with Axis.X => Axis.Y | Axis.Y => Axis.Z | Axis.Z => Axis.X end.

(** The name that is neither [a] nor [b], for two distinct names. *)
Definition third_name (a b : Axis.Name) : Axis.Name :=
  match a, b with
  | Axis.X, Axis.Y | Axis.Y, Axis.X => Axis.Z
  | Axis.Y, Axis.Z | Axis.Z, Axis.Y => Axis.X
  | _, _ => Axis.Y
  end.

(** The vector supplied for the axis called [n], of two axes. *)
Definition supplied_vector (first second : Axis.t) (n : Axis.Name) : Vec3 :=
  if Axis.Name_eqb n (Axis.name first) then axis_vector first else axis_vector second.

(** The other of the two supplied names. *)
Definition other_name (first second : Axis.t) (n : Axis.Name) : Axis.Name :=
  if Axis.Name_eqb n (Axis.name first) then Axis.name second else Axis.name first.

(** A right-handed orthonormal triple. *)
Definition orthonormal_triple (a b c : Vec3) : Prop :=
  norm a = 1 /\ norm b = 1 /\ norm c = 1 /\
  dot a b = 0 /\ dot a c = 0 /\ dot b c = 0 /\
  c = cross a b /\ a = cross b c /\ b = cross c a.

(** What C5 says of the matrix built from an origin and two axes: the
    rotation block has unit, mutually orthogonal columns and is
    right-handed, the column of the third axis is the normalised cross
    product of the two others taken in cyclic order (of the two columns, and
    of the two supplied vectors), the fourth column is the origin over 1 and
    the last row is (0, 0, 0, 1). *)
Definition right_handed_frame (origin : Marker.t) (first second : Axis.t) (m : Mat4) : Prop :=
  let t := third_name (Axis.name first) (Axis.name second) in
  unit_columns m /\ orthogonal_columns m /\ right_handed m /\
  col3 m (Axis.value t)
  = normalize (cross (col3 m (Axis.value (next_name t)))
                     (col3 m (Axis.value (next_name (next_name t))))) /\
  col3 m (Axis.value t)
  = normalize (cross (supplied_vector first second (next_name t))
                     (supplied_vector first second (next_name (next_name t)))) /\
  mcol m 3 = mkVec4 (vx (Marker.position origin)) (vy (Marker.position origin))
                    (vz (Marker.position origin)) 1 /\
  homogeneous m.

(** The third axis vector of [from_markers], before normalisation: the
    cross product of the two supplied vectors in cyclic order. *)
Definition derived_third_vector (first second : Axis.t) : Vec3 :=
  let t := third_name (Axis.name first) (Axis.name second) in
  cross (supplied_vector first second (next_name t))
        (supplied_vector first second (next_name (next_name t))).

(** Some axis vector of [from_markers] (one of the two supplied, or the
    derived third one) is shorter than [eps]. *)
Definition degenerate (first second : Axis.t) (eps : R) : Prop :=
  norm (axis_vector first) < eps \/ norm (axis_vector second) < eps \/
  norm (derived_third_vector first second) < eps.

(** Concrete markers and axes for the examples. *)
Definition marker_at (x y z : R) : Marker.t :=
  Marker.Build EmptyString EmptyString (mkVec3 x y z) true false.

Definition axis_to (n : Axis.Name) (x y z : R) : Axis.t :=
  Axis.Build n (marker_at 0 0 0) (marker_at x y z).

(** The translation by (x, y, z), as a homogeneous transform. *)
Definition translation (x y z : R) : Mat4 :=
  mkMat4 (mkVec4 1 0 0 x) (mkVec4 0 1 0 y) (mkVec4 0 0 1 z) (mkVec4 0 0 0 1).

(** The rotation block of [m'] is the transpose of the rotation block of
    [m], and its translation is minus that block applied to the translation
    of [m]. *)
Definition inverse_blocks (m m' : Mat4) : Prop :=
  (forall i j : nat, (i < 3)%nat -> (j < 3)%nat -> mget m' i j = mget m j i) /\
  col3 m' 3 = vopp (mkVec3 (dot (col3 m 0) (col3 m 3)) (dot (col3 m 1) (col3 m 3))
                           (dot (col3 m 2) (col3 m 3))).

(** The keys of the DeLeva table. *)
Definition sexes : list string := ["male"; "female"]%string.

Definition tabulated_segments : list string :=
  ["HEAD"; "TRUNK"; "UPPER_ARM"; "LOWER_ARM"; "HAND"; "THIGH"; "SHANK"; "FOOT"]%string.

(** The rest-pose position of the marker called [name] in the model, as
    [segment_length] looks it up. *)
Definition rest_position (model : Model.t) (name : string) : result Vec3 :=
  i <- index (Model.markerNames model) name ;;
  getitem (Model.markers model (repeat 0 (Model.nbQ model))) i.

(** The names requested of the trial, as a tuple. *)
Definition requested (from_markers : str_or_tuple) : list string :=
  match from_markers with
  | Str s => [s]
  | Tuple l => l
  end.

(** The marker at column [i] of the trial is NaN at frame [f]; it has a
    sample at frame [f]. *)
Definition missing_at (c3d : C3d.t) (i f : nat) : Prop :=
  C3d.points c3d 0 i f = nan /\ C3d.points c3d 1 i f = nan /\ C3d.points c3d 2 i f = nan.

Definition seen_at (c3d : C3d.t) (i f : nat) : Prop :=
  exists x y z,
    C3d.points c3d 0 i f = num x /\ C3d.points c3d 1 i f = num y /\
    C3d.points c3d 2 i f = num z.

(** Coordinate [r] of the marker at column [i]: its samples over the frames
    of the trial, and their mean. *)
Definition samples (c3d : C3d.t) (r i : nat) : list R :=
  values (map (fun f => C3d.points c3d r i f) (seq 0 (C3d.nb_frames c3d))).

Definition marker_mean (c3d : C3d.t) (r i : nat) : R :=
  Rsum (samples c3d r i) / INR (List.length (samples c3d r i)).

(** Coordinate [r] of the mean over the markers at the columns [index]. *)
Definition mean_position (c3d : C3d.t) (index : list nat) (r : nat) : R :=
  Rsum (map (marker_mean c3d r) index) / INR (List.length index).

(** The divisor that makes meters: 1000 for a trial in millimeters. *)
Definition unit_factor (c3d : C3d.t) : R :=
  match C3d.UNITS c3d with
  | u :: _ => if String.eqb u "mm" then 1000 else 1
  | [] => 1
  end.

(** The mean position in meters, in the global frame, over 1. *)
Definition global_position (c3d : C3d.t) (index : list nat) : Vec4 :=
  mkVec4 (mean_position c3d index 0 / unit_factor c3d)
         (mean_position c3d index 1 / unit_factor c3d)
         (mean_position c3d index 2 / unit_factor c3d) 1.

(** The message of the error for markers that are not in the trial. *)
Definition markers_not_present (names : list string) : exception :=
  RuntimeError ("The markers " ++ repr_tuple names ++ " are not present in the c3d").

(** A trial with one label, in millimeters, over two frames: the marker is
    not seen at the first frame and is at (1000, 1000, 1000) at the second. *)
Definition example_trial : C3d.t :=
  C3d.Build ["A"%string] ["mm"%string] 1 2
            (fun _ _ f => match f with O => nan | _ => num 1000 end).

(** The same labels, with no sample at any frame. *)
Definition example_empty_trial : C3d.t :=
  C3d.Build ["A"%string] ["mm"%string] 1 2 (fun _ _ _ => nan).

(** ** Vocabulary for the assembly of the chain *)

(** The invariant of [self.segments] that the methods of
    [KinematicModelGeneric] maintain: a dict has each key once, and
    [add_segment] files each segment under its name. *)
Definition wf_model (g : KinematicModelGeneric.t) : Prop :=
  NoDup (map fst (KinematicModelGeneric.segments g)) /\
  Forall (fun e => SegmentGeneric.name (snd e) = fst e) (KinematicModelGeneric.segments g).

(** The names of the segments of a list of entries, in order. *)
Definition declared (entries : list (string * SegmentGeneric.t)) : list string :=
  map (fun e => SegmentGeneric.name (snd e)) entries.

(** Some segment has a parent name that is not empty and is not the name of
    a segment declared before it. *)
Definition unknown_parent (entries : list (string * SegmentGeneric.t)) : Prop :=
  exists l1 k s l2,
    entries = l1 ++ (k, s) :: l2 /\
    SegmentGeneric.parent_name s <> EmptyString /\
    ~ In (SegmentGeneric.parent_name s) (declared l1).

(** Every parent name that is not empty is the name of a segment declared
    before. *)
Definition parents_precede (entries : list (string * SegmentGeneric.t)) : Prop :=
  forall l1 k s l2,
    entries = l1 ++ (k, s) :: l2 ->
    SegmentGeneric.parent_name s = EmptyString \/
    In (SegmentGeneric.parent_name s) (declared l1).

(** The first parent name of the entries that is not empty and not among
    [earlier] and the names declared before it. *)
Fixpoint first_unknown_parent (earlier : list string)
    (entries : list (string * SegmentGeneric.t)) : option string :=
  match entries with
  | [] => None
  | (_, s) :: entries' =>
      if Segment.truthy (SegmentGeneric.parent_name s)
         && negb (existsb (String.eqb (SegmentGeneric.parent_name s)) earlier)
      then Some (SegmentGeneric.parent_name s)
      else first_unknown_parent (earlier ++ [SegmentGeneric.name s]) entries'
  end.

(** The frame recipe and the markers of a segment resolve against the
    trial. *)
Definition marker_binds (c3d : C3d.t) (m : MarkerGeneric.t) : Prop :=
  is_ok (MarkerGeneric.to_marker m c3d None) = true.

Definition rt_binds (c3d : C3d.t) (r : RTGeneric.t) : Prop :=
  is_ok (RTGeneric.to_rt r c3d None) = true.

Definition segment_binds (c3d : C3d.t) (s : SegmentGeneric.t) : Prop :=
  match SegmentGeneric.rt s with
  | Some r => rt_binds c3d r
  | None => True
  end /\
  Forall (marker_binds c3d) (SegmentGeneric.markers s).

(** The body of the loop of [generate_personalized] once [self.segments[name]]
    is read: [personalize_segment] is the lookup followed by this. *)
Definition personalize_generic (c3d : C3d.t) (segments : list Segment.t)
    (s : SegmentGeneric.t) : result (list Segment.t) :=
  parent_index <-
    (if Segment.truthy (SegmentGeneric.parent_name s)
     then
       i <- index (map Segment.name segments) (SegmentGeneric.parent_name s) ;;
       Ok (Some i)
     else Ok None) ;;
  rt <-
    match SegmentGeneric.rt s with
    | None => Ok RT.default
    | Some generic =>
        parent_rt <-
          match parent_index with
          | Some parent_index =>
              parent <- getitem segments parent_index ;;
              Ok (Segment.rt parent)
          | None => Ok None
          end ;;
        RTGeneric.to_rt generic c3d parent_rt
    end ;;
  let segment :=
    Segment.init (SegmentGeneric.name s) (SegmentGeneric.parent_name s) (Some rt)
                 (SegmentGeneric.translations s) (SegmentGeneric.rotations s) in
  markers <- mapM (fun marker => MarkerGeneric.to_marker marker c3d (Some rt))
                  (SegmentGeneric.markers s) ;;
  Ok (segments ++ [fold_left Segment.add_marker markers segment]).

(** The loop over the entries of the dict rather than over its keys. *)
Fixpoint personalize_entries (c3d : C3d.t) (entries : list (string * SegmentGeneric.t))
    (segments : list Segment.t) : result (list Segment.t) :=
  match entries with
  | [] => Ok segments
  | (_, s) :: entries' =>
      segments <- personalize_generic c3d segments s ;;
      personalize_entries c3d entries' segments
  end.

(** A model of one root segment with one marker, "A". *)
Definition example_root : KinematicModelGeneric.t :=
  KinematicModelGeneric.Build
    [("ROOT"%string,
      SegmentGeneric.Build "ROOT" EmptyString EmptyString EmptyString
        [MarkerGeneric.Build "A" (Str "A") "ROOT" true false] None)].

(** The same root, and a child whose parent "PELVIS" is declared nowhere. *)
Definition example_orphan : KinematicModelGeneric.t :=
  KinematicModelGeneric.Build
    [("ROOT"%string,
      SegmentGeneric.Build "ROOT" EmptyString EmptyString EmptyString
        [MarkerGeneric.Build "A" (Str "A") "ROOT" true false] None);
     ("THIGH"%string,
      SegmentGeneric.Build "THIGH" "PELVIS" EmptyString EmptyString [] None)].

(** A root and its child, declared child first, and parent first. *)
Definition example_child_first : KinematicModelGeneric.t :=
  KinematicModelGeneric.Build
    [("THIGH"%string,
      SegmentGeneric.Build "THIGH" "PELVIS" EmptyString EmptyString [] None);
     ("PELVIS"%string,
      SegmentGeneric.Build "PELVIS" EmptyString EmptyString EmptyString
        [MarkerGeneric.Build "A" (Str "A") "PELVIS" true false] None)].

Definition example_parent_first : KinematicModelGeneric.t :=
  KinematicModelGeneric.Build
    [("PELVIS"%string,
      SegmentGeneric.Build "PELVIS" EmptyString EmptyString EmptyString
        [MarkerGeneric.Build "A" (Str "A") "PELVIS" true false] None);
     ("THIGH"%string,
      SegmentGeneric.Build "THIGH" "PELVIS" EmptyString EmptyString [] None)].

(** A root, and a child whose parent name, which holds an apostrophe, is
    declared nowhere. *)
Definition example_quoted_parent : KinematicModelGeneric.t :=
  KinematicModelGeneric.Build
    [("ROOT"%string,
      SegmentGeneric.Build "ROOT" EmptyString EmptyString EmptyString [] None);
     ("THIGH"%string,
      SegmentGeneric.Build "THIGH" "O'B" EmptyString EmptyString [] None)].

(** Externals and a file system for the examples. *)
Definition example_externals : externals :=
  Build_externals (fun _ => "0.000"%string) (fun _ => "0.0000"%string)
                  (fun _ => "0"%string) (fun _ _ => 0) (fun _ => 0).

Definition empty_filesystem : filesystem :=
  Build_filesystem (fun _ => None) (fun _ => true).

(** ** Vocabulary of the further properties *)

(** A rigid transform: orthonormal rotation columns and last row
    (0, 0, 0, 1). *)
Definition rigid (m : Mat4) : Prop :=
  unit_columns m /\ orthogonal_columns m /\ homogeneous m.

(** A position over 1, as [Marker.from_data] multiplies it. *)
Definition over_one (v : Vec3) : Vec4 := mkVec4 (vx v) (vy v) (vz v) 1.

(** The letters of an angle sequence that [from_euler_and_translation]
    knows. *)
Definition xyz (c : ascii) : Prop := c = "x"%char \/ c = "y"%char \/ c = "z"%char.

(** The pairs that the loop of [from_euler_and_translation] visits:
    [zip(angles, angle_sequence)]. *)
Definition zipped (angles : list R) (angle_sequence : string) : list (R * ascii) :=
  combine angles (list_ascii_of_string angle_sequence).

(** The same trial with other units. *)
Definition with_units (c3d : C3d.t) (units : list string) : C3d.t :=
  C3d.Build (C3d.LABELS c3d) units (C3d.nb_points c3d) (C3d.nb_frames c3d)
            (C3d.points c3d).

(** The first unit of the trial is not "mm" (or there is no unit). *)
Definition not_millimeters (units : list string) : Prop :=
  match units with
  | u :: _ => u <> "mm"%string
  | [] => True
  end.

(** A trial in meters with two markers over one frame: "A" at (0, 0, 0) and
    "B" at (1, 1, 1). *)
Definition example_two_markers : C3d.t :=
  C3d.Build ["A"%string; "B"%string] ["m"%string] 2 1
            (fun _ i _ => match i with O => num 0 | _ => num 1 end).

(** The error of the first computation of a list that raises. *)
Fixpoint first_raise {A : Type} (l : list (result A)) : option exception :=
  match l with
  | [] => None
  | Ok _ :: l' => first_raise l'
  | Raise e :: _ => Some e
  end.

(** The five markers of a frame recipe, in the order the code resolves
    them: the origin, then the start and the end of each axis. *)
Definition recipe_markers (r : RTGeneric.t) : list MarkerGeneric.t :=
  [RTGeneric.origin r;
   AxisGeneric.start_point (fst (fst (RTGeneric.axes r)));
   AxisGeneric.end_point (fst (fst (RTGeneric.axes r)));
   AxisGeneric.start_point (snd (fst (RTGeneric.axes r)));
   AxisGeneric.end_point (snd (fst (RTGeneric.axes r)))].

(** The names of the two axes of a recipe, and the name to keep. *)
Definition first_name (r : RTGeneric.t) : Axis.Name :=
  AxisGeneric.name (fst (fst (RTGeneric.axes r))).

Definition second_name (r : RTGeneric.t) : Axis.Name :=
  AxisGeneric.name (snd (fst (RTGeneric.axes r))).

Definition name_to_keep (r : RTGeneric.t) : Axis.Name := snd (RTGeneric.axes r).

(** A recipe on the one label of [example_trial], for the statements about
    names: every marker of it resolves. *)
Definition example_recipe (first second keep : Axis.Name) : RTGeneric.t :=
  let generic := MarkerGeneric.Build EmptyString (Str "A") EmptyString true false in
  RTGeneric.Build generic
    (AxisGeneric.Build first generic generic, AxisGeneric.Build second generic generic, keep).

(** A trial in meters with three markers over one frame: "O" at (1, 2, 3),
    "P" at (2, 2, 3) and "Q" at (1, 3, 3). *)
Definition example_frame_trial : C3d.t :=
  C3d.Build ["O"%string; "P"%string; "Q"%string] ["m"%string] 3 1
            (fun r i _ =>
               match i, r with
               | 0%nat, 0%nat => num 1 | 0%nat, 1%nat => num 2 | 0%nat, _ => num 3
               | 1%nat, 0%nat => num 2 | 1%nat, 1%nat => num 2 | 1%nat, _ => num 3
               | _, 0%nat => num 1 | _, 1%nat => num 3 | _, _ => num 3
               end).

(** The recipe of a frame at "O" with X towards "P" and Y towards "Q",
    keeping X. *)
Definition example_frame_recipe : RTGeneric.t :=
  let generic (label : string) :=
    MarkerGeneric.Build EmptyString (Str label) EmptyString true false in
  RTGeneric.Build (generic "O"%string)
    (AxisGeneric.Build Axis.X (generic "O"%string) (generic "P"%string),
     AxisGeneric.Build Axis.Y (generic "O"%string) (generic "Q"%string), Axis.X).

(** The marker [add_marker] files under a segment. *)
Definition declared_marker (segment name : string) (from_markers : option str_or_tuple)
    (is_technical is_anatomical : bool) : MarkerGeneric.t :=
  MarkerGeneric.Build name
    match from_markers with
    | None => Str name
    | Some from_markers => from_markers
    end
    segment is_technical is_anatomical.

(** The frame of the parent that a turn of the loop of
    [generate_personalized] hands to [to_rt]: none for a segment without
    parent name, else the frame of the first segment built so far that has
    the parent name. *)
Definition parent_frame (built : list Segment.t) (s : SegmentGeneric.t)
    (frame : option RT.t) : Prop :=
  if Segment.truthy (SegmentGeneric.parent_name s)
  then
    exists i parent,
      index (map Segment.name built) (SegmentGeneric.parent_name s) = Ok i /\
      nth_error built i = Some parent /\
      Segment.name parent = SegmentGeneric.parent_name s /\
      frame = Segment.rt parent
  else frame = None.

(** What a segment of the chain is, given the generic segment it comes
    from and the segments built before it. *)
Definition personalized (c3d : C3d.t) (built : list Segment.t) (s : SegmentGeneric.t)
    (segment : Segment.t) : Prop :=
  Segment.name segment = SegmentGeneric.name s /\
  Segment.parent_name segment = SegmentGeneric.parent_name s /\
  Segment.translations segment = SegmentGeneric.translations s /\
  Segment.rotations segment = SegmentGeneric.rotations s /\
  Segment.mass segment = 0 /\
  Segment.center_of_mass segment = (0, 0, 0) /\
  Segment.inertia_xxyyzz segment = (0, 0, 0) /\
  Segment.mesh segment = None /\
  exists rt,
    Segment.rt segment = Some rt /\
    match SegmentGeneric.rt s with
    | None => rt = RT.default
    | Some recipe =>
        exists frame, parent_frame built s frame /\ RTGeneric.to_rt recipe c3d frame = Ok rt
    end /\
    mapM (fun marker => MarkerGeneric.to_marker marker c3d (Some rt))
         (SegmentGeneric.markers s)
    = Ok (Segment.markers segment).

(** A model at rest with the two markers of the thigh one unit apart. *)
Definition example_thigh_model : Model.t :=
  Model.Build 0 ["PELVIS"; "KNEE"]%string (fun _ => [mkVec3 0 0 0; mkVec3 0 0 1]).






(** * Properties *)

(** ** Results *)

Lemma bind_ok {A B : Type} (c : result A) (f : A -> result B) (b : B) :
  bind c f = Ok b -> exists a, c = Ok a /\ f a = Ok b.
Proof.
  destruct c as [a | e]; simpl; intros H.
  - exists a; split; [reflexivity | exact H].
  - discriminate H.
Qed.

Lemma bind_raise {A B : Type} (c : result A) (f : A -> result B) (e : exception) :
  bind c f = Raise e -> c = Raise e \/ exists a, c = Ok a /\ f a = Raise e.
Proof.
  destruct c as [a | e']; simpl; intros H.
  - right; exists a; split; [reflexivity | exact H].
  - left; injection H as ->; reflexivity.
Qed.

(** ** Vectors *)

Lemma Vec3_eq (a b : Vec3) :
  vx a = vx b -> vy a = vy b -> vz a = vz b -> a = b.
Proof. destruct a, b; simpl; intros; subst; reflexivity. Qed.

Lemma dot_comm (a b : Vec3) : dot a b = dot b a.
Proof. unfold dot; ring. Qed.

Lemma dot_self_nonneg (a : Vec3) : 0 <= dot a a.
Proof. unfold dot; nra. Qed.

Lemma dot_self_zero (a : Vec3) : dot a a = 0 -> a = vzero.
Proof.
  unfold dot; intros H.
  apply Vec3_eq; simpl; nra.
Qed.

Lemma norm_nonneg (a : Vec3) : 0 <= norm a.
Proof. apply sqrt_pos. Qed.

Lemma norm_norm (a : Vec3) : norm a * norm a = dot a a.
Proof. apply sqrt_sqrt, dot_self_nonneg. Qed.

Lemma norm_zero_iff (a : Vec3) : norm a = 0 <-> a = vzero.
Proof.
  split; intros H.
  - apply dot_self_zero. rewrite <- norm_norm, H. ring.
  - subst a. unfold norm, dot; simpl.
    replace (0 * 0 + 0 * 0 + 0 * 0) with 0 by ring. apply sqrt_0.
Qed.

Lemma norm_nonzero (a : Vec3) : a <> vzero -> norm a <> 0.
Proof. intros H E; apply H, norm_zero_iff, E. Qed.

Lemma norm_of_dot_one (a : Vec3) : dot a a = 1 -> norm a = 1.
Proof. intros H; unfold norm; rewrite H; apply sqrt_1. Qed.

Lemma dot_vdiv (a b : Vec3) (k m : R) :
  k <> 0 -> m <> 0 -> dot (vdiv a k) (vdiv b m) = dot a b / (k * m).
Proof. intros; unfold dot, vdiv; simpl; field; auto. Qed.

Lemma cross_vdiv (a b : Vec3) (k m : R) :
  k <> 0 -> m <> 0 -> cross (vdiv a k) (vdiv b m) = vdiv (cross a b) (k * m).
Proof. intros; apply Vec3_eq; unfold cross, vdiv; simpl; field; auto. Qed.

Lemma dot_cross_left (a b : Vec3) : dot a (cross a b) = 0.
Proof. unfold dot, cross; simpl; ring. Qed.

Lemma dot_cross_right (a b : Vec3) : dot b (cross a b) = 0.
Proof. unfold dot, cross; simpl; ring. Qed.

(** Lagrange's identity *)
Lemma dot_cross_cross (a b : Vec3) :
  dot (cross a b) (cross a b) = dot a a * dot b b - dot a b * dot a b.
Proof. unfold dot, cross; simpl; ring. Qed.

Lemma norm_cross_orthogonal (a b : Vec3) :
  dot a b = 0 -> norm (cross a b) = norm a * norm b.
Proof.
  intros H. unfold norm. rewrite dot_cross_cross, H.
  replace (dot a a * dot b b - 0 * 0) with (dot a a * dot b b) by ring.
  apply sqrt_mult; apply dot_self_nonneg.
Qed.

Lemma cross_zero_left (b : Vec3) : cross vzero b = vzero.
Proof. apply Vec3_eq; unfold cross, vzero; simpl; ring. Qed.

Lemma cross_zero_right (a : Vec3) : cross a vzero = vzero.
Proof. apply Vec3_eq; unfold cross, vzero; simpl; ring. Qed.

(** a x ((a x b) x a) ... the two double products of [from_markers] *)
Lemma cross_recomputed_second (a b : Vec3) :
  cross a (cross (cross a b) a) = vscale (dot a a) (cross a b).
Proof. apply Vec3_eq; unfold cross, vscale, dot; simpl; ring. Qed.

Lemma cross_recomputed_first (a b : Vec3) :
  cross (cross b (cross a b)) b = vscale (dot b b) (cross a b).
Proof. apply Vec3_eq; unfold cross, vscale, dot; simpl; ring. Qed.

Lemma norm_normalize (a : Vec3) : a <> vzero -> norm (normalize a) = 1.
Proof.
  intros H. pose proof (norm_nonzero a H) as Hn.
  apply norm_of_dot_one. unfold normalize.
  rewrite dot_vdiv by assumption.
  rewrite <- norm_norm. field; assumption.
Qed.

Lemma vdiv_vscale_cancel (a : Vec3) (d n m k : R) :
  n <> 0 -> m <> 0 -> n * n = d -> k = n * n * m ->
  vdiv (vscale d a) k = vdiv a m.
Proof.
  intros Hn Hm Hd Hk; subst d k.
  apply Vec3_eq; unfold vdiv, vscale; simpl; field; auto.
Qed.

Lemma vdiv_one (a : Vec3) : vdiv a 1 = a.
Proof. destruct a; unfold vdiv; simpl; f_equal; field. Qed.

Lemma normalize_unit (a : Vec3) : norm a = 1 -> normalize a = a.
Proof. intros H; unfold normalize; rewrite H; apply vdiv_one. Qed.

Lemma cross_nonzero_left (a b : Vec3) : cross a b <> vzero -> a <> vzero.
Proof. intros H E; apply H; subst a; apply cross_zero_left. Qed.

Lemma cross_nonzero_right (a b : Vec3) : cross a b <> vzero -> b <> vzero.
Proof. intros H E; apply H; subst b; apply cross_zero_right. Qed.

Lemma cross_cross_right (a b c : Vec3) :
  cross a (cross b c) = vsub (vscale (dot a c) b) (vscale (dot a b) c).
Proof. apply Vec3_eq; unfold cross, vsub, vscale, dot; simpl; ring. Qed.

Lemma cross_cross_left (a b c : Vec3) :
  cross (cross a b) c = vsub (vscale (dot a c) b) (vscale (dot b c) a).
Proof. apply Vec3_eq; unfold cross, vsub, vscale, dot; simpl; ring. Qed.

Lemma vsub_scale_one_zero (a b : Vec3) : vsub (vscale 1 a) (vscale 0 b) = a.
Proof. apply Vec3_eq; unfold vsub, vscale; simpl; ring. Qed.

(** A unit vector, a unit vector orthogonal to it and their cross product. *)
Lemma orthonormal_triple_of_pair (a b : Vec3) :
  norm a = 1 -> norm b = 1 -> dot a b = 0 -> orthonormal_triple a b (cross a b).
Proof.
  intros Ha Hb Hab.
  assert (Haa : dot a a = 1) by (rewrite <- norm_norm, Ha; ring).
  assert (Hbb : dot b b = 1) by (rewrite <- norm_norm, Hb; ring).
  assert (Hba : dot b a = 0) by (rewrite dot_comm; exact Hab).
  unfold orthonormal_triple.
  repeat split; try assumption.
  - rewrite norm_cross_orthogonal by assumption. rewrite Ha, Hb; ring.
  - apply dot_cross_left.
  - apply dot_cross_right.
  - rewrite cross_cross_right, Hbb, Hba. symmetry; apply vsub_scale_one_zero.
  - rewrite cross_cross_left, Haa, Hba. symmetry; apply vsub_scale_one_zero.
Qed.

Lemma zero_div (k : R) : 0 / k = 0.
Proof. unfold Rdiv; ring. Qed.

(** The three columns of [from_markers] when the first axis (in
    right-handed order) is kept... *)
Lemma frame_keep_first (v1 v2 : Vec3) :
  cross v1 v2 <> vzero ->
  orthonormal_triple (normalize v1) (normalize (cross (cross v1 v2) v1))
                     (normalize (cross v1 v2)).
Proof.
  intros H3.
  pose proof (norm_nonzero _ H3) as Hn3.
  pose proof (norm_nonzero _ (cross_nonzero_left _ _ H3)) as Hn1.
  assert (Hn : norm (cross (cross v1 v2) v1) = norm (cross v1 v2) * norm v1).
  { apply norm_cross_orthogonal. rewrite dot_comm. apply dot_cross_left. }
  assert (Hw : cross (cross v1 v2) v1 <> vzero).
  { intros E. apply norm_zero_iff in E. rewrite Hn in E.
    apply Rmult_integral in E. tauto. }
  assert (E : cross (normalize v1) (normalize (cross (cross v1 v2) v1))
              = normalize (cross v1 v2)).
  { unfold normalize. rewrite cross_vdiv by (try assumption; apply norm_nonzero, Hw).
    rewrite cross_recomputed_second.
    apply vdiv_vscale_cancel with (n := norm v1); try assumption.
    - apply norm_norm.
    - rewrite Hn; ring. }
  rewrite <- E.
  apply orthonormal_triple_of_pair.
  - apply norm_normalize, (cross_nonzero_left _ _ H3).
  - apply norm_normalize, Hw.
  - unfold normalize. rewrite dot_vdiv by (try assumption; apply norm_nonzero, Hw).
    rewrite dot_cross_right. apply zero_div.
Qed.

(** ... and when the second one is. *)
Lemma frame_keep_second (v1 v2 : Vec3) :
  cross v1 v2 <> vzero ->
  orthonormal_triple (normalize (cross v2 (cross v1 v2))) (normalize v2)
                     (normalize (cross v1 v2)).
Proof.
  intros H3.
  pose proof (norm_nonzero _ H3) as Hn3.
  pose proof (norm_nonzero _ (cross_nonzero_right _ _ H3)) as Hn2.
  assert (Hn : norm (cross v2 (cross v1 v2)) = norm v2 * norm (cross v1 v2)).
  { apply norm_cross_orthogonal. apply dot_cross_right. }
  assert (Hw : cross v2 (cross v1 v2) <> vzero).
  { intros E. apply norm_zero_iff in E. rewrite Hn in E.
    apply Rmult_integral in E. tauto. }
  assert (E : cross (normalize (cross v2 (cross v1 v2))) (normalize v2)
              = normalize (cross v1 v2)).
  { unfold normalize. rewrite cross_vdiv by (try assumption; apply norm_nonzero, Hw).
    rewrite cross_recomputed_first.
    apply vdiv_vscale_cancel with (n := norm v2); try assumption.
    - apply norm_norm.
    - rewrite Hn; ring. }
  rewrite <- E.
  apply orthonormal_triple_of_pair.
  - apply norm_normalize, Hw.
  - apply norm_normalize, (cross_nonzero_right _ _ H3).
  - unfold normalize. rewrite dot_vdiv by (try assumption; apply norm_nonzero, Hw).
    rewrite dot_comm, dot_cross_left. apply zero_div.
Qed.

(** ** Columns of a matrix *)

Lemma orthonormal_triple_columns (m : Mat4) (t : Axis.Name) (a b c : Vec3) :
  col3 m (Axis.value (next_name t)) = a ->
  col3 m (Axis.value (next_name (next_name t))) = b ->
  col3 m (Axis.value t) = c ->
  orthonormal_triple a b c ->
  unit_columns m /\ orthogonal_columns m /\ right_handed m /\
  col3 m (Axis.value t)
  = normalize (cross (col3 m (Axis.value (next_name t)))
                     (col3 m (Axis.value (next_name (next_name t))))).
Proof.
  intros Ea Eb Ec (Na & Nb & Nc & Dab & Dac & Dbc & Cc & Ca & Cb).
  assert (Dba : dot b a = 0) by (rewrite dot_comm; exact Dab).
  assert (Dca : dot c a = 0) by (rewrite dot_comm; exact Dac).
  assert (Dcb : dot c b = 0) by (rewrite dot_comm; exact Dbc).
  unfold unit_columns, orthogonal_columns, right_handed.
  rewrite Ea, Eb, Ec, <- Cc, (normalize_unit c Nc).
  destruct t; simpl in Ea, Eb, Ec; rewrite ?Ea, ?Eb, ?Ec; tauto.
Qed.

(** ** [from_markers] *)


Lemma Name_eqb_neq (a b : Axis.Name) : Axis.Name_eqb a b = false <-> a <> b.
Proof.
  destruct a, b; simpl; split; intros H; try reflexivity; try discriminate H;
    try (intros E; discriminate E); exfalso; apply H; reflexivity.
Qed.

(** What [from_markers] builds when the two names differ and the name to
    keep is one of them: the matrix, column by column. *)
Lemma from_markers_columns (origin : Marker.t) (first second : Axis.t)
    (keep : Axis.Name) (parent : option RT.t) :
  Axis.name first <> Axis.name second ->
  keep = Axis.name first \/ keep = Axis.name second ->
  exists m,
    RT.from_markers origin (first, second, keep) parent = Ok (RT.Build m parent false) /\
    let t := third_name (Axis.name first) (Axis.name second) in
    let v1 := supplied_vector first second (next_name t) in
    let v2 := supplied_vector first second (next_name (next_name t)) in
    let v3 := cross v1 v2 in
    col3 m (Axis.value t) = normalize v3 /\
    col3 m (Axis.value keep) = normalize (supplied_vector first second keep) /\
    col3 m (Axis.value (other_name first second keep))
    = normalize (if Axis.Name_eqb keep (next_name t) then cross v3 v1 else cross v2 v3) /\
    col3 m 3 = Marker.position origin /\
    row3 m = mkVec4 0 0 0 1.
Proof.
  intros Hd Hk.
  destruct origin as [on op [ox oy oz] ot oa].
  destruct first as [fn [fsn fsp [fsx fsy fsz] fst_ fsa] [fen fep [fex fey fez] fet fea]].
  destruct second as [sn [ssn ssp [ssx ssy ssz] sst ssa] [sen sep [sex sey sez] set_ sea]].
  simpl in Hd, Hk.
  destruct fn, sn; try (exfalso; apply Hd; reflexivity);
    destruct Hk as [-> | ->]; eexists; (split; [reflexivity |]);
    repeat split; reflexivity.
Qed.

(** The two implementations of [from_markers] build the same matrix. *)
Lemma SegmentCoordinateSystemReal_from_markers_RT (origin : Marker.t)
    (first second : Axis.t) (keep : Axis.Name)
    (parent_scs : option SegmentCoordinateSystemReal.t) (parent_rt : option RT.t) :
  SegmentCoordinateSystemReal.from_markers origin first second keep parent_scs
  = match RT.from_markers origin (first, second, keep) parent_rt with
    | Ok r => Ok (SegmentCoordinateSystemReal.Build (RT.rt r) parent_scs false)
    | Raise e => Raise e
    end.
Proof.
  unfold SegmentCoordinateSystemReal.from_markers, RT.from_markers; simpl.
  destruct (Axis.Name_eqb (Axis.name first) (Axis.name second)); [reflexivity |].
  destruct (RT.reorder first second) as [[t a1] a2]; simpl.
  destruct (Axis.Name_eqb keep (Axis.name a1)); simpl; [reflexivity |].
  destruct (Axis.Name_eqb keep (Axis.name a2)); reflexivity.
Qed.

Lemma cross_anticomm (a b : Vec3) : cross a b = vopp (cross b a).
Proof. apply Vec3_eq; unfold cross, vopp; simpl; ring. Qed.

Lemma vopp_zero_iff (a : Vec3) : vopp a = vzero -> a = vzero.
Proof.
  destruct a as [x y z]; unfold vopp, vzero; simpl; intros H.
  injection H as Hx Hy Hz. f_equal; lra.
Qed.

Lemma not_parallel_sym (a b : Vec3) : ~ parallel a b -> ~ parallel b a.
Proof.
  unfold parallel; intros H E; apply H.
  rewrite cross_anticomm, E. apply Vec3_eq; reflexivity || (simpl; ring).
Qed.

Lemma mcol3_of_col3 (m : Mat4) (o : Vec3) :
  col3 m 3 = o -> row3 m = mkVec4 0 0 0 1 -> mcol m 3 = mkVec4 (vx o) (vy o) (vz o) 1.
Proof.
  intros Hc Hr; subst o. unfold mcol, col3, mget; simpl. rewrite Hr; reflexivity.
Qed.

(** The matrix of [from_markers] is a right-handed orthonormal frame at the
    origin marker. *)
Lemma from_markers_frame (origin : Marker.t) (first second : Axis.t)
    (keep : Axis.Name) (parent : option RT.t) :
  Axis.name first <> Axis.name second ->
  keep = Axis.name first \/ keep = Axis.name second ->
  ~ parallel (axis_vector first) (axis_vector second) ->
  exists m,
    RT.from_markers origin (first, second, keep) parent = Ok (RT.Build m parent false) /\
    right_handed_frame origin first second m.
Proof.
  intros Hd Hk Hp.
  destruct (from_markers_columns origin first second keep parent Hd Hk)
    as (m & Hm & Ht & Hkeep & Hother & Ho & Hr).
  exists m; split; [exact Hm |].
  pose proof (not_parallel_sym _ _ Hp) as Hp'.
  unfold parallel in Hp, Hp'.
  unfold right_handed_frame.
  set (t := third_name (Axis.name first) (Axis.name second)) in *.
  assert (Htriple :
    unit_columns m /\ orthogonal_columns m /\ right_handed m /\
    col3 m (Axis.value t)
    = normalize (cross (col3 m (Axis.value (next_name t)))
                       (col3 m (Axis.value (next_name (next_name t)))))).
  { unfold supplied_vector, other_name in *.
    destruct first as [fn fs fe], second as [sn ss se]; simpl in *.
    destruct fn, sn; try (exfalso; apply Hd; reflexivity);
      destruct Hk as [-> | ->]; simpl in *;
      (eapply (orthonormal_triple_columns m t);
       [ subst t; simpl; first [exact Hkeep | exact Hother]
       | subst t; simpl; first [exact Hkeep | exact Hother]
       | subst t; simpl; exact Ht
       | first [apply frame_keep_first | apply frame_keep_second]; assumption ]). }
  destruct Htriple as (Hu & Hor & Hrh & Hc).
  repeat split; try assumption.
  - apply Hu.
  - apply Hu.
  - apply Hu.
  - apply Hor.
  - apply Hor.
  - apply Hor.
  - apply mcol3_of_col3; assumption.
Qed.

(** ** Claims on [from_markers] *)










(** C2, as the code has it.  [from_markers] has no test on the length of a
    vector: for two distinct names and a name to keep that is one of them it
    returns a frame whatever the vectors are, zero and parallel ones
    included. *)
Theorem from_markers_has_no_norm_check (origin : Marker.t) (first second : Axis.t)
    (keep : Axis.Name) :
  Axis.name first <> Axis.name second ->
  keep = Axis.name first \/ keep = Axis.name second ->
  (forall parent_rt : option RT.t,
      exists r, RT.from_markers origin (first, second, keep) parent_rt = Ok r) /\
  (forall parent_scs : option SegmentCoordinateSystemReal.t,
      exists s,
        SegmentCoordinateSystemReal.from_markers origin first second keep parent_scs = Ok s).
Proof.
  intros Hd Hk. split.
  - intros parent_rt.
    destruct (from_markers_columns origin first second keep parent_rt Hd Hk) as (m & Hm & _).
    eexists; exact Hm.
  - intros parent_scs.
    destruct (from_markers_columns origin first second keep None Hd Hk) as (m & Hm & _).
    rewrite (SegmentCoordinateSystemReal_from_markers_RT _ _ _ _ _ None), Hm.
    eexists; reflexivity.
Qed.

Lemma from_markers_has_no_norm_check_witness :
  (forall parent_rt : option RT.t,
      exists r,
        RT.from_markers (marker_at 0 0 0) (axis_to Axis.X 1 0 0, axis_to Axis.Y 2 0 0, Axis.X)
                        parent_rt = Ok r) /\
  (forall parent_scs : option SegmentCoordinateSystemReal.t,
      exists s,
        SegmentCoordinateSystemReal.from_markers
          (marker_at 0 0 0) (axis_to Axis.X 1 0 0) (axis_to Axis.Y 2 0 0) Axis.X parent_scs
        = Ok s).
Proof.
  apply (from_markers_has_no_norm_check
           (marker_at 0 0 0) (axis_to Axis.X 1 0 0) (axis_to Axis.Y 2 0 0) Axis.X).
  - simpl; discriminate.
  - left; reflexivity.
Defined.

(** C2, as stated, fails: the axes from the origin to (1, 0, 0) and to
    (2, 0, 0) are collinear, their third axis vector has norm 0, below every
    positive epsilon, and both constructors return a frame. *)
Lemma from_markers_collinear_returns_a_frame :
  (forall eps : R, 0 < eps ->
     degenerate (axis_to Axis.X 1 0 0) (axis_to Axis.Y 2 0 0) eps) /\
  is_ok (RT.from_markers (marker_at 0 0 0)
           (axis_to Axis.X 1 0 0, axis_to Axis.Y 2 0 0, Axis.X) None) = true /\
  is_ok (SegmentCoordinateSystemReal.from_markers (marker_at 0 0 0)
           (axis_to Axis.X 1 0 0) (axis_to Axis.Y 2 0 0) Axis.X None) = true.
Proof.
  split; [| split; reflexivity].
  intros eps Heps. right; right.
  assert (E : derived_third_vector (axis_to Axis.X 1 0 0) (axis_to Axis.Y 2 0 0) = vzero).
  { apply Vec3_eq; unfold derived_third_vector, supplied_vector, axis_vector, cross, vsub;
      simpl; ring. }
  rewrite E. replace (norm vzero) with 0; [exact Heps |].
  symmetry; apply norm_zero_iff; reflexivity.
Qed.

(** ** Claims on [copy], [transpose] and [__str__] *)

Lemma SegmentCoordinateSystemReal_transpose_RT (s : SegmentCoordinateSystemReal.t) :
  SegmentCoordinateSystemReal.scs (SegmentCoordinateSystemReal.transpose s)
  = RT.rt (RT.transpose (SegmentCoordinateSystemReal.to_RT s)) /\
  SegmentCoordinateSystemReal.is_rt_local (SegmentCoordinateSystemReal.transpose s)
  = RT.is_rt_local (RT.transpose (SegmentCoordinateSystemReal.to_RT s)) /\
  SegmentCoordinateSystemReal.parent_scs (SegmentCoordinateSystemReal.transpose s)
  = SegmentCoordinateSystemReal.parent_scs s.
Proof. destruct s as [m p l]; repeat split; reflexivity. Qed.

Lemma SegmentCoordinateSystemReal_str_rt_RT (s : SegmentCoordinateSystemReal.t) :
  SegmentCoordinateSystemReal.str_rt s = RT.str_rt (SegmentCoordinateSystemReal.to_RT s).
Proof.
  destruct s as [m [[pm pp pl] |] l]; destruct l; reflexivity.
Qed.

(** The parts of C1 that the code does: a local transform is rendered as it
    is, a global one with a parent as [parent.transpose @ transform]. *)
Lemma str_rt_local (m : Mat4) (parent : option RT.t) :
  RT.str_rt (RT.Build m parent true) = m.
Proof. reflexivity. Qed.

Lemma str_rt_with_parent (m : Mat4) (parent : RT.t) :
  RT.str_rt (RT.Build m (Some parent) false) = mmul (RT.rt (RT.transpose parent)) m.
Proof. reflexivity. Qed.

Lemma mmul_identity_left (m : Mat4) : mmul identity m = m.
Proof.
  destruct m as [[a0 a1 a2 a3] [b0 b1 b2 b3] [c0 c1 c2 c3] [d0 d1 d2 d3]].
  unfold mmul, identity, dot4, mcol, mrow, mget, vget; simpl.
  f_equal; f_equal; ring.
Qed.

(** C1, at the input where the code leaves it: a global transform without
    a parent.  Whatever its matrix, [__str__] decomposes the identity; for
    the translation by (1, 2, 3) this is not the transform itself, which is
    what the identity in place of the parent's inverse would give. *)
Theorem str_rt_global_without_parent :
  (forall m : Mat4, RT.str_rt (RT.Build m None false) = identity) /\
  (forall m : Mat4,
      SegmentCoordinateSystemReal.str_rt (SegmentCoordinateSystemReal.Build m None false)
      = identity) /\
  mmul identity (translation 1 2 3) = translation 1 2 3 /\
  RT.str_rt (RT.Build (translation 1 2 3) None false) <> translation 1 2 3 /\
  SegmentCoordinateSystemReal.str_rt
    (SegmentCoordinateSystemReal.Build (translation 1 2 3) None false)
  <> translation 1 2 3.
Proof.
  split; [reflexivity |]. split; [reflexivity |].
  split; [apply mmul_identity_left |].
  split; simpl; unfold identity, translation; intros H; injection H; intros; lra.
Qed.

(** C10.  [copy] and [transpose] return an object whose flag is false
    whatever the flag of the original, with the parent of the original;
    [__str__] therefore treats the result as a global transform. *)
Theorem copy_and_transpose_reset_local_flag (m : Mat4) (l : bool) :
  (forall parent : option RT.t,
      let r := RT.Build m parent l in
      RT.is_rt_local (RT.copy r) = false /\
      RT.rt (RT.copy r) = m /\
      RT.parent_rt (RT.copy r) = parent /\
      RT.is_rt_local (RT.transpose r) = false /\
      RT.parent_rt (RT.transpose r) = parent /\
      RT.str_rt (RT.copy r)
      = match parent with
        | Some p => mmul (RT.rt (RT.transpose p)) m
        | None => identity
        end /\
      RT.str_rt (RT.transpose r)
      = match parent with
        | Some p => mmul (RT.rt (RT.transpose p)) (RT.rt (RT.transpose r))
        | None => identity
        end) /\
  (forall parent : option SegmentCoordinateSystemReal.t,
      let s := SegmentCoordinateSystemReal.Build m parent l in
      SegmentCoordinateSystemReal.is_rt_local (SegmentCoordinateSystemReal.copy s) = false /\
      SegmentCoordinateSystemReal.scs (SegmentCoordinateSystemReal.copy s) = m /\
      SegmentCoordinateSystemReal.parent_scs (SegmentCoordinateSystemReal.copy s) = parent /\
      SegmentCoordinateSystemReal.is_rt_local (SegmentCoordinateSystemReal.transpose s) = false /\
      SegmentCoordinateSystemReal.parent_scs (SegmentCoordinateSystemReal.transpose s) = parent /\
      SegmentCoordinateSystemReal.str_rt (SegmentCoordinateSystemReal.copy s)
      = match parent with
        | Some p =>
            mmul (SegmentCoordinateSystemReal.scs (SegmentCoordinateSystemReal.transpose p)) m
        | None => identity
        end).
Proof.
  split; intros parent; simpl; repeat split; destruct parent; reflexivity.
Qed.

(** ** [transpose] *)

Lemma transpose_blocks (m : Mat4) (parent : option RT.t) (l : bool) :
  inverse_blocks m (RT.rt (RT.transpose (RT.Build m parent l))) /\
  row3 (RT.rt (RT.transpose (RT.Build m parent l))) = mkVec4 0 0 0 (e3 (row3 m)).
Proof.
  destruct m as [[a0 a1 a2 a3] [b0 b1 b2 b3] [c0 c1 c2 c3] [d0 d1 d2 d3]].
  split; [split |].
  - intros i j Hi Hj.
    destruct i as [| [| [| i]]]; try lia; destruct j as [| [| [| j]]]; try lia; reflexivity.
  - apply Vec3_eq; simpl; unfold dot; simpl; ring.
  - reflexivity.
Qed.

(** Orthonormal columns make [R @ (R.T @ t)] equal to [t]. *)
Lemma rotation_rows (a b c d e f g h i x y z : R) :
  a * a + d * d + g * g = 1 -> b * b + e * e + h * h = 1 -> c * c + f * f + i * i = 1 ->
  a * b + d * e + g * h = 0 -> a * c + d * f + g * i = 0 -> b * c + e * f + h * i = 0 ->
  a * (a * x + d * y + g * z) + b * (b * x + e * y + h * z) + c * (c * x + f * y + i * z) = x /\
  d * (a * x + d * y + g * z) + e * (b * x + e * y + h * z) + f * (c * x + f * y + i * z) = y /\
  g * (a * x + d * y + g * z) + h * (b * x + e * y + h * z) + i * (c * x + f * y + i * z) = z.
Proof. intros; repeat split; nsatz. Qed.

Lemma norm_one_dot (a : Vec3) : norm a = 1 -> dot a a = 1.
Proof. intros H; rewrite <- norm_norm, H; ring. Qed.

Lemma transpose_transpose (m : Mat4) (parent : option RT.t) (l : bool) :
  unit_columns m -> orthogonal_columns m -> homogeneous m ->
  RT.rt (RT.transpose (RT.transpose (RT.Build m parent l))) = m.
Proof.
  intros (U0 & U1 & U2) (O01 & O02 & O12) Hh.
  apply norm_one_dot in U0, U1, U2.
  destruct m as [[a0 a1 a2 a3] [b0 b1 b2 b3] [c0 c1 c2 c3] [d0 d1 d2 d3]].
  unfold homogeneous in Hh; simpl in Hh. injection Hh as -> -> -> ->.
  unfold dot, col3, mget in *; simpl in *.
  destruct (rotation_rows a0 a1 a2 b0 b1 b2 c0 c1 c2 a3 b3 c3 U0 U1 U2 O01 O02 O12)
    as (Hx & Hy & Hz).
  cbv [RT.transpose RT.copy RT.rt RT.parent_rt RT.is_rt_local clear_row3 set_col3 mT
       block3_mulv row3_of mcol mget mrow vget vset vopp dot
       row0 row1 row2 row3 e0 e1 e2 e3 vx vy vz].
  f_equal; f_equal; lra.
Qed.

(** ** [transpose] on objects *)

Lemma nth_error_snoc {A : Type} (l : list A) (x : A) :
  nth_error (l ++ [x]) (List.length l) = Some x.
Proof. induction l as [| y l IH]; simpl; [reflexivity | exact IH]. Qed.

Lemma nth_error_before_snoc {A : Type} (l : list A) (x : A) (i : nat) :
  (i < List.length l)%nat -> nth_error (l ++ [x]) i = nth_error l i.
Proof. intros H; apply nth_error_app1; exact H. Qed.

Lemma set_buffer_snoc (l : list Mat4) (x y : Mat4) :
  Store.set_buffer (l ++ [x]) (List.length l) y = l ++ [y].
Proof. induction l as [| z l IH]; simpl; [reflexivity | rewrite IH; reflexivity]. Qed.

Lemma set_object_snoc {A : Type} (l : list A) (x y : A) :
  Store.set_object (l ++ [x]) (List.length l) y = l ++ [y].
Proof. induction l as [| z l IH]; simpl; [reflexivity | rewrite IH; reflexivity]. Qed.

(** The object-level [transpose] allocates one array and one RT object,
    writes to these two only, and the new object reads as the value-level
    [RT.transpose] of the original. *)
Lemma Store_transpose_fresh (s : Store.t) (self : nat) (x : Store.RT_object) (m : Mat4)
    (parent : option RT.t) (l : bool) :
  nth_error (Store.objects s) self = Some x ->
  Store.read s (Store.rt x) = Some m ->
  exists s' x',
    Store.transpose s self = Some (List.length (Store.objects s), s') /\
    (forall o, (o < List.length (Store.objects s))%nat ->
               nth_error (Store.objects s') o = nth_error (Store.objects s) o) /\
    (forall b, (b < List.length (Store.buffers s))%nat ->
               nth_error (Store.buffers s') b = nth_error (Store.buffers s) b) /\
    Store.scs_objects s' = Store.scs_objects s /\
    nth_error (Store.objects s') (List.length (Store.objects s)) = Some x' /\
    (List.length (Store.buffers s) <= Store.buffer (Store.rt x'))%nat /\
    Store.read s' (Store.rt x') = Some (RT.rt (RT.transpose (RT.Build m parent l))) /\
    Store.parent_rt x' = Store.parent_rt x /\
    Store.is_rt_local x' = RT.is_rt_local (RT.transpose (RT.Build m parent l)) /\
    Store.is_rt_local x' = false.
Proof.
  intros Hx Hm.
  destruct s as [bufs objs scss]; simpl in *.
  unfold Store.transpose, Store.copy, Store.copy_array, Store.new_RT; simpl.
  rewrite Hx; simpl. rewrite Hm; simpl.
  rewrite nth_error_snoc; simpl.
  unfold Store.setattr_rt; simpl. rewrite nth_error_snoc; simpl.
  rewrite set_object_snoc.
  unfold Store.read; simpl. rewrite nth_error_snoc; simpl.
  unfold Store.assign_col3; simpl. rewrite nth_error_snoc; simpl.
  rewrite set_buffer_snoc.
  unfold Store.assign_row3_zero; simpl. rewrite nth_error_snoc; simpl.
  rewrite set_buffer_snoc.
  eexists; eexists. split; [reflexivity |]. simpl.
  split; [intros o Ho; apply nth_error_before_snoc; exact Ho |].
  split; [intros b Hb; apply nth_error_before_snoc; exact Hb |].
  split; [reflexivity |].
  split; [apply nth_error_snoc |]. simpl.
  split; [apply Nat.le_refl |].
  rewrite nth_error_snoc.
  split; [reflexivity |]. split; [reflexivity |]. split; reflexivity.
Qed.

(** The same for [SegmentCoordinateSystemReal.transpose]: one array and one
    SegmentCoordinateSystemReal object are allocated, nothing else is
    written, and the new object reads as the value-level transpose. *)
Lemma Store_scs_transpose_fresh (s : Store.t) (self : nat) (x : Store.SCS_object)
    (m : Mat4) (parent : option SegmentCoordinateSystemReal.t) (l : bool) :
  nth_error (Store.scs_objects s) self = Some x ->
  Store.read s (Store.scs x) = Some m ->
  exists s' x',
    Store.scs_transpose s self = Some (List.length (Store.scs_objects s), s') /\
    (forall o, (o < List.length (Store.scs_objects s))%nat ->
               nth_error (Store.scs_objects s') o = nth_error (Store.scs_objects s) o) /\
    (forall b, (b < List.length (Store.buffers s))%nat ->
               nth_error (Store.buffers s') b = nth_error (Store.buffers s) b) /\
    Store.objects s' = Store.objects s /\
    nth_error (Store.scs_objects s') (List.length (Store.scs_objects s)) = Some x' /\
    (List.length (Store.buffers s) <= Store.buffer (Store.scs x'))%nat /\
    Store.read s' (Store.scs x')
    = Some (SegmentCoordinateSystemReal.scs
              (SegmentCoordinateSystemReal.transpose
                 (SegmentCoordinateSystemReal.Build m parent l))) /\
    Store.parent_scs x' = Store.parent_scs x /\
    Store.scs_is_rt_local x'
    = SegmentCoordinateSystemReal.is_rt_local
        (SegmentCoordinateSystemReal.transpose
           (SegmentCoordinateSystemReal.Build m parent l)) /\
    Store.scs_is_rt_local x' = false.
Proof.
  intros Hx Hm.
  destruct s as [bufs objs scss]; simpl in *.
  unfold Store.scs_transpose, Store.scs_copy, Store.copy_array, Store.new_SCS; simpl.
  rewrite Hx; simpl. rewrite Hm; simpl.
  rewrite nth_error_snoc; simpl.
  unfold Store.setattr_scs; simpl. rewrite nth_error_snoc; simpl.
  rewrite set_object_snoc.
  unfold Store.read; simpl. rewrite nth_error_snoc; simpl.
  unfold Store.assign_col3; simpl. rewrite nth_error_snoc; simpl.
  rewrite set_buffer_snoc.
  unfold Store.assign_row3_zero; simpl. rewrite nth_error_snoc; simpl.
  rewrite set_buffer_snoc.
  eexists; eexists. split; [reflexivity |]. simpl.
  split; [intros o Ho; apply nth_error_before_snoc; exact Ho |].
  split; [intros b Hb; apply nth_error_before_snoc; exact Hb |].
  split; [reflexivity |].
  split; [apply nth_error_snoc |]. simpl.
  split; [apply Nat.le_refl |].
  rewrite nth_error_snoc.
  split; [reflexivity |]. split; [reflexivity |]. split; reflexivity.
Qed.

Lemma translation_rigid (x y z : R) :
  unit_columns (translation x y z) /\ orthogonal_columns (translation x y z) /\
  homogeneous (translation x y z).
Proof.
  unfold unit_columns, orthogonal_columns, homogeneous.
  repeat split; try (apply norm_of_dot_one); unfold dot; simpl; ring.
Qed.

(** C7.  For a transform whose rotation block R has orthonormal columns and
    whose last row is (0, 0, 0, 1): [transpose] returns a transform whose
    rotation block is the transpose of R, whose translation is minus that
    block applied to t and whose last row is (0, 0, 0, 1); transposing twice
    gives the matrix back.  On objects, for [RT] and for
    [SegmentCoordinateSystemReal] alike, [transpose] returns a new object
    over a new array: every array and every object that was there, the
    original and its array among them, is left as it was, and the new object
    reads as the transpose of the original. *)
Theorem transpose_inverts_rigid_transform (m : Mat4) (l : bool) :
  unit_columns m -> orthogonal_columns m -> homogeneous m ->
  (forall parent : option RT.t,
      let T := RT.Build m parent l in
      inverse_blocks m (RT.rt (RT.transpose T)) /\
      homogeneous (RT.rt (RT.transpose T)) /\
      RT.rt (RT.transpose (RT.transpose T)) = m) /\
  (forall parent : option SegmentCoordinateSystemReal.t,
      let T := SegmentCoordinateSystemReal.Build m parent l in
      inverse_blocks m (SegmentCoordinateSystemReal.scs (SegmentCoordinateSystemReal.transpose T)) /\
      homogeneous (SegmentCoordinateSystemReal.scs (SegmentCoordinateSystemReal.transpose T)) /\
      SegmentCoordinateSystemReal.scs
        (SegmentCoordinateSystemReal.transpose (SegmentCoordinateSystemReal.transpose T)) = m) /\
  (forall (s : Store.t) (self : nat) (x : Store.RT_object),
      nth_error (Store.objects s) self = Some x ->
      Store.read s (Store.rt x) = Some m ->
      exists s' x',
        Store.transpose s self = Some (List.length (Store.objects s), s') /\
        (forall o, (o < List.length (Store.objects s))%nat ->
                   nth_error (Store.objects s') o = nth_error (Store.objects s) o) /\
        (forall b, (b < List.length (Store.buffers s))%nat ->
                   nth_error (Store.buffers s') b = nth_error (Store.buffers s) b) /\
        Store.scs_objects s' = Store.scs_objects s /\
        nth_error (Store.objects s') (List.length (Store.objects s)) = Some x' /\
        (List.length (Store.buffers s) <= Store.buffer (Store.rt x'))%nat /\
        Store.read s' (Store.rt x') = Some (RT.rt (RT.transpose (RT.Build m None l))) /\
        Store.parent_rt x' = Store.parent_rt x /\
        Store.is_rt_local x' = RT.is_rt_local (RT.transpose (RT.Build m None l)) /\
        Store.is_rt_local x' = false) /\
  (forall (s : Store.t) (self : nat) (x : Store.SCS_object),
      nth_error (Store.scs_objects s) self = Some x ->
      Store.read s (Store.scs x) = Some m ->
      exists s' x',
        Store.scs_transpose s self = Some (List.length (Store.scs_objects s), s') /\
        (forall o, (o < List.length (Store.scs_objects s))%nat ->
                   nth_error (Store.scs_objects s') o = nth_error (Store.scs_objects s) o) /\
        (forall b, (b < List.length (Store.buffers s))%nat ->
                   nth_error (Store.buffers s') b = nth_error (Store.buffers s) b) /\
        Store.objects s' = Store.objects s /\
        nth_error (Store.scs_objects s') (List.length (Store.scs_objects s)) = Some x' /\
        (List.length (Store.buffers s) <= Store.buffer (Store.scs x'))%nat /\
        Store.read s' (Store.scs x')
        = Some (SegmentCoordinateSystemReal.scs
                  (SegmentCoordinateSystemReal.transpose
                     (SegmentCoordinateSystemReal.Build m None l))) /\
        Store.parent_scs x' = Store.parent_scs x /\
        Store.scs_is_rt_local x'
        = SegmentCoordinateSystemReal.is_rt_local
            (SegmentCoordinateSystemReal.transpose
               (SegmentCoordinateSystemReal.Build m None l)) /\
        Store.scs_is_rt_local x' = false).
Proof.
  intros Hu Ho Hh. split; [| split; [| split]].
  - intros parent T. subst T.
    destruct (transpose_blocks m parent l) as [Hb Hr].
    split; [exact Hb |]. split.
    + unfold homogeneous. rewrite Hr. rewrite Hh. reflexivity.
    + apply transpose_transpose; assumption.
  - intros parent T. subst T.
    destruct (transpose_blocks m None l) as [Hb Hr].
    split; [exact Hb |]. split.
    + unfold homogeneous.
      change (row3 (RT.rt (RT.transpose (RT.Build m None l))) = mkVec4 0 0 0 1).
      rewrite Hr. rewrite Hh. reflexivity.
    + change (RT.rt (RT.transpose (RT.transpose (RT.Build m None l))) = m).
      apply transpose_transpose; assumption.
  - intros s self x Hx Hm. apply Store_transpose_fresh; assumption.
  - intros s self x Hx Hm. apply Store_scs_transpose_fresh; assumption.
Qed.

Lemma transpose_inverts_rigid_transform_witness :
  RT.rt (RT.transpose (RT.transpose (RT.Build (translation 1 2 3) None false)))
  = translation 1 2 3 /\
  exists s' x',
    Store.scs_transpose
      (Store.Build [translation 1 2 3] []
                   [Store.Build_SCS_object (Store.Build_ndarray 0 false) None true]) 0
    = Some (1%nat, s') /\
    nth_error (Store.scs_objects s') 0
    = Some (Store.Build_SCS_object (Store.Build_ndarray 0 false) None true) /\
    nth_error (Store.buffers s') 0 = Some (translation 1 2 3) /\
    nth_error (Store.scs_objects s') 1 = Some x' /\
    Store.scs_is_rt_local x' = false.
Proof.
  pose proof (transpose_inverts_rigid_transform (translation 1 2 3) true
                (proj1 (translation_rigid 1 2 3))
                (proj1 (proj2 (translation_rigid 1 2 3)))
                (proj2 (proj2 (translation_rigid 1 2 3)))) as (_ & _ & _ & Hscs).
  split.
  - exact (proj2 (proj2 (proj1
             (transpose_inverts_rigid_transform (translation 1 2 3) false
                (proj1 (translation_rigid 1 2 3))
                (proj1 (proj2 (translation_rigid 1 2 3)))
                (proj2 (proj2 (translation_rigid 1 2 3)))) None))).
  - destruct (Hscs (Store.Build [translation 1 2 3] []
                      [Store.Build_SCS_object (Store.Build_ndarray 0 false) None true])
                   0%nat (Store.Build_SCS_object (Store.Build_ndarray 0 false) None true)
                   eq_refl eq_refl)
      as (s' & x' & Hrun & Hobjs & Hbufs & _ & Hnew & _ & _ & _ & _ & Hflag).
    exists s', x'. split; [exact Hrun |].
    split; [apply (Hobjs 0%nat); simpl; lia |].
    split; [apply (Hbufs 0%nat); simpl; lia |].
    split; [exact Hnew | exact Hflag].
Defined.

(** ** [transpose] is the inverse of a rigid transform *)

Lemma mmul_assoc (a b c : Mat4) : mmul (mmul a b) c = mmul a (mmul b c).
Proof.
  destruct a as [[a00 a01 a02 a03] [a10 a11 a12 a13] [a20 a21 a22 a23] [a30 a31 a32 a33]].
  destruct b as [[b00 b01 b02 b03] [b10 b11 b12 b13] [b20 b21 b22 b23] [b30 b31 b32 b33]].
  destruct c as [[c00 c01 c02 c03] [c10 c11 c12 c13] [c20 c21 c22 c23] [c30 c31 c32 c33]].
  cbv [mmul dot4 mcol mrow mget vget row0 row1 row2 row3 e0 e1 e2 e3].
  f_equal; f_equal; ring.
Qed.

Lemma mmul_mulv (a b : Mat4) (v : Vec4) : mulv (mmul a b) v = mulv a (mulv b v).
Proof.
  destruct a as [[a00 a01 a02 a03] [a10 a11 a12 a13] [a20 a21 a22 a23] [a30 a31 a32 a33]].
  destruct b as [[b00 b01 b02 b03] [b10 b11 b12 b13] [b20 b21 b22 b23] [b30 b31 b32 b33]].
  destruct v as [v0 v1 v2 v3].
  cbv [mmul mulv dot4 mcol mrow mget vget row0 row1 row2 row3 e0 e1 e2 e3].
  f_equal; ring.
Qed.

Lemma rotation_rows_orthonormal (a b c d e f g h i : R) :
  a * a + d * d + g * g = 1 -> b * b + e * e + h * h = 1 -> c * c + f * f + i * i = 1 ->
  a * b + d * e + g * h = 0 -> a * c + d * f + g * i = 0 -> b * c + e * f + h * i = 0 ->
  (a * a + b * b + c * c = 1 /\ d * d + e * e + f * f = 1 /\ g * g + h * h + i * i = 1) /\
  (a * d + b * e + c * f = 0 /\ a * g + b * h + c * i = 0 /\ d * g + e * h + f * i = 0).
Proof. intros; repeat split; nsatz. Qed.

Lemma transpose_left_inverse (m : Mat4) (parent : option RT.t) (l : bool) :
  rigid m -> mmul (RT.rt (RT.transpose (RT.Build m parent l))) m = identity.
Proof.
  intros ((U0 & U1 & U2) & (O01 & O02 & O12) & Hh).
  apply norm_one_dot in U0, U1, U2.
  destruct m as [[a0 a1 a2 a3] [b0 b1 b2 b3] [c0 c1 c2 c3] [d0 d1 d2 d3]].
  unfold homogeneous in Hh; simpl in Hh. injection Hh as -> -> -> ->.
  unfold dot, col3, mget in *; simpl in *.
  cbv [RT.transpose RT.copy RT.rt RT.parent_rt RT.is_rt_local clear_row3 set_col3 mT
       block3_mulv row3_of mcol mget mrow vget vset vopp dot mmul dot4 identity
       row0 row1 row2 row3 e0 e1 e2 e3 vx vy vz].
  f_equal; f_equal; nra.
Qed.

Lemma transpose_right_inverse (m : Mat4) (parent : option RT.t) (l : bool) :
  rigid m -> mmul m (RT.rt (RT.transpose (RT.Build m parent l))) = identity.
Proof.
  intros ((U0 & U1 & U2) & (O01 & O02 & O12) & Hh).
  apply norm_one_dot in U0, U1, U2.
  destruct m as [[a0 a1 a2 a3] [b0 b1 b2 b3] [c0 c1 c2 c3] [d0 d1 d2 d3]].
  unfold homogeneous in Hh; simpl in Hh. injection Hh as -> -> -> ->.
  unfold dot, col3, mget in *; simpl in *.
  destruct (rotation_rows_orthonormal a0 a1 a2 b0 b1 b2 c0 c1 c2 U0 U1 U2 O01 O02 O12)
    as ((R0 & R1 & R2) & (R01 & R02 & R12)).
  destruct (rotation_rows a0 a1 a2 b0 b1 b2 c0 c1 c2 a3 b3 c3 U0 U1 U2 O01 O02 O12)
    as (Hx & Hy & Hz).
  cbv [RT.transpose RT.copy RT.rt RT.parent_rt RT.is_rt_local clear_row3 set_col3 mT
       block3_mulv row3_of mcol mget mrow vget vset vopp dot mmul dot4 identity
       row0 row1 row2 row3 e0 e1 e2 e3 vx vy vz].
  f_equal; f_equal; lra.
Qed.

(** [to_marker], step by step. *)
Lemma to_marker_steps (g : MarkerGeneric.t) (c3d : C3d.t) (p : option RT.t) :
  MarkerGeneric.to_marker g c3d p
  = (columns <- mapM (index (C3d.LABELS c3d)) (requested (MarkerGeneric.from_markers g)) ;;
     _ <- check_indices c3d columns ;;
     match finite4 (to_meter c3d (mean_of_nanmeans c3d columns 0,
                                  mean_of_nanmeans c3d columns 1,
                                  mean_of_nanmeans c3d columns 2,
                                  mean_of_nanmeans c3d columns 3))
     with
     | None => Raise (markers_not_present (requested (MarkerGeneric.from_markers g)))
     | Some position =>
         Ok (Marker.Build (MarkerGeneric.name g) (MarkerGeneric.parent_name g)
               (first3 match p with
                       | Some parent => mulv (RT.rt (RT.transpose parent)) position
                       | None => mulv identity position
                       end)
               (MarkerGeneric.is_technical g) (MarkerGeneric.is_anatomical g))
     end).
Proof.
  unfold MarkerGeneric.to_marker, Marker_from_data, ezc3d_found, requested. cbv [negb].
  destruct (mapM _ _) as [columns | e]; [| reflexivity]. cbv [bind].
  destruct (check_indices c3d columns) as [[] | e]; [| reflexivity].
  destruct (finite4 _); [destruct p |]; reflexivity.
Qed.

(** The position before the parent frame is applied is a position over 1:
    [to_meter] writes 1 in the last entry. *)
Lemma finite4_to_meter (c3d : C3d.t) (data : sample * sample * sample * sample)
    (position : Vec4) :
  finite4 (to_meter c3d data) = Some position -> e3 position = 1.
Proof.
  destruct data as [[[d0 d1] d2] d3]. unfold to_meter.
  destruct (sdiv d0 _), (sdiv d1 _), (sdiv d2 _); simpl; intros H;
    try discriminate H. injection H as <-. reflexivity.
Qed.

Lemma over_one_first3 (v : Vec4) : e3 v = 1 -> over_one (first3 v) = v.
Proof. destruct v as [a b c d]; simpl; intros ->; reflexivity. Qed.

Lemma transpose_last_entry (m : Mat4) (parent : option RT.t) (l : bool) (v : Vec4) :
  homogeneous m -> e3 v = 1 ->
  e3 (mulv (RT.rt (RT.transpose (RT.Build m parent l))) v) = 1.
Proof.
  intros Hh Hv. destruct (transpose_blocks m parent l) as [_ Hr].
  unfold mulv. cbv [e3]. rewrite Hr, Hh. unfold dot4; simpl. rewrite Hv. ring.
Qed.


(** ** DeLeva *)




(** ** [Marker.from_data] *)

Lemma values_all_nan (l : list sample) :
  Forall (fun s => s = nan) l -> values l = [].
Proof.
  induction 1 as [| s l Hs _ IH]; simpl; [reflexivity |].
  subst s; exact IH.
Qed.

Lemma values_some_num (l : list sample) (x : R) :
  In (num x) l -> values l <> [].
Proof.
  induction l as [| s l IH]; simpl; intros H; [contradiction |].
  destruct s as [| y]; [| discriminate].
  destruct H as [H | H]; [discriminate H | apply IH, H].
Qed.

Lemma nanmean_all_nan (l : list sample) :
  Forall (fun s => s = nan) l -> nanmean l = nan.
Proof. intros H; unfold nanmean; rewrite (values_all_nan l H); reflexivity. Qed.

Lemma nanmean_some_num (l : list sample) (x : R) :
  In (num x) l -> nanmean l = num (Rsum (values l) / INR (List.length (values l))).
Proof.
  intros H. pose proof (values_some_num l x H) as Hv.
  unfold nanmean. destruct (values l); [contradiction Hv; reflexivity | reflexivity].
Qed.

Lemma mean_with_nan (l : list sample) : In nan l -> mean l = nan.
Proof.
  intros H. unfold mean.
  replace (existsb isnan l) with true; [reflexivity |].
  symmetry; apply existsb_exists. exists nan; split; [exact H | reflexivity].
Qed.

Lemma mean_of_nums {A : Type} (g : A -> R) (l : list A) :
  l <> [] ->
  mean (map (fun a => num (g a)) l) = num (Rsum (map g l) / INR (List.length l)).
Proof.
  intros Hl. unfold mean.
  assert (He : existsb isnan (map (fun a => num (g a)) l) = false).
  { induction l as [| a l IH]; [reflexivity |]. simpl.
    destruct l; [reflexivity | apply IH; discriminate]. }
  assert (Hv : values (map (fun a => num (g a)) l) = map g l).
  { clear. induction l as [| a l IH]; simpl; [reflexivity | rewrite IH; reflexivity]. }
  rewrite He, Hv, length_map.
  destruct l; [contradiction Hl; reflexivity | reflexivity].
Qed.

Lemma mapM_length {A B : Type} (f : A -> result B) (l : list A) (bs : list B) :
  mapM f l = Ok bs -> List.length bs = List.length l.
Proof.
  revert bs; induction l as [| a l IH]; simpl; intros bs H.
  - injection H as <-; reflexivity.
  - apply bind_ok in H as (b & _ & H).
    apply bind_ok in H as (bs' & Hbs & H).
    injection H as <-. simpl. rewrite (IH bs' Hbs); reflexivity.
Qed.

Lemma check_indices_in_range (c3d : C3d.t) (index : list nat) :
  Forall (fun i => (i < C3d.nb_points c3d)%nat) index -> check_indices c3d index = Ok tt.
Proof.
  intros H. unfold check_indices.
  replace (forallb (fun i => (i <? C3d.nb_points c3d)%nat) index) with true; [reflexivity |].
  symmetry; apply forallb_forall. intros i Hi.
  apply Nat.ltb_lt. rewrite Forall_forall in H. apply H, Hi.
Qed.

(** A requested marker without any sample makes the mean of every
    coordinate NaN. *)
Lemma mean_of_nanmeans_missing (c3d : C3d.t) (index : list nat) (r i : nat) :
  In i index ->
  (forall f, (f < C3d.nb_frames c3d)%nat -> C3d.points c3d r i f = nan) ->
  mean_of_nanmeans c3d index r = nan.
Proof.
  intros Hi Hnan. unfold mean_of_nanmeans.
  apply mean_with_nan. apply in_map_iff. exists i. split; [| exact Hi].
  apply nanmean_all_nan. apply Forall_forall. intros s Hs.
  apply in_map_iff in Hs as (f & <- & Hf). apply Hnan.
  apply in_seq in Hf. lia.
Qed.

(** When every requested marker has a sample, the mean of a coordinate is
    the mean over the markers of the means over the samples. *)
Lemma mean_of_nanmeans_seen (c3d : C3d.t) (index : list nat) (r : nat) :
  index <> [] ->
  (forall i, In i index ->
             exists f x, (f < C3d.nb_frames c3d)%nat /\ C3d.points c3d r i f = num x) ->
  mean_of_nanmeans c3d index r = num (mean_position c3d index r).
Proof.
  intros Hne Hseen. unfold mean_of_nanmeans, mean_position.
  rewrite <- (mean_of_nums (marker_mean c3d r) index Hne).
  f_equal. apply map_ext_in. intros i Hi.
  destruct (Hseen i Hi) as (f & x & Hf & Hx).
  unfold marker_mean, samples.
  apply (nanmean_some_num _ x).
  apply in_map_iff. exists f. split; [exact Hx |].
  apply in_seq. lia.
Qed.

Lemma mulv_identity (v : Vec4) : mulv identity v = v.
Proof.
  destruct v as [a b c d]. unfold mulv, identity, dot4; simpl. f_equal; ring.
Qed.

(** What the transpose of a frame does to a position over 1: the rotation
    block transposed, applied to the position minus the translation. *)
Lemma transpose_mulv_explicit (P : Mat4) (parent : option RT.t) (l : bool) (v : Vec4) :
  e3 v = 1 ->
  first3 (mulv (RT.rt (RT.transpose (RT.Build P parent l))) v)
  = mkVec3 (dot (col3 P 0) (vsub (first3 v) (col3 P 3)))
           (dot (col3 P 1) (vsub (first3 v) (col3 P 3)))
           (dot (col3 P 2) (vsub (first3 v) (col3 P 3))).
Proof.
  destruct P as [[a0 a1 a2 a3] [b0 b1 b2 b3] [c0 c1 c2 c3] [d0 d1 d2 d3]].
  destruct v as [v0 v1 v2 v3]. simpl. intros ->.
  cbv [RT.transpose RT.copy RT.rt RT.parent_rt RT.is_rt_local clear_row3 set_col3 mT
       block3_mulv row3_of mcol mget mrow vget vset vopp dot mulv dot4 first3 col3 vsub
       row0 row1 row2 row3 e0 e1 e2 e3 vx vy vz].
  f_equal; ring.
Qed.

(** C8.  For requested names that are labels of the trial (at the columns
    [columns] of the data): if one of them is NaN at every frame,
    [MarkerGeneric.to_marker] fails with the error that names the requested
    markers; if there is at least one name and every one has a sample at
    some frame, it returns the marker whose position is the mean over the
    requested markers of their means over their samples, divided by the
    unit factor, and multiplied by the transpose of the parent frame when
    one is given.  For a rigid parent frame that is the global mean
    re-expressed through the inverse of the frame: the transposed rotation
    block applied to the mean minus the translation of the frame, and the
    frame applied to the result gives the global mean back. *)
Theorem to_marker_missing_or_mean (g : MarkerGeneric.t) (c3d : C3d.t) (columns : list nat) :
  mapM (index (C3d.LABELS c3d)) (requested (MarkerGeneric.from_markers g)) = Ok columns ->
  Forall (fun i => (i < C3d.nb_points c3d)%nat) columns ->
  (forall parent_rt : option RT.t,
      (exists i, In i columns /\
                 forall f, (f < C3d.nb_frames c3d)%nat -> missing_at c3d i f) ->
      MarkerGeneric.to_marker g c3d parent_rt
      = Raise (markers_not_present (requested (MarkerGeneric.from_markers g)))) /\
  (forall parent_rt : option RT.t,
      requested (MarkerGeneric.from_markers g) <> [] ->
      (forall i, In i columns ->
                 exists f, (f < C3d.nb_frames c3d)%nat /\ seen_at c3d i f) ->
      MarkerGeneric.to_marker g c3d parent_rt
      = Ok (Marker.Build (MarkerGeneric.name g) (MarkerGeneric.parent_name g)
              (first3 match parent_rt with
                      | Some parent => mulv (RT.rt (RT.transpose parent))
                                            (global_position c3d columns)
                      | None => global_position c3d columns
                      end)
              (MarkerGeneric.is_technical g) (MarkerGeneric.is_anatomical g))) /\
  (forall (P : Mat4) (grandparent : option RT.t) (l : bool),
      rigid P ->
      requested (MarkerGeneric.from_markers g) <> [] ->
      (forall i, In i columns ->
                 exists f, (f < C3d.nb_frames c3d)%nat /\ seen_at c3d i f) ->
      exists m : Marker.t,
        MarkerGeneric.to_marker g c3d (Some (RT.Build P grandparent l)) = Ok m /\
        mulv P (over_one (Marker.position m)) = global_position c3d columns /\
        let mean := vsub (first3 (global_position c3d columns)) (col3 P 3) in
        Marker.position m
        = mkVec3 (dot (col3 P 0) mean) (dot (col3 P 1) mean) (dot (col3 P 2) mean)).
Proof.
  intros Hidx Hrange.
  pose proof (check_indices_in_range c3d columns Hrange) as Hcheck.
  assert (Hrun : forall parent_rt,
    MarkerGeneric.to_marker g c3d parent_rt
    = match finite4 (to_meter c3d (mean_of_nanmeans c3d columns 0, mean_of_nanmeans c3d columns 1,
                                   mean_of_nanmeans c3d columns 2, mean_of_nanmeans c3d columns 3))
      with
      | None => Raise (markers_not_present (requested (MarkerGeneric.from_markers g)))
      | Some position =>
          Ok (Marker.Build (MarkerGeneric.name g) (MarkerGeneric.parent_name g)
                (first3 match parent_rt with
                        | Some parent => RT.matmul_vec (RT.transpose parent) position
                        | None => mulv identity position
                        end)
                (MarkerGeneric.is_technical g) (MarkerGeneric.is_anatomical g))
      end).
  { intros parent_rt. unfold MarkerGeneric.to_marker, Marker_from_data, ezc3d_found.
    cbv [negb]. unfold requested in Hidx. rewrite Hidx. cbv [bind].
    rewrite Hcheck. reflexivity. }
  assert (Hmean : forall parent_rt : option RT.t,
      requested (MarkerGeneric.from_markers g) <> [] ->
      (forall i, In i columns ->
                 exists f, (f < C3d.nb_frames c3d)%nat /\ seen_at c3d i f) ->
      MarkerGeneric.to_marker g c3d parent_rt
      = Ok (Marker.Build (MarkerGeneric.name g) (MarkerGeneric.parent_name g)
              (first3 match parent_rt with
                      | Some parent => mulv (RT.rt (RT.transpose parent))
                                            (global_position c3d columns)
                      | None => global_position c3d columns
                      end)
              (MarkerGeneric.is_technical g) (MarkerGeneric.is_anatomical g))).
  { intros parent_rt Hne Hseen.
    assert (Hne' : columns <> []).
    { intros E. apply Hne. apply mapM_length in Hidx. rewrite E in Hidx.
      destruct (requested (MarkerGeneric.from_markers g)); [reflexivity | discriminate]. }
    rewrite Hrun.
    rewrite (mean_of_nanmeans_seen c3d columns 0 Hne').
    2:{ intros i Hi. destruct (Hseen i Hi) as (f & Hf & x & y & z & Hx & Hy & Hz).
        exists f, x; split; assumption. }
    rewrite (mean_of_nanmeans_seen c3d columns 1 Hne').
    2:{ intros i Hi. destruct (Hseen i Hi) as (f & Hf & x & y & z & Hx & Hy & Hz).
        exists f, y; split; assumption. }
    rewrite (mean_of_nanmeans_seen c3d columns 2 Hne').
    2:{ intros i Hi. destruct (Hseen i Hi) as (f & Hf & x & y & z & Hx & Hy & Hz).
        exists f, z; split; assumption. }
    unfold to_meter, global_position, unit_factor, RT.matmul_vec; simpl.
    destruct (mean_of_nanmeans c3d columns 3); simpl;
      destruct parent_rt; rewrite ?mulv_identity; reflexivity. }
  split; [| split; [exact Hmean |]].
  - intros parent_rt (i & Hi & Hmiss).
    rewrite Hrun.
    rewrite (mean_of_nanmeans_missing c3d columns 0 i Hi (fun f Hf => proj1 (Hmiss f Hf))).
    unfold to_meter; simpl. reflexivity.
  - intros P grandparent l HP Hne Hseen.
    eexists. split; [apply (Hmean (Some (RT.Build P grandparent l)) Hne Hseen) |].
    cbv [Marker.position].
    assert (H1 : e3 (global_position c3d columns) = 1) by reflexivity.
    split.
    + rewrite over_one_first3
        by (apply transpose_last_entry; [apply HP | exact H1]).
      rewrite <- mmul_mulv, (transpose_right_inverse P grandparent l HP).
      apply mulv_identity.
    + cbv zeta. apply transpose_mulv_explicit. exact H1.
Qed.

Lemma to_marker_missing_or_mean_witness :
  MarkerGeneric.to_marker (MarkerGeneric.Build "M" (Str "A") "SEG" true false)
                          example_trial None
  = Ok (Marker.Build "M" "SEG" (first3 (global_position example_trial [0%nat])) true false) /\
  exists m : Marker.t,
    MarkerGeneric.to_marker (MarkerGeneric.Build "M" (Str "A") "SEG" true false)
                            example_trial (Some (RT.Build (translation 1 2 3) None false))
    = Ok m /\
    mulv (translation 1 2 3) (over_one (Marker.position m))
    = global_position example_trial [0%nat].
Proof.
  assert (Hseen : forall i, In i [0%nat] ->
            exists f, (f < C3d.nb_frames example_trial)%nat /\ seen_at example_trial i f).
  { intros i [<- | []]. exists 1%nat. split; [simpl; lia |].
    exists 1000, 1000, 1000. repeat split; reflexivity. }
  assert (Hne : requested (MarkerGeneric.from_markers
                             (MarkerGeneric.Build "M" (Str "A") "SEG" true false)) <> [])
    by (simpl; discriminate).
  destruct (to_marker_missing_or_mean
              (MarkerGeneric.Build "M" (Str "A") "SEG" true false)
              example_trial [0%nat] eq_refl ltac:(repeat constructor))
    as (_ & Hmean & Hparent).
  split.
  - exact (Hmean None Hne Hseen).
  - destruct (Hparent (translation 1 2 3) None false (translation_rigid 1 2 3) Hne Hseen)
      as (m & Hm & Hback & _).
    exists m. split; [exact Hm | exact Hback].
Defined.

(** On the trial without samples the same marker is not resolved. *)
Example to_marker_without_samples :
  MarkerGeneric.to_marker (MarkerGeneric.Build "M" (Str "A") "SEG" true false)
                          example_empty_trial None
  = Raise (RuntimeError "The markers ('A',) are not present in the c3d").
Proof. reflexivity. Qed.

(** The message names the requested markers by the [repr] of their tuple: a
    label with an apostrophe is written between double quotes. *)
Example to_marker_without_samples_quoted :
  MarkerGeneric.to_marker
    (MarkerGeneric.Build "M" (Str "O'B") "SEG" true false)
    (C3d.Build ["O'B"%string] ["mm"%string] 1 2 (fun _ _ _ => nan)) None
  = Raise (RuntimeError
             ("The markers (" ++ String dquote ("O'B" ++ String dquote ",)")
              ++ " are not present in the c3d")).
Proof. reflexivity. Qed.

(** A label that is not in the trial raises at the lookup of its column. *)
Example to_marker_unknown_label :
  MarkerGeneric.to_marker (MarkerGeneric.Build "M" (Tuple ["A"; "B"]%string) "SEG" true false)
                          example_trial None
  = Raise (ValueError "'B' is not in list").
Proof. reflexivity. Qed.

(** ** Assembly of the chain *)

Lemma truthy_true (s : string) : Segment.truthy s = true <-> s <> EmptyString.
Proof.
  destruct s; simpl; split; intros H; try reflexivity; try discriminate.
  exfalso; apply H; reflexivity.
Qed.

Lemma truthy_false (s : string) : Segment.truthy s = false <-> s = EmptyString.
Proof. destruct s; simpl; split; intros H; try reflexivity; discriminate. Qed.

Lemma existsb_eqb_In (x : string) (l : list string) :
  existsb (String.eqb x) l = true <-> In x l.
Proof.
  rewrite existsb_exists. split.
  - intros (y & Hy & E). apply String.eqb_eq in E. subst y; exact Hy.
  - intros H. exists x. split; [exact H | apply String.eqb_refl].
Qed.

Lemma index_from_not_in (l : list string) (x : string) (i : nat) :
  ~ In x l -> index_from l x i = Raise (ValueError (not_in_list x)).
Proof.
  revert i; induction l as [| y l IH]; simpl; intros i H; [reflexivity |].
  destruct (String.eqb y x) eqn:E.
  - apply String.eqb_eq in E. exfalso; apply H; left; exact E.
  - apply IH. intros Hin; apply H; right; exact Hin.
Qed.

Lemma index_from_in (l : list string) (x : string) (i : nat) :
  In x l -> exists j, index_from l x i = Ok (i + j)%nat /\ nth_error l j = Some x.
Proof.
  revert i; induction l as [| y l IH]; simpl; intros i H; [contradiction |].
  destruct (String.eqb y x) eqn:E.
  - apply String.eqb_eq in E. subst y. exists 0%nat.
    split; [f_equal; lia | reflexivity].
  - destruct H as [H | H]; [subst y; rewrite String.eqb_refl in E; discriminate |].
    destruct (IH (S i) H) as (j & Hj & Hn).
    exists (S j). split; [rewrite Hj; f_equal; lia | exact Hn].
Qed.

Lemma dict_getitem_in {V : Type} (d : list (string * V)) (k : string) (v : V) :
  NoDup (map fst d) -> In (k, v) d -> dict_getitem d k = Ok v.
Proof.
  induction d as [| [k' v'] d IH]; simpl; intros Hnd Hin; [contradiction |].
  inversion Hnd as [| ? ? Hnotin Hnd']; subst.
  destruct (String.eqb k' k) eqn:E.
  - apply String.eqb_eq in E. subst k'.
    destruct Hin as [Hin | Hin]; [injection Hin as <-; reflexivity |].
    exfalso; apply Hnotin. apply in_map_iff. exists (k, v); split; [reflexivity | exact Hin].
  - destruct Hin as [Hin | Hin].
    + injection Hin as -> _. rewrite String.eqb_refl in E; discriminate.
    + apply IH; assumption.
Qed.

Lemma personalize_segment_generic (g : KinematicModelGeneric.t) (c3d : C3d.t)
    (segments : list Segment.t) (name : string) :
  KinematicModelGeneric.personalize_segment g c3d segments name
  = bind (dict_getitem (KinematicModelGeneric.segments g) name)
         (personalize_generic c3d segments).
Proof. reflexivity. Qed.

(** On a dict, the loop over the keys is the loop over the entries. *)
Lemma personalize_segments_entries (g : KinematicModelGeneric.t) (c3d : C3d.t)
    (entries : list (string * SegmentGeneric.t)) (segments : list Segment.t) :
  NoDup (map fst (KinematicModelGeneric.segments g)) ->
  incl entries (KinematicModelGeneric.segments g) ->
  KinematicModelGeneric.personalize_segments g c3d (map fst entries) segments
  = personalize_entries c3d entries segments.
Proof.
  intros Hnd. revert segments.
  induction entries as [| [k s] entries IH]; simpl; intros segments Hincl; [reflexivity |].
  rewrite personalize_segment_generic.
  rewrite (dict_getitem_in _ k s Hnd) by (apply Hincl; left; reflexivity).
  simpl. destruct (personalize_generic c3d segments s) as [segments' | e]; simpl.
  - apply IH. intros x Hx; apply Hincl; right; exact Hx.
  - reflexivity.
Qed.

Lemma personalized_chain_entries (g : KinematicModelGeneric.t) (c3d : C3d.t) :
  NoDup (map fst (KinematicModelGeneric.segments g)) ->
  KinematicModelGeneric.personalized_chain g c3d
  = bind (personalize_entries c3d (KinematicModelGeneric.segments g) [])
         (fun segments => Ok (KinematicChain.Build segments)).
Proof.
  intros Hnd. unfold KinematicModelGeneric.personalized_chain.
  rewrite personalize_segments_entries; [reflexivity | exact Hnd | apply incl_refl].
Qed.

(** Whether a marker or a frame resolves does not depend on the parent
    frame it is expressed in. *)
Lemma to_marker_is_ok_parent (m : MarkerGeneric.t) (c3d : C3d.t) (p : option RT.t) :
  is_ok (MarkerGeneric.to_marker m c3d p) = is_ok (MarkerGeneric.to_marker m c3d None).
Proof.
  unfold MarkerGeneric.to_marker, Marker_from_data, ezc3d_found. cbv [negb].
  destruct (mapM _ _) as [columns | e]; [| reflexivity]. cbv [bind].
  destruct (check_indices c3d columns) as [[] | e]; [| reflexivity].
  destruct (finite4 _); reflexivity.
Qed.

Lemma from_markers_is_ok_parent (origin : Marker.t) (axes : Axis.t * Axis.t * Axis.Name)
    (p : option RT.t) :
  is_ok (RT.from_markers origin axes p) = is_ok (RT.from_markers origin axes None).
Proof.
  unfold RT.from_markers.
  destruct (Axis.Name_eqb _ _); [reflexivity |].
  destruct (RT.reorder _ _) as [[t a1] a2]. simpl.
  destruct (Axis.Name_eqb (snd axes) (Axis.name a1)); [reflexivity |].
  destruct (Axis.Name_eqb (snd axes) (Axis.name a2)); reflexivity.
Qed.

Lemma to_rt_is_ok_parent (r : RTGeneric.t) (c3d : C3d.t) (p : option RT.t) :
  is_ok (RTGeneric.to_rt r c3d p) = is_ok (RTGeneric.to_rt r c3d None).
Proof.
  unfold RTGeneric.to_rt.
  destruct (MarkerGeneric.to_marker _ _ _) as [origin | e]; [| reflexivity]. simpl.
  destruct (AxisGeneric.to_axis (fst _) _ _) as [a0 | e]; [| reflexivity]. simpl.
  destruct (AxisGeneric.to_axis (snd _) _ _) as [a1 | e]; [| reflexivity]. simpl.
  apply from_markers_is_ok_parent.
Qed.

Lemma is_ok_true {A : Type} (c : result A) : is_ok c = true -> exists a, c = Ok a.
Proof. destruct c as [a | e]; simpl; intros H; [exists a; reflexivity | discriminate]. Qed.

Lemma mapM_to_marker_ok (c3d : C3d.t) (p : option RT.t) (ms : list MarkerGeneric.t) :
  Forall (marker_binds c3d) ms ->
  exists markers, mapM (fun m => MarkerGeneric.to_marker m c3d p) ms = Ok markers.
Proof.
  induction 1 as [| m ms Hm _ [markers IH]]; simpl.
  - exists []; reflexivity.
  - unfold marker_binds in Hm. rewrite <- (to_marker_is_ok_parent m c3d p) in Hm.
    apply is_ok_true in Hm as [mk Hmk]. rewrite Hmk; simpl. rewrite IH; simpl.
    eexists; reflexivity.
Qed.

Lemma add_markers_name (markers : list Marker.t) (segment : Segment.t) :
  Segment.name (fold_left Segment.add_marker markers segment) = Segment.name segment.
Proof.
  revert segment; induction markers as [| m markers IH]; simpl; intros segment;
    [reflexivity | rewrite IH; reflexivity].
Qed.

(** A turn of the loop, when it returns, appends one segment with the name
    of the generic one. *)
Lemma personalize_generic_appends (c3d : C3d.t) (segments segments' : list Segment.t)
    (s : SegmentGeneric.t) :
  personalize_generic c3d segments s = Ok segments' ->
  exists segment,
    segments' = segments ++ [segment] /\ Segment.name segment = SegmentGeneric.name s.
Proof.
  unfold personalize_generic. intros H.
  apply bind_ok in H as (parent_index & _ & H).
  apply bind_ok in H as (rt & _ & H).
  apply bind_ok in H as (markers & _ & H).
  injection H as <-. eexists; split; [reflexivity |].
  rewrite add_markers_name; reflexivity.
Qed.

(** The parent lookup is the first thing a turn does: an unknown parent
    fails the turn with the error of [list.index]. *)
Lemma personalize_generic_unknown_parent (c3d : C3d.t) (segments : list Segment.t)
    (s : SegmentGeneric.t) :
  SegmentGeneric.parent_name s <> EmptyString ->
  ~ In (SegmentGeneric.parent_name s) (map Segment.name segments) ->
  personalize_generic c3d segments s
  = Raise (ValueError (not_in_list (SegmentGeneric.parent_name s))).
Proof.
  intros Hne Hnotin. unfold personalize_generic.
  apply truthy_true in Hne. rewrite Hne.
  unfold index. rewrite index_from_not_in by exact Hnotin. reflexivity.
Qed.

(** With a known (or no) parent, a segment whose recipe and markers resolve
    passes its turn. *)
Lemma personalize_generic_ok (c3d : C3d.t) (segments : list Segment.t)
    (s : SegmentGeneric.t) :
  segment_binds c3d s ->
  SegmentGeneric.parent_name s = EmptyString \/
  In (SegmentGeneric.parent_name s) (map Segment.name segments) ->
  exists segment,
    personalize_generic c3d segments s = Ok (segments ++ [segment]) /\
    Segment.name segment = SegmentGeneric.name s.
Proof.
  intros [Hrt Hmarkers] Hparent.
  assert (Hidx : exists parent_index,
    (if Segment.truthy (SegmentGeneric.parent_name s)
     then
       i <- index (map Segment.name segments) (SegmentGeneric.parent_name s) ;;
       Ok (Some i)
     else Ok None) = Ok parent_index /\
    match parent_index with
    | Some i => exists parent, nth_error segments i = Some parent
    | None => True
    end).
  { destruct (Segment.truthy (SegmentGeneric.parent_name s)) eqn:Et.
    - destruct Hparent as [E | Hin];
        [apply truthy_false in E; rewrite E in Et; discriminate |].
      destruct (index_from_in _ _ 0%nat Hin) as (j & Hj & Hn).
      unfold index. rewrite Hj. simpl. exists (Some j). split; [reflexivity |].
      rewrite nth_error_map in Hn.
      destruct (nth_error segments j) as [parent |]; [| discriminate].
      exists parent; reflexivity.
    - exists None; split; [reflexivity | exact I]. }
  destruct Hidx as (parent_index & Hidx & Hparent_at).
  assert (Hframe : exists rt,
    match SegmentGeneric.rt s with
    | None => Ok RT.default
    | Some generic =>
        parent_rt <-
          match parent_index with
          | Some parent_index =>
              parent <- getitem segments parent_index ;;
              Ok (Segment.rt parent)
          | None => Ok None
          end ;;
        RTGeneric.to_rt generic c3d parent_rt
    end = Ok rt).
  { destruct (SegmentGeneric.rt s) as [generic |]; [| eexists; reflexivity].
    assert (Hp : exists parent_rt,
      match parent_index with
      | Some parent_index =>
          parent <- getitem segments parent_index ;;
          Ok (Segment.rt parent)
      | None => Ok None
      end = Ok parent_rt).
    { destruct parent_index as [i |]; [| eexists; reflexivity].
      destruct Hparent_at as [parent Hn]. unfold getitem. rewrite Hn. simpl.
      eexists; reflexivity. }
    destruct Hp as [parent_rt Hp]. rewrite Hp. simpl.
    unfold rt_binds in Hrt. rewrite <- (to_rt_is_ok_parent generic c3d parent_rt) in Hrt.
    apply is_ok_true in Hrt. exact Hrt. }
  destruct Hframe as [rt Hframe].
  destruct (mapM_to_marker_ok c3d (Some rt) _ Hmarkers) as [markers Hm].
  unfold personalize_generic. rewrite Hidx. simpl. rewrite Hframe. simpl.
  rewrite Hm. simpl. eexists; split; [reflexivity |].
  rewrite add_markers_name; reflexivity.
Qed.

Lemma personalize_entries_names (c3d : C3d.t) (entries : list (string * SegmentGeneric.t))
    (segments segments' : list Segment.t) :
  personalize_entries c3d entries segments = Ok segments' ->
  map Segment.name segments' = map Segment.name segments ++ declared entries.
Proof.
  revert segments; induction entries as [| [k s] entries IH]; simpl; intros segments H.
  - injection H as <-. rewrite app_nil_r; reflexivity.
  - apply bind_ok in H as (segments1 & H1 & H).
    apply personalize_generic_appends in H1 as (segment & -> & Hname).
    rewrite (IH _ H), map_app. simpl. rewrite Hname, <- app_assoc. reflexivity.
Qed.

(** The loop cannot get past a segment whose parent is not declared before
    it. *)
Lemma personalize_entries_unknown_parent (c3d : C3d.t)
    (l1 l2 : list (string * SegmentGeneric.t)) (k : string) (s : SegmentGeneric.t)
    (segments : list Segment.t) :
  SegmentGeneric.parent_name s <> EmptyString ->
  ~ In (SegmentGeneric.parent_name s) (map Segment.name segments ++ declared l1) ->
  exists e, personalize_entries c3d (l1 ++ (k, s) :: l2) segments = Raise e.
Proof.
  intros Hne. revert segments.
  induction l1 as [| [k' s'] l1 IH]; simpl; intros segments Hnotin.
  - rewrite app_nil_r in Hnotin.
    rewrite (personalize_generic_unknown_parent c3d segments s Hne Hnotin). simpl.
    eexists; reflexivity.
  - destruct (personalize_generic c3d segments s') as [segments1 | e] eqn:E; simpl.
    + apply personalize_generic_appends in E as (segment & -> & Hname).
      apply IH. rewrite map_app. simpl. rewrite Hname, <- app_assoc. exact Hnotin.
    + eexists; reflexivity.
Qed.

(** When every segment resolves, the loop fails at the first unknown
    parent, with the error of the lookup, and otherwise builds the segments
    in the order of the entries. *)
Lemma personalize_entries_first_unknown (c3d : C3d.t)
    (entries : list (string * SegmentGeneric.t)) (segments : list Segment.t) :
  Forall (fun e => segment_binds c3d (snd e)) entries ->
  match first_unknown_parent (map Segment.name segments) entries with
  | Some p => personalize_entries c3d entries segments = Raise (ValueError (not_in_list p))
  | None =>
      exists segments',
        personalize_entries c3d entries segments = Ok segments' /\
        map Segment.name segments' = map Segment.name segments ++ declared entries
  end.
Proof.
  intros Hb. revert segments.
  induction Hb as [| [k s] entries Hs _ IH]; simpl; intros segments.
  - exists segments. split; [reflexivity | rewrite app_nil_r; reflexivity].
  - simpl in Hs.
    destruct (Segment.truthy (SegmentGeneric.parent_name s)
              && negb (existsb (String.eqb (SegmentGeneric.parent_name s))
                               (map Segment.name segments))) eqn:E.
    + apply andb_prop in E as [Et En].
      apply truthy_true in Et. apply negb_true_iff in En.
      rewrite personalize_generic_unknown_parent; [reflexivity | exact Et |].
      intros Hin. apply existsb_eqb_In in Hin. rewrite Hin in En; discriminate.
    + assert (Hparent : SegmentGeneric.parent_name s = EmptyString \/
                        In (SegmentGeneric.parent_name s) (map Segment.name segments)).
      { apply andb_false_iff in E as [Et | En].
        - left; apply truthy_false, Et.
        - right. apply negb_false_iff in En. apply existsb_eqb_In, En. }
      destruct (personalize_generic_ok c3d segments s Hs Hparent) as (segment & Hok & Hname).
      rewrite Hok. simpl.
      specialize (IH (segments ++ [segment])).
      rewrite map_app in IH. simpl in IH. rewrite Hname in IH.
      destruct (first_unknown_parent _ entries) as [p |]; [exact IH |].
      destruct IH as (segments' & Hrun & Hnames).
      exists segments'. split; [exact Hrun |].
      rewrite Hnames, <- app_assoc. reflexivity.
Qed.

Lemma first_unknown_parent_none (earlier : list string)
    (entries : list (string * SegmentGeneric.t)) :
  (forall l1 k s l2,
      entries = l1 ++ (k, s) :: l2 ->
      SegmentGeneric.parent_name s = EmptyString \/
      In (SegmentGeneric.parent_name s) (earlier ++ declared l1)) ->
  first_unknown_parent earlier entries = None.
Proof.
  revert earlier; induction entries as [| [k s] entries IH]; simpl; intros earlier H;
    [reflexivity |].
  destruct (H [] k s entries eq_refl) as [E | Hin].
  - apply truthy_false in E. rewrite E. simpl.
    apply IH. intros l1 k' s' l2 ->.
    rewrite <- app_assoc. apply (H ((k, s) :: l1) k' s' l2). reflexivity.
  - simpl in Hin. rewrite app_nil_r in Hin. apply existsb_eqb_In in Hin.
    rewrite Hin. simpl. rewrite andb_false_r.
    apply IH. intros l1 k' s' l2 ->.
    rewrite <- app_assoc. apply (H ((k, s) :: l1) k' s' l2). reflexivity.
Qed.

Lemma first_unknown_parent_some (earlier : list string)
    (entries : list (string * SegmentGeneric.t)) :
  (exists l1 k s l2,
      entries = l1 ++ (k, s) :: l2 /\
      SegmentGeneric.parent_name s <> EmptyString /\
      ~ In (SegmentGeneric.parent_name s) (earlier ++ declared l1)) ->
  exists p k s,
    first_unknown_parent earlier entries = Some p /\
    In (k, s) entries /\ SegmentGeneric.parent_name s = p /\ p <> EmptyString.
Proof.
  revert earlier; induction entries as [| [k0 s0] entries IH]; simpl; intros earlier H.
  - destruct H as (l1 & k & s & l2 & E & _). destruct l1; discriminate E.
  - destruct (Segment.truthy (SegmentGeneric.parent_name s0)
              && negb (existsb (String.eqb (SegmentGeneric.parent_name s0)) earlier)) eqn:E.
    + apply andb_prop in E as [Et _]. apply truthy_true in Et.
      exists (SegmentGeneric.parent_name s0), k0, s0.
      split; [reflexivity |]. split; [left; reflexivity |]. split; [reflexivity | exact Et].
    + destruct H as (l1 & k & s & l2 & Heq & Hne & Hnotin).
      destruct l1 as [| e l1]; simpl in Heq.
      * injection Heq as <- <- <-. simpl in Hnotin. rewrite app_nil_r in Hnotin.
        exfalso. apply andb_false_iff in E as [Et | En].
        -- apply truthy_false in Et. contradiction.
        -- apply negb_false_iff in En. apply existsb_eqb_In in En. contradiction.
      * injection Heq as <- ->.
        destruct (IH (earlier ++ [SegmentGeneric.name s0])) as (p & k' & s' & Hp & Hin & Hpn).
        { exists l1, k, s, l2. split; [reflexivity |]. split; [exact Hne |].
          rewrite <- app_assoc. exact Hnotin. }
        exists p, k', s'. split; [exact Hp |]. split; [right; exact Hin | exact Hpn].
Qed.

(** The first unknown parent is the parent name of a segment before which
    every parent name is empty or declared earlier. *)
Lemma first_unknown_parent_first (earlier : list string)
    (entries : list (string * SegmentGeneric.t)) (p : string) :
  first_unknown_parent earlier entries = Some p ->
  exists l1 k s l2,
    entries = l1 ++ (k, s) :: l2 /\
    SegmentGeneric.parent_name s = p /\ p <> EmptyString /\
    ~ In p (earlier ++ declared l1) /\
    (forall l1a k' s' l1b,
        l1 = l1a ++ (k', s') :: l1b ->
        SegmentGeneric.parent_name s' = EmptyString \/
        In (SegmentGeneric.parent_name s') (earlier ++ declared l1a)).
Proof.
  revert earlier; induction entries as [| [k0 s0] entries IH]; simpl; intros earlier H;
    [discriminate |].
  destruct (Segment.truthy (SegmentGeneric.parent_name s0)
            && negb (existsb (String.eqb (SegmentGeneric.parent_name s0)) earlier)) eqn:E.
  - injection H as <-. apply andb_prop in E as [Et En].
    apply truthy_true in Et. apply negb_true_iff in En.
    exists [], k0, s0, entries. split; [reflexivity |]. split; [reflexivity |].
    split; [exact Et |]. split.
    + simpl. rewrite app_nil_r. intros Hin. apply existsb_eqb_In in Hin.
      rewrite Hin in En; discriminate.
    + intros l1a k' s' l1b Heq. destruct l1a; discriminate Heq.
  - destruct (IH _ H) as (l1 & k & s & l2 & Heq & Hp & Hne & Hnotin & Hbefore).
    exists ((k0, s0) :: l1), k, s, l2. subst entries.
    split; [reflexivity |]. split; [exact Hp |]. split; [exact Hne |]. split.
    + simpl. rewrite <- app_assoc in Hnotin. exact Hnotin.
    + intros l1a k' s' l1b Hl1. destruct l1a as [| e l1a]; simpl in Hl1.
      * injection Hl1 as <- <- <-. simpl. rewrite app_nil_r.
        apply andb_false_iff in E as [Et | En].
        -- left; apply truthy_false, Et.
        -- right. apply negb_false_iff in En. apply existsb_eqb_In, En.
      * injection Hl1 as <- ->.
        destruct (Hbefore l1a k' s' l1b eq_refl) as [He | Hin]; [left; exact He |].
        right. simpl. rewrite <- app_assoc in Hin. exact Hin.
Qed.

Lemma declared_keys (entries : list (string * SegmentGeneric.t)) :
  Forall (fun e => SegmentGeneric.name (snd e) = fst e) entries ->
  declared entries = map fst entries.
Proof.
  induction 1 as [| e entries He _ IH]; simpl; [reflexivity |].
  rewrite He, IH; reflexivity.
Qed.

Lemma personalize_segment_appends (g : KinematicModelGeneric.t) (c3d : C3d.t)
    (segments segments' : list Segment.t) (name : string) :
  KinematicModelGeneric.personalize_segment g c3d segments name = Ok segments' ->
  exists segment, segments' = segments ++ [segment].
Proof.
  rewrite personalize_segment_generic. intros H.
  apply bind_ok in H as (s & _ & H).
  apply personalize_generic_appends in H as (segment & -> & _).
  exists segment; reflexivity.
Qed.

Lemma personalize_segments_length (g : KinematicModelGeneric.t) (c3d : C3d.t)
    (names : list string) (segments segments' : list Segment.t) :
  KinematicModelGeneric.personalize_segments g c3d names segments = Ok segments' ->
  List.length segments' = (List.length segments + List.length names)%nat.
Proof.
  revert segments; induction names as [| name names IH]; simpl; intros segments H.
  - injection H as <-. lia.
  - apply bind_ok in H as (segments1 & H1 & H).
    apply personalize_segment_appends in H1 as (segment & ->).
    rewrite (IH _ H), length_app. simpl. lia.
Qed.

Lemma personalize_segments_app (g : KinematicModelGeneric.t) (c3d : C3d.t)
    (names1 names2 : list string) (segments : list Segment.t) :
  KinematicModelGeneric.personalize_segments g c3d (names1 ++ names2) segments
  = bind (KinematicModelGeneric.personalize_segments g c3d names1 segments)
         (fun segments1 => KinematicModelGeneric.personalize_segments g c3d names2 segments1).
Proof.
  revert segments; induction names1 as [| name names1 IH]; simpl; intros segments;
    [reflexivity |].
  destruct (KinematicModelGeneric.personalize_segment g c3d segments name); simpl;
    [apply IH | reflexivity].
Qed.

(** A turn that raises aborts the assembly with its error. *)
Lemma personalized_chain_aborts (g : KinematicModelGeneric.t) (c3d : C3d.t)
    (names1 names2 : list string) (name : string) (segments : list Segment.t)
    (e : exception) :
  map fst (KinematicModelGeneric.segments g) = names1 ++ name :: names2 ->
  KinematicModelGeneric.personalize_segments g c3d names1 [] = Ok segments ->
  KinematicModelGeneric.personalize_segment g c3d segments name = Raise e ->
  KinematicModelGeneric.personalized_chain g c3d = Raise e.
Proof.
  intros Hnames H1 H2. unfold KinematicModelGeneric.personalized_chain.
  rewrite Hnames, personalize_segments_app, H1. simpl. rewrite H2. reflexivity.
Qed.

(** The three ways a turn raises: the lookup of the parent, the binding of
    the frame, the binding of a marker. *)
Lemma personalize_generic_raises (c3d : C3d.t) (segments : list Segment.t)
    (s : SegmentGeneric.t) (e : exception) :
  personalize_generic c3d segments s = Raise e ->
  (SegmentGeneric.parent_name s <> EmptyString /\
   index (map Segment.name segments) (SegmentGeneric.parent_name s) = Raise e) \/
  (exists generic parent_rt,
      SegmentGeneric.rt s = Some generic /\
      RTGeneric.to_rt generic c3d parent_rt = Raise e) \/
  (exists rt,
      mapM (fun marker => MarkerGeneric.to_marker marker c3d (Some rt))
           (SegmentGeneric.markers s) = Raise e).
Proof.
  unfold personalize_generic. intros H.
  apply bind_raise in H as [H | (parent_index & Hidx & H)].
  - left. destruct (Segment.truthy (SegmentGeneric.parent_name s)) eqn:Et; [| discriminate].
    split; [apply truthy_true, Et |].
    destruct (index _ _); [discriminate | simpl in H].
    injection H as ->; reflexivity.
  - apply bind_raise in H as [H | (rt & Hrt & H)].
    + destruct (SegmentGeneric.rt s) as [generic |]; [| discriminate].
      apply bind_raise in H as [H | (parent_rt & _ & H)].
      * exfalso. destruct parent_index as [i |]; [| discriminate].
        destruct (Segment.truthy (SegmentGeneric.parent_name s)); [| discriminate].
        apply bind_ok in Hidx as (j & Hj & Hi). injection Hi as ->.
        unfold index in Hj.
        assert (Hin : In (SegmentGeneric.parent_name s) (map Segment.name segments)).
        { destruct (in_dec string_dec (SegmentGeneric.parent_name s)
                           (map Segment.name segments)) as [Hin | Hnotin]; [exact Hin |].
          rewrite index_from_not_in in Hj by exact Hnotin. discriminate. }
        destruct (index_from_in _ _ 0%nat Hin) as (j' & Hj' & Hn).
        rewrite Hj in Hj'. injection Hj' as ->. simpl in Hn.
        rewrite nth_error_map in Hn. unfold getitem in H.
        destruct (nth_error segments j'); discriminate.
      * right; left. exists generic, parent_rt. split; [reflexivity | exact H].
    + right; right. exists rt.
      apply bind_raise in H as [H | (markers & _ & H)]; [exact H | discriminate].
Qed.

(** ** The methods that build a generic model keep it well formed *)

Lemma dict_setitem_keys {V : Type} (d : list (string * V)) (k : string) (v : V) :
  map fst (dict_setitem d k v)
  = if existsb (String.eqb k) (map fst d) then map fst d else map fst d ++ [k].
Proof.
  induction d as [| [k' v'] d IH]; simpl; [reflexivity |].
  rewrite (String.eqb_sym k k').
  destruct (String.eqb k' k) eqn:E; simpl; [reflexivity |].
  rewrite IH. destruct (existsb _ _); reflexivity.
Qed.

Lemma dict_setitem_Forall {V : Type} (P : string * V -> Prop) (d : list (string * V))
    (k : string) (v : V) :
  Forall P d -> P (k, v) -> Forall P (dict_setitem d k v).
Proof.
  intros Hd Hkv. induction Hd as [| [k' v'] d Hx Hd' IH]; simpl.
  - constructor; [exact Hkv | constructor].
  - destruct (String.eqb k' k) eqn:E.
    + apply String.eqb_eq in E. subst k'. constructor; assumption.
    + constructor; assumption.
Qed.

Lemma dict_setitem_NoDup {V : Type} (d : list (string * V)) (k : string) (v : V) :
  NoDup (map fst d) -> NoDup (map fst (dict_setitem d k v)).
Proof.
  intros H. rewrite dict_setitem_keys.
  destruct (existsb (String.eqb k) (map fst d)) eqn:E; [exact H |].
  apply NoDup_app; [exact H | repeat constructor; intros [] |].
  intros x Hx [<- | []].
  apply existsb_eqb_In in Hx. rewrite Hx in E; discriminate.
Qed.

Lemma dict_getitem_Forall {V : Type} (P : string * V -> Prop) (d : list (string * V))
    (k : string) (v : V) :
  Forall P d -> dict_getitem d k = Ok v -> P (k, v).
Proof.
  induction 1 as [| [k' v'] d Hx _ IH]; simpl; intros H; [discriminate |].
  destruct (String.eqb k' k) eqn:E.
  - apply String.eqb_eq in E. subst k'. injection H as <-. exact Hx.
  - apply IH, H.
Qed.

Lemma wf_model_init : wf_model KinematicModelGeneric.init.
Proof. split; constructor. Qed.

Lemma wf_model_add_segment (g : KinematicModelGeneric.t)
    (name parent_name translations rotations : string) :
  wf_model g ->
  wf_model (KinematicModelGeneric.add_segment g name parent_name translations rotations).
Proof.
  intros [Hnd Hn]. split; simpl.
  - apply dict_setitem_NoDup, Hnd.
  - apply dict_setitem_Forall; [exact Hn | reflexivity].
Qed.

Lemma wf_model_add_marker (g g' : KinematicModelGeneric.t) (segment name : string)
    (from_markers : option str_or_tuple) (is_technical is_anatomical : bool) :
  wf_model g ->
  KinematicModelGeneric.add_marker g segment name from_markers is_technical is_anatomical
  = Ok g' ->
  wf_model g'.
Proof.
  intros [Hnd Hn] H. unfold KinematicModelGeneric.add_marker in H.
  apply bind_ok in H as (s & Hs & H). injection H as <-.
  split; simpl.
  - apply dict_setitem_NoDup, Hnd.
  - apply dict_setitem_Forall; [exact Hn |].
    apply (dict_getitem_Forall _ _ _ _ Hn Hs).
Qed.

Lemma wf_model_set_rt (g g' : KinematicModelGeneric.t) (segment_name : string)
    (origin_markers : str_or_tuple) (first_axis_name : Axis.Name)
    (first_axis_markers : str_or_tuple * str_or_tuple) (second_axis_name : Axis.Name)
    (second_axis_markers : str_or_tuple * str_or_tuple) (axis_to_keep : Axis.Name) :
  wf_model g ->
  KinematicModelGeneric.set_rt g segment_name origin_markers first_axis_name
    first_axis_markers second_axis_name second_axis_markers axis_to_keep = Ok g' ->
  wf_model g'.
Proof.
  intros [Hnd Hn] H. unfold KinematicModelGeneric.set_rt in H.
  apply bind_ok in H as (s & Hs & H). injection H as <-.
  split; simpl.
  - apply dict_setitem_NoDup, Hnd.
  - apply dict_setitem_Forall; [exact Hn |].
    apply (dict_getitem_Forall _ _ _ _ Hn Hs).
Qed.

Lemma generate_personalized_raise (ext : externals) (g : KinematicModelGeneric.t)
    (c3d : C3d.t) (fs : filesystem) (save_path : string) (e : exception) :
  KinematicModelGeneric.personalized_chain g c3d = Raise e ->
  KinematicModelGeneric.generate_personalized ext g c3d fs save_path = (Raise e, fs).
Proof.
  intros H. unfold KinematicModelGeneric.generate_personalized. rewrite H. reflexivity.
Qed.

Lemma generate_personalized_ok (ext : externals) (g : KinematicModelGeneric.t)
    (c3d : C3d.t) (fs : filesystem) (save_path : string) (chain : KinematicChain.t) :
  KinematicModelGeneric.personalized_chain g c3d = Ok chain ->
  KinematicModelGeneric.generate_personalized ext g c3d fs save_path
  = KinematicChain.write ext chain fs save_path.
Proof.
  intros H. unfold KinematicModelGeneric.generate_personalized. rewrite H. reflexivity.
Qed.

(** With every frame and marker resolving, an unknown parent fails the
    assembly with the error of the lookup of the first parent name that is
    not declared before its segment... *)
Lemma personalized_chain_unknown_parent (g : KinematicModelGeneric.t) (c3d : C3d.t) :
  wf_model g ->
  Forall (fun e => segment_binds c3d (snd e)) (KinematicModelGeneric.segments g) ->
  unknown_parent (KinematicModelGeneric.segments g) ->
  exists l1 k s l2,
    KinematicModelGeneric.segments g = l1 ++ (k, s) :: l2 /\
    SegmentGeneric.parent_name s <> EmptyString /\
    ~ In (SegmentGeneric.parent_name s) (declared l1) /\
    parents_precede l1 /\
    KinematicModelGeneric.personalized_chain g c3d
    = Raise (ValueError (not_in_list (SegmentGeneric.parent_name s))).
Proof.
  intros [Hnd Hn] Hb Hu.
  destruct (first_unknown_parent_some [] (KinematicModelGeneric.segments g) Hu)
    as (p & _ & _ & Hp & _).
  destruct (first_unknown_parent_first [] _ p Hp)
    as (l1 & k & s & l2 & Heq & Hpn & Hne & Hnotin & Hbefore).
  subst p. exists l1, k, s, l2.
  split; [exact Heq |]. split; [exact Hne |]. split; [exact Hnotin |].
  split; [exact Hbefore |].
  rewrite personalized_chain_entries by exact Hnd.
  pose proof (personalize_entries_first_unknown c3d _ [] Hb) as H.
  simpl in H. rewrite Hp in H. rewrite H. reflexivity.
Qed.

(** ... and parents that precede their children make it succeed, in the
    order of declaration. *)
Lemma personalized_chain_parents_precede (g : KinematicModelGeneric.t) (c3d : C3d.t) :
  wf_model g ->
  Forall (fun e => segment_binds c3d (snd e)) (KinematicModelGeneric.segments g) ->
  parents_precede (KinematicModelGeneric.segments g) ->
  exists chain,
    KinematicModelGeneric.personalized_chain g c3d = Ok chain /\
    map Segment.name (KinematicChain.segments chain)
    = map fst (KinematicModelGeneric.segments g).
Proof.
  intros [Hnd Hn] Hb Hp.
  rewrite personalized_chain_entries by exact Hnd.
  pose proof (personalize_entries_first_unknown c3d _ [] Hb) as H.
  simpl in H. rewrite (first_unknown_parent_none [] _ Hp) in H.
  destruct H as (segments & Hrun & Hnames).
  exists (KinematicChain.Build segments). rewrite Hrun. simpl.
  split; [reflexivity |]. rewrite Hnames. simpl. apply declared_keys, Hn.
Qed.

(** Whether or not the other segments resolve, an unknown parent fails the
    assembly. *)
Lemma personalized_chain_unknown_parent_fails (g : KinematicModelGeneric.t) (c3d : C3d.t) :
  wf_model g ->
  unknown_parent (KinematicModelGeneric.segments g) ->
  exists e, KinematicModelGeneric.personalized_chain g c3d = Raise e.
Proof.
  intros [Hnd Hn] (l1 & k & s & l2 & Heq & Hne & Hnotin).
  rewrite personalized_chain_entries by exact Hnd.
  destruct (personalize_entries_unknown_parent c3d l1 l2 k s [] Hne Hnotin) as [e He].
  exists e. rewrite Heq, He. reflexivity.
Qed.

(** C3, as the code has it.  On a model built by the methods of
    [KinematicModelGeneric]: a non-empty parent name that is not the name of
    an earlier-declared segment makes [generate_personalized] fail, no chain
    being produced and nothing written; when every frame and marker of the
    model resolves against the trial, the error is the one of the lookup of
    the first such parent name, the [ValueError] of [list.index] with the
    [repr] of that name, the segments before it having their parents in
    order; and, if instead every non-empty parent name is declared earlier,
    the assembly succeeds, the chain lists the segments in declaration order
    and it is the chain that is written. *)
Theorem generate_personalized_parent_order (ext : externals) (g : KinematicModelGeneric.t)
    (c3d : C3d.t) (fs : filesystem) (save_path : string) :
  wf_model g ->
  (unknown_parent (KinematicModelGeneric.segments g) ->
   exists e,
     KinematicModelGeneric.personalized_chain g c3d = Raise e /\
     KinematicModelGeneric.generate_personalized ext g c3d fs save_path = (Raise e, fs)) /\
  (Forall (fun e => segment_binds c3d (snd e)) (KinematicModelGeneric.segments g) ->
   unknown_parent (KinematicModelGeneric.segments g) ->
   exists l1 k s l2,
     KinematicModelGeneric.segments g = l1 ++ (k, s) :: l2 /\
     SegmentGeneric.parent_name s <> EmptyString /\
     ~ In (SegmentGeneric.parent_name s) (declared l1) /\
     parents_precede l1 /\
     KinematicModelGeneric.personalized_chain g c3d
     = Raise (ValueError (repr_str (SegmentGeneric.parent_name s) ++ " is not in list")) /\
     KinematicModelGeneric.generate_personalized ext g c3d fs save_path
     = (Raise (ValueError (repr_str (SegmentGeneric.parent_name s) ++ " is not in list")),
        fs)) /\
  (Forall (fun e => segment_binds c3d (snd e)) (KinematicModelGeneric.segments g) ->
   parents_precede (KinematicModelGeneric.segments g) ->
   exists chain,
     KinematicModelGeneric.personalized_chain g c3d = Ok chain /\
     map Segment.name (KinematicChain.segments chain)
     = map fst (KinematicModelGeneric.segments g) /\
     KinematicModelGeneric.generate_personalized ext g c3d fs save_path
     = KinematicChain.write ext chain fs save_path).
Proof.
  intros Hwf. split; [| split].
  - intros Hu.
    destruct (personalized_chain_unknown_parent_fails g c3d Hwf Hu) as [e He].
    exists e. split; [exact He | apply generate_personalized_raise, He].
  - intros Hb Hu.
    destruct (personalized_chain_unknown_parent g c3d Hwf Hb Hu)
      as (l1 & k & s & l2 & Heq & Hne & Hnotin & Hbefore & Hrun).
    exists l1, k, s, l2.
    split; [exact Heq |]. split; [exact Hne |]. split; [exact Hnotin |].
    split; [exact Hbefore |]. split; [exact Hrun |].
    apply generate_personalized_raise, Hrun.
  - intros Hb Hp.
    destruct (personalized_chain_parents_precede g c3d Hwf Hb Hp) as (chain & Hrun & Hnames).
    exists chain. split; [exact Hrun |]. split; [exact Hnames |].
    apply generate_personalized_ok, Hrun.
Qed.

(** The examples: a parent declared after its child, and before it. *)
Lemma example_trial_binds_marker (name parent_name : string) :
  marker_binds example_trial (MarkerGeneric.Build name (Str "A") parent_name true false).
Proof. reflexivity. Qed.

Lemma example_parent_first_precede :
  parents_precede (KinematicModelGeneric.segments example_parent_first).
Proof.
  intros l1 k s l2 E. simpl in E.
  destruct l1 as [| e1 [| e2 [| e3 l1]]]; simpl in E.
  - injection E as <- <- <-. left; reflexivity.
  - injection E as <- <- <- <-. right; left; reflexivity.
  - injection E as _ _ E. discriminate E.
  - injection E as _ _ E. discriminate E.
Qed.

Lemma example_child_first_unknown :
  unknown_parent (KinematicModelGeneric.segments example_child_first).
Proof.
  exists [], "THIGH"%string,
    (SegmentGeneric.Build "THIGH" "PELVIS" EmptyString EmptyString [] None),
    [("PELVIS"%string,
      SegmentGeneric.Build "PELVIS" EmptyString EmptyString EmptyString
        [MarkerGeneric.Build "A" (Str "A") "PELVIS" true false] None)].
  split; [reflexivity |]. split; [discriminate | intros []].
Qed.

Lemma example_models_wf :
  wf_model example_root /\ wf_model example_orphan /\
  wf_model example_child_first /\ wf_model example_parent_first.
Proof.
  unfold wf_model; simpl.
  repeat split; repeat constructor; simpl; intuition discriminate.
Qed.

Lemma generate_personalized_parent_order_witness :
  (exists chain,
      KinematicModelGeneric.personalized_chain example_parent_first example_trial = Ok chain /\
      map Segment.name (KinematicChain.segments chain) = ["PELVIS"; "THIGH"]%string /\
      KinematicModelGeneric.generate_personalized example_externals example_parent_first
        example_trial empty_filesystem "model.bioMod"
      = KinematicChain.write example_externals chain empty_filesystem "model.bioMod") /\
  (exists l1 k s l2,
      KinematicModelGeneric.segments example_child_first = l1 ++ (k, s) :: l2 /\
      SegmentGeneric.parent_name s <> EmptyString /\
      ~ In (SegmentGeneric.parent_name s) (declared l1) /\
      KinematicModelGeneric.generate_personalized example_externals example_child_first
        example_trial empty_filesystem "model.bioMod"
      = (Raise (ValueError (repr_str (SegmentGeneric.parent_name s) ++ " is not in list")),
         empty_filesystem)).
Proof.
  split.
  - refine (proj2 (proj2 (generate_personalized_parent_order
                            example_externals example_parent_first example_trial
                            empty_filesystem "model.bioMod" _)) _ _).
    + apply example_models_wf.
    + repeat constructor.
    + apply example_parent_first_precede.
  - destruct (proj1 (proj2 (generate_personalized_parent_order
                              example_externals example_child_first example_trial
                              empty_filesystem "model.bioMod"
                              (proj1 (proj2 (proj2 example_models_wf)))))
                    ltac:(repeat constructor) example_child_first_unknown)
      as (l1 & k & s & l2 & Heq & Hne & Hnotin & _ & _ & Hrun).
    exists l1, k, s, l2.
    split; [exact Heq |]. split; [exact Hne |]. split; [exact Hnotin | exact Hrun].
Defined.

(** The same two segments declared child first: the lookup of "PELVIS"
    fails, and nothing is written. *)
Example generate_personalized_child_first :
  KinematicModelGeneric.generate_personalized example_externals example_child_first
    example_trial empty_filesystem "model.bioMod"
  = (Raise (ValueError "'PELVIS' is not in list"), empty_filesystem).
Proof. reflexivity. Qed.

(** The message holds the [repr] of the name: a parent name with an
    apostrophe is written between double quotes. *)
Example generate_personalized_quoted_parent :
  KinematicModelGeneric.generate_personalized example_externals example_quoted_parent
    example_trial empty_filesystem "model.bioMod"
  = (Raise (ValueError (String dquote ("O'B" ++ String dquote " is not in list"))),
     empty_filesystem).
Proof. reflexivity. Qed.

(** C3, as stated, fails.  In [example_root] no segment names a parent, and
    in [example_orphan] the second segment names a parent declared nowhere;
    on a trial in which the marker "A" has no sample both assemblies fail
    at the marker of the first segment: the first model does not assemble
    although its parents are in order, and the second does not fail with the
    error of the parent lookup. *)
Lemma generate_personalized_fails_on_missing_marker :
  parents_precede (KinematicModelGeneric.segments example_root) /\
  KinematicModelGeneric.personalized_chain example_root example_empty_trial
  = Raise (markers_not_present ["A"%string]) /\
  unknown_parent (KinematicModelGeneric.segments example_orphan) /\
  KinematicModelGeneric.personalized_chain example_orphan example_empty_trial
  = Raise (markers_not_present ["A"%string]) /\
  markers_not_present ["A"%string] <> ValueError (not_in_list "PELVIS").
Proof.
  split; [| split; [reflexivity | split; [| split; [reflexivity | discriminate]]]].
  - intros l1 k s l2 E. simpl in E.
    destruct l1 as [| e1 [| e2 l1]]; simpl in E.
    + injection E as <- <- <-. left; reflexivity.
    + injection E as _ E. discriminate E.
    + injection E as _ E. discriminate E.
  - exists [("ROOT"%string,
             SegmentGeneric.Build "ROOT" EmptyString EmptyString EmptyString
               [MarkerGeneric.Build "A" (Str "A") "ROOT" true false] None)],
      "THIGH"%string,
      (SegmentGeneric.Build "THIGH" "PELVIS" EmptyString EmptyString [] None), [].
    split; [reflexivity |]. split; [discriminate |].
    simpl. intros [H | []]. discriminate H.
Qed.

(** C4.  [generate_personalized] writes all or nothing: when the assembly
    raises, in particular when the turn of any segment raises (at the lookup
    of its parent, the binding of its frame or the binding of one of its
    markers), the error is returned and the file system is left as it was;
    the file system changes only when the whole chain, one segment for each
    segment of the model, has been assembled, and what is then written to
    [save_path] is that chain. *)
Theorem generate_personalized_all_or_nothing (ext : externals)
    (g : KinematicModelGeneric.t) (c3d : C3d.t) (fs : filesystem) (save_path : string) :
  (forall e : exception,
      KinematicModelGeneric.personalized_chain g c3d = Raise e ->
      KinematicModelGeneric.generate_personalized ext g c3d fs save_path = (Raise e, fs)) /\
  (forall (names1 names2 : list string) (name : string) (segments : list Segment.t)
          (e : exception),
      map fst (KinematicModelGeneric.segments g) = names1 ++ name :: names2 ->
      KinematicModelGeneric.personalize_segments g c3d names1 [] = Ok segments ->
      KinematicModelGeneric.personalize_segment g c3d segments name = Raise e ->
      KinematicModelGeneric.generate_personalized ext g c3d fs save_path = (Raise e, fs)) /\
  (forall (r : result unit) (fs' : filesystem),
      KinematicModelGeneric.generate_personalized ext g c3d fs save_path = (r, fs') ->
      fs' <> fs ->
      exists chain,
        KinematicModelGeneric.personalized_chain g c3d = Ok chain /\
        List.length (KinematicChain.segments chain)
        = List.length (KinematicModelGeneric.segments g) /\
        r = Ok tt /\
        files fs' save_path = Some (KinematicChain.__str__ ext chain)).
Proof.
  split; [| split].
  - intros e He. apply generate_personalized_raise, He.
  - intros names1 names2 name segments e Hnames H1 H2.
    apply generate_personalized_raise.
    apply (personalized_chain_aborts g c3d names1 names2 name segments e); assumption.
  - intros r fs' Hrun Hdiff.
    unfold KinematicModelGeneric.generate_personalized in Hrun.
    destruct (KinematicModelGeneric.personalized_chain g c3d) as [chain | e] eqn:Hchain.
    + exists chain. split; [reflexivity |]. split.
      * unfold KinematicModelGeneric.personalized_chain in Hchain.
        apply bind_ok in Hchain as (segments & Hsegs & Hc). injection Hc as <-.
        apply personalize_segments_length in Hsegs. simpl in *.
        rewrite Hsegs, length_map. reflexivity.
      * unfold KinematicChain.write, write_file in Hrun.
        destruct (can_open fs save_path).
        -- injection Hrun as <- <-. split; [reflexivity |]. simpl.
           rewrite String.eqb_refl. reflexivity.
        -- injection Hrun as _ <-. exfalso; apply Hdiff; reflexivity.
    + injection Hrun as _ <-. exfalso; apply Hdiff; reflexivity.
Qed.

Lemma generate_personalized_all_or_nothing_witness :
  KinematicModelGeneric.generate_personalized example_externals example_root
    example_empty_trial empty_filesystem "model.bioMod"
  = (Raise (markers_not_present ["A"%string]), empty_filesystem).
Proof.
  apply (proj1 (generate_personalized_all_or_nothing example_externals example_root
                  example_empty_trial empty_filesystem "model.bioMod")).
  reflexivity.
Defined.

(** * Further properties *)

(** ** The transpose of a rigid transform is its inverse *)

(** X1.  For a rigid transform T (orthonormal rotation columns, last row
    (0, 0, 0, 1)) [T.transpose] is the inverse of T on both sides, as a
    matrix and on vectors; the same for
    [SegmentCoordinateSystemReal.transpose]. *)
Theorem transpose_is_inverse (m : Mat4) (l : bool) :
  rigid m ->
  (forall parent : option RT.t,
      let T := RT.Build m parent l in
      RT.matmul (RT.transpose T) m = identity /\
      RT.matmul T (RT.rt (RT.transpose T)) = identity /\
      (forall v : Vec4, RT.matmul_vec T (RT.matmul_vec (RT.transpose T) v) = v) /\
      (forall v : Vec4, RT.matmul_vec (RT.transpose T) (RT.matmul_vec T v) = v)) /\
  (forall parent : option SegmentCoordinateSystemReal.t,
      let T := SegmentCoordinateSystemReal.Build m parent l in
      SegmentCoordinateSystemReal.matmul (SegmentCoordinateSystemReal.transpose T) m
      = identity /\
      SegmentCoordinateSystemReal.matmul T
        (SegmentCoordinateSystemReal.scs (SegmentCoordinateSystemReal.transpose T))
      = identity).
Proof.
  intros Hr. split.
  - intros parent T. subst T. unfold RT.matmul, RT.matmul_vec.
    pose proof (transpose_left_inverse m parent l Hr) as HL.
    pose proof (transpose_right_inverse m parent l Hr) as HR.
    split; [exact HL |]. split; [exact HR |]. split; intros v.
    + change (RT.rt (RT.Build m parent l)) with m.
      rewrite <- mmul_mulv, HR. apply mulv_identity.
    + change (RT.rt (RT.Build m parent l)) with m.
      rewrite <- mmul_mulv, HL. apply mulv_identity.
  - intros parent T. subst T. split.
    + exact (transpose_left_inverse m None l Hr).
    + exact (transpose_right_inverse m None l Hr).
Qed.

Lemma transpose_is_inverse_witness :
  RT.matmul (RT.transpose (RT.Build (translation 1 2 3) None false)) (translation 1 2 3)
  = identity.
Proof.
  exact (proj1 (proj1 (transpose_is_inverse (translation 1 2 3) false
                         (translation_rigid 1 2 3)) None)).
Defined.

Lemma str_rt_of_composition (P L : Mat4) (grandparent : option RT.t) (l : bool) :
  rigid P ->
  RT.str_rt (RT.Build (mmul P L) (Some (RT.Build P grandparent l)) false) = L.
Proof.
  intros Hr. unfold RT.str_rt; simpl. unfold RT.matmul.
  change (RT.rt (RT.Build (mmul P L) (Some (RT.Build P grandparent l)) false))
    with (mmul P L).
  rewrite <- mmul_assoc, (transpose_left_inverse P grandparent l Hr).
  apply mmul_identity_left.
Qed.

(** X2.  A transform stored in the global frame as parent @ local, with a
    rigid parent, is rendered by [__str__] as the local transform: the
    matrix that [__str__] decomposes is [local], and the text is the text
    of the local transform. *)
Theorem str_rt_recovers_local (P L : Mat4) (l : bool) :
  rigid P ->
  (forall (grandparent : option RT.t),
      RT.str_rt (RT.Build (mmul P L) (Some (RT.Build P grandparent l)) false) = L) /\
  (forall (grandparent : option RT.t) (ext : externals),
      RT.__str__ ext (RT.Build (mmul P L) (Some (RT.Build P grandparent l)) false)
      = RT.__str__ ext (RT.Build L None true)) /\
  (forall (grandparent : option SegmentCoordinateSystemReal.t),
      SegmentCoordinateSystemReal.str_rt
        (SegmentCoordinateSystemReal.Build (mmul P L)
           (Some (SegmentCoordinateSystemReal.Build P grandparent l)) false) = L).
Proof.
  intros Hr. split; [| split].
  - intros grandparent. apply str_rt_of_composition, Hr.
  - intros grandparent ext. unfold RT.__str__.
    rewrite (str_rt_of_composition P L grandparent l Hr). reflexivity.
  - intros grandparent. rewrite SegmentCoordinateSystemReal_str_rt_RT. simpl.
    apply str_rt_of_composition, Hr.
Qed.

Lemma str_rt_recovers_local_witness :
  RT.str_rt (RT.Build (mmul (translation 1 2 3) (translation 4 5 6))
                      (Some (RT.Build (translation 1 2 3) None false)) false)
  = translation 4 5 6.
Proof.
  exact (proj1 (str_rt_recovers_local (translation 1 2 3) (translation 4 5 6) false
                  (translation_rigid 1 2 3)) None).
Defined.

(** ** [from_euler_and_translation] *)

Lemma matrix_xyz (c : ascii) (a : R) :
  xyz c -> exists M, RT.matrix c a = Ok M.
Proof. intros [-> | [-> | ->]]; eexists; reflexivity. Qed.

Lemma matrix_not_xyz (c : ascii) (a : R) :
  ~ xyz c -> RT.matrix c a = Raise (KeyError (String c EmptyString)).
Proof.
  intros H. unfold RT.matrix.
  destruct (Ascii.eqb c "x") eqn:Ex;
    [apply Ascii.eqb_eq in Ex; exfalso; apply H; left; exact Ex |].
  destruct (Ascii.eqb c "y") eqn:Ey;
    [apply Ascii.eqb_eq in Ey; exfalso; apply H; right; left; exact Ey |].
  destruct (Ascii.eqb c "z") eqn:Ez;
    [apply Ascii.eqb_eq in Ez; exfalso; apply H; right; right; exact Ez |].
  reflexivity.
Qed.

(** One turn of the loop keeps the rotation block orthonormal and
    right-handed, and leaves the last column and the last row alone. *)
Lemma rotate_step (m : Mat4) (c : ascii) (a : R) (M : Mat3) :
  RT.matrix c a = Ok M ->
  unit_columns m -> orthogonal_columns m -> right_handed m ->
  let m' := set_block3 m (mmul3 (block3 m) M) in
  unit_columns m' /\ orthogonal_columns m' /\ right_handed m' /\
  mcol m' 3 = mcol m 3 /\ row3 m' = row3 m.
Proof.
  intros HM (U0 & U1 & U2) (O01 & O02 & O12) Hrh.
  apply norm_one_dot in U0, U1, U2.
  destruct m as [[a0 a1 a2 a3] [b0 b1 b2 b3] [c0 c1 c2 c3] [d0 d1 d2 d3]].
  unfold right_handed, cross, col3, mget in Hrh; simpl in Hrh.
  injection Hrh as Hx Hy Hz.
  unfold dot, col3, mget in *; simpl in *.
  pose proof (sin2_cos2 a) as Hsc. unfold Rsqr in Hsc.
  unfold RT.matrix in HM.
  destruct (Ascii.eqb c "x"); [| destruct (Ascii.eqb c "y"); [| destruct (Ascii.eqb c "z")]];
    try discriminate HM; injection HM as <-;
    unfold unit_columns, orthogonal_columns, right_handed;
    cbv [set_block3 mmul3 block3 row3_of c3_0 c3_1 c3_2 r3_0 r3_1 r3_2 col3 mcol mget mrow
         vget cross dot row0 row1 row2 row3 e0 e1 e2 e3 vx vy vz];
    (repeat split;
     [ apply norm_of_dot_one; unfold dot; simpl; nsatz
     | apply norm_of_dot_one; unfold dot; simpl; nsatz
     | apply norm_of_dot_one; unfold dot; simpl; nsatz
     | nsatz | nsatz | nsatz
     | f_equal; nsatz ]).
Qed.

Lemma identity_rotation :
  unit_columns identity /\ orthogonal_columns identity /\ right_handed identity.
Proof.
  unfold unit_columns, orthogonal_columns, right_handed.
  repeat split; try (apply norm_of_dot_one);
    cbv [identity col3 mget mrow vget dot cross row0 row1 row2 row3 e0 e1 e2 e3 vx vy vz];
    first [ring | f_equal; ring].
Qed.

Lemma rotate_xyz (pairs : list (R * ascii)) (m : Mat4) :
  Forall (fun p => xyz (snd p)) pairs ->
  unit_columns m -> orthogonal_columns m -> right_handed m ->
  exists m',
    RT.rotate m pairs = Ok m' /\
    unit_columns m' /\ orthogonal_columns m' /\ right_handed m' /\
    mcol m' 3 = mcol m 3 /\ row3 m' = row3 m.
Proof.
  intros Hp. revert m.
  induction Hp as [| [a c] pairs Hc _ IH]; simpl; intros m Hu Ho Hr.
  - exists m. split; [reflexivity |].
    split; [exact Hu |]. split; [exact Ho |]. split; [exact Hr |]. split; reflexivity.
  - destruct (matrix_xyz c a Hc) as [M HM]. rewrite HM. simpl.
    destruct (rotate_step m c a M HM Hu Ho Hr) as (Hu' & Ho' & Hr' & Hc' & Hr3').
    destruct (IH _ Hu' Ho' Hr') as (m' & Hrun & Hu'' & Ho'' & Hr'' & Hc'' & Hr3'').
    exists m'. split; [exact Hrun |].
    split; [exact Hu'' |]. split; [exact Ho'' |]. split; [exact Hr'' |].
    split; [rewrite Hc''; exact Hc' | rewrite Hr3''; exact Hr3'].
Qed.

Lemma rotate_first_bad_letter (pairs1 pairs2 : list (R * ascii)) (a : R) (c : ascii)
    (m : Mat4) :
  Forall (fun p => xyz (snd p)) pairs1 -> ~ xyz c ->
  RT.rotate m (pairs1 ++ (a, c) :: pairs2) = Raise (KeyError (String c EmptyString)).
Proof.
  intros Hp Hc. revert m.
  induction Hp as [| [a' c'] pairs1 Hc' _ IH]; simpl; intros m.
  - rewrite (matrix_not_xyz c a Hc). reflexivity.
  - destruct (matrix_xyz c' a' Hc') as [M HM]. rewrite HM. simpl. apply IH.
Qed.

Lemma set_col3_rigid (m : Mat4) (t : Vec3) :
  unit_columns m -> orthogonal_columns m -> right_handed m ->
  row3 m = mkVec4 0 0 0 1 ->
  rigid (set_col3 m 3 t) /\ right_handed (set_col3 m 3 t) /\ col3 (set_col3 m 3 t) 3 = t.
Proof.
  intros Hu Ho Hr Hh.
  destruct m as [[a0 a1 a2 a3] [b0 b1 b2 b3] [c0 c1 c2 c3] [d0 d1 d2 d3]].
  destruct t as [tx ty tz].
  unfold rigid, unit_columns, orthogonal_columns, right_handed, homogeneous in *.
  simpl in *. repeat split; try tauto; assumption.
Qed.

(** X3.  When the letters that [zip(angles, angle_sequence)] pairs with an
    angle are all among x, y and z, [from_euler_and_translation] returns a
    local transform that is rigid and right-handed, whose translation is the
    given one and which [__str__] renders as it is; the first other letter
    raises [KeyError] of that letter; letters beyond the number of angles are
    never looked at.  The same for the constructor of
    [SegmentCoordinateSystemReal]. *)
Theorem from_euler_and_translation_rigid (angles : list R) (angle_sequence : string)
    (translations : Vec3) :
  (Forall (fun p => xyz (snd p)) (zipped angles angle_sequence) ->
   (forall parent : option RT.t,
       exists m,
         RT.from_euler_and_translation angles angle_sequence translations parent
         = Ok (RT.Build m parent true) /\
         rigid m /\ right_handed m /\ col3 m 3 = translations /\
         RT.str_rt (RT.Build m parent true) = m) /\
   (forall parent : option SegmentCoordinateSystemReal.t,
       exists m,
         SegmentCoordinateSystemReal.from_euler_and_translation
           angles angle_sequence translations parent
         = Ok (SegmentCoordinateSystemReal.Build m parent true) /\
         rigid m /\ right_handed m /\ col3 m 3 = translations)) /\
  (forall (pairs1 pairs2 : list (R * ascii)) (a : R) (c : ascii) (parent : option RT.t),
      zipped angles angle_sequence = pairs1 ++ (a, c) :: pairs2 ->
      Forall (fun p => xyz (snd p)) pairs1 -> ~ xyz c ->
      RT.from_euler_and_translation angles angle_sequence translations parent
      = Raise (KeyError (String c EmptyString))).
Proof.
  split.
  - intros Hp.
    destruct identity_rotation as (Hu & Ho & Hr).
    destruct (rotate_xyz _ identity Hp Hu Ho Hr) as (m & Hrun & Hu' & Ho' & Hr' & _ & Hr3).
    destruct (set_col3_rigid m translations Hu' Ho' Hr' Hr3) as (Hrig & Hrh & Hcol).
    unfold zipped in Hrun. split.
    + intros parent. exists (set_col3 m 3 translations).
      unfold RT.from_euler_and_translation. rewrite Hrun. simpl.
      repeat (split; [first [reflexivity | assumption] |]). reflexivity.
    + intros parent. exists (set_col3 m 3 translations).
      unfold SegmentCoordinateSystemReal.from_euler_and_translation. rewrite Hrun. simpl.
      repeat (split; [first [reflexivity | assumption] |]). assumption.
  - intros pairs1 pairs2 a c parent Hz Hp Hc.
    unfold RT.from_euler_and_translation. unfold zipped in Hz. rewrite Hz.
    rewrite (rotate_first_bad_letter pairs1 pairs2 a c identity Hp Hc). reflexivity.
Qed.

Lemma from_euler_and_translation_rigid_witness :
  exists m,
    RT.from_euler_and_translation [1; 2] "zyq" (mkVec3 1 2 3) None
    = Ok (RT.Build m None true) /\
    rigid m /\ right_handed m /\ col3 m 3 = mkVec3 1 2 3 /\
    RT.str_rt (RT.Build m None true) = m.
Proof.
  refine (proj1 (proj1 (from_euler_and_translation_rigid [1; 2] "zyq" (mkVec3 1 2 3)) _)
                None).
  unfold zipped; simpl.
  constructor; [right; right; reflexivity |].
  constructor; [right; left; reflexivity | constructor].
Defined.



(** ** Adding to and subtracting from a marker *)

Lemma vadd_vsub (p v : Vec3) : vsub (vadd p v) v = p.
Proof. apply Vec3_eq; unfold vsub, vadd; simpl; ring. Qed.

Lemma vsub_vadd (p v : Vec3) : vadd (vsub p v) v = p.
Proof. apply Vec3_eq; unfold vsub, vadd; simpl; ring. Qed.

(** X5.  [Marker.__add__] and [Marker.__sub__] take a tuple, an array or a
    Marker and raise [NotImplementedError] for anything else; the result
    keeps the name and the parent of the left operand (never those of a
    Marker on the right) but not its flags, which are reset to technical
    and not anatomical; subtracting what was added, or adding what was
    subtracted, gives the position back. *)
Theorem Marker_add_sub (self : Marker.t) :
  (forall v : Vec3,
      Marker_add self (a_tuple v) = Marker_add self (an_ndarray v) /\
      Marker_sub self (a_tuple v) = Marker_sub self (an_ndarray v)) /\
  (forall other : operand,
      (forall type_name, other <> another type_name) ->
      exists added subtracted,
        Marker_add self other = inl added /\
        Marker_sub self other = inl subtracted /\
        Marker.name added = Marker.name self /\
        Marker.parent_name added = Marker.parent_name self /\
        Marker.name subtracted = Marker.name self /\
        Marker.parent_name subtracted = Marker.parent_name self /\
        Marker.is_technical added = true /\ Marker.is_anatomical added = false /\
        Marker.is_technical subtracted = true /\ Marker.is_anatomical subtracted = false /\
        (exists back, Marker_sub added other = inl back /\
                      Marker.position back = Marker.position self) /\
        (exists back, Marker_add subtracted other = inl back /\
                      Marker.position back = Marker.position self)) /\
  (forall type_name : string,
      Marker_add self (another type_name)
      = inr (NotImplementedError ("The addition for " ++ type_name ++ " is not implemented")) /\
      Marker_sub self (another type_name)
      = inr (NotImplementedError
               ("The subtraction for " ++ type_name ++ " is not implemented"))).
Proof.
  split; [intros v; split; reflexivity |].
  split; [| intros type_name; split; reflexivity].
  intros other Hother.
  destruct other as [v | v | m | type_name];
    try (exfalso; apply (Hother type_name); reflexivity);
    eexists; eexists;
    (split; [reflexivity |]); (split; [reflexivity |]);
    simpl; repeat (split; [reflexivity |]);
    (split; eexists; (split; [reflexivity |]); simpl;
     first [apply vadd_vsub | apply vsub_vadd]).
Qed.

Lemma Marker_add_sub_witness :
  exists added back,
    Marker_add (Marker_init "M" "S" (mkVec3 1 2 3)) (a_tuple (mkVec3 4 5 6)) = inl added /\
    Marker_sub added (a_tuple (mkVec3 4 5 6)) = inl back /\
    Marker.position back = mkVec3 1 2 3.
Proof.
  destruct (proj1 (proj2 (Marker_add_sub (Marker_init "M" "S" (mkVec3 1 2 3))))
                  (a_tuple (mkVec3 4 5 6)))
    as (added & subtracted & Ha & _ & _ & _ & _ & _ & _ & _ & _ & _ & (back & Hb & Hp) & _).
  - intros type_name; discriminate.
  - exists added, back. split; [exact Ha |]. split; [exact Hb | exact Hp].
Defined.

(** ** More on [Marker.from_data] *)

(** X8.  A marker resolved in a rigid parent frame is the marker resolved
    in the global frame, re-expressed: its position is the parent's
    transpose applied to the global position over 1, and the parent frame
    applied to it gives the global position back; the names and the flags
    are the same, and so is every failure. *)
Theorem to_marker_in_parent_frame (g : MarkerGeneric.t) (c3d : C3d.t) (P : Mat4)
    (grandparent : option RT.t) (l : bool) :
  rigid P ->
  (forall global : Marker.t,
      MarkerGeneric.to_marker g c3d None = Ok global ->
      exists local,
        MarkerGeneric.to_marker g c3d (Some (RT.Build P grandparent l)) = Ok local /\
        Marker.position local
        = first3 (mulv (RT.rt (RT.transpose (RT.Build P grandparent l)))
                       (over_one (Marker.position global))) /\
        mulv P (over_one (Marker.position local)) = over_one (Marker.position global) /\
        Marker.name local = Marker.name global /\
        Marker.parent_name local = Marker.parent_name global /\
        Marker.is_technical local = Marker.is_technical global /\
        Marker.is_anatomical local = Marker.is_anatomical global) /\
  (forall e : exception,
      MarkerGeneric.to_marker g c3d None = Raise e ->
      MarkerGeneric.to_marker g c3d (Some (RT.Build P grandparent l)) = Raise e).
Proof.
  intros Hr. rewrite !to_marker_steps.
  destruct (mapM _ _) as [columns | e0]; cbv [bind]; [| split; [discriminate | tauto]].
  destruct (check_indices c3d columns) as [[] | e0]; [| split; [discriminate | tauto]].
  destruct (finite4 _) as [position |] eqn:Hf; [| split; [discriminate | tauto]].
  split; [| discriminate].
  intros global Hg. injection Hg as <-.
  pose proof (finite4_to_meter _ _ _ Hf) as H1.
  eexists. split; [reflexivity |].
  cbv [Marker.position Marker.name Marker.parent_name Marker.is_technical
       Marker.is_anatomical].
  rewrite mulv_identity, (over_one_first3 position H1).
  split; [reflexivity |]. split; [| repeat split].
  rewrite over_one_first3.
  - rewrite <- mmul_mulv, (transpose_right_inverse P grandparent l Hr).
    apply mulv_identity.
  - apply transpose_last_entry; [apply Hr | exact H1].
Qed.

Lemma to_marker_in_parent_frame_witness :
  exists local,
    MarkerGeneric.to_marker (MarkerGeneric.Build "M" (Str "A") "SEG" true false)
                            example_trial
                            (Some (RT.Build (translation 1 2 3) None false)) = Ok local /\
    mulv (translation 1 2 3) (over_one (Marker.position local))
    = over_one (first3 (mulv identity (global_position example_trial [0%nat]))).
Proof.
  destruct (proj1 (to_marker_in_parent_frame
                     (MarkerGeneric.Build "M" (Str "A") "SEG" true false) example_trial
                     (translation 1 2 3) None false (translation_rigid 1 2 3))
                  (Marker.Build "M" "SEG"
                     (first3 (mulv identity (global_position example_trial [0%nat])))
                     true false))
    as (local & Hl & _ & Hback & _).
  - reflexivity.
  - exists local. split; [exact Hl | exact Hback].
Defined.

(** *** Units and the order of the requested names *)

Lemma mean_of_nanmeans_with_units (c3d : C3d.t) (units : list string)
    (columns : list nat) (r : nat) :
  mean_of_nanmeans (with_units c3d units) columns r = mean_of_nanmeans c3d columns r.
Proof. reflexivity. Qed.

(** In millimeters the three coordinates are divided by 1000, with any
    other first unit (or none) they are kept. *)
Lemma finite4_to_meter_units (c3d : C3d.t) (rest other : list string)
    (data : sample * sample * sample * sample) :
  not_millimeters other ->
  match finite4 (to_meter (with_units c3d other) data) with
  | Some position =>
      finite4 (to_meter (with_units c3d ("mm"%string :: rest)) data)
      = Some (mkVec4 (e0 position / 1000) (e1 position / 1000) (e2 position / 1000) 1)
  | None => finite4 (to_meter (with_units c3d ("mm"%string :: rest)) data) = None
  end.
Proof.
  intros Ho. destruct data as [[[d0 d1] d2] d3].
  assert (Hf : match other with
               | u :: _ => if String.eqb u "mm" then 1000 else 1
               | [] => 1
               end = 1).
  { destruct other as [| u other']; [reflexivity |].
    destruct (String.eqb_spec u "mm"); [contradiction | reflexivity]. }
  unfold to_meter, with_units. cbv [C3d.UNITS]. rewrite Hf.
  change (String.eqb "mm" "mm") with true. cbv iota.
  destruct d0, d1, d2; cbv [sdiv finite4 e0 e1 e2]; try reflexivity.
  f_equal. f_equal; field.
Qed.

(** X6.  The unit of a trial only scales the result: the same data tagged
    in millimeters gives, in the global frame, the marker of any other
    unit with its position divided by 1000, and fails exactly when the
    other does, with the same error.  Only the first entry of UNITS is
    looked at, and a trial without units is taken as it is. *)
Theorem to_marker_millimeters (g : MarkerGeneric.t) (c3d : C3d.t)
    (rest other : list string) :
  not_millimeters other ->
  (forall m : Marker.t,
      MarkerGeneric.to_marker g (with_units c3d other) None = Ok m ->
      MarkerGeneric.to_marker g (with_units c3d ("mm"%string :: rest)) None
      = Ok (Marker.Build (Marker.name m) (Marker.parent_name m)
              (vdiv (Marker.position m) 1000)
              (Marker.is_technical m) (Marker.is_anatomical m))) /\
  (forall (p : option RT.t) (e : exception),
      MarkerGeneric.to_marker g (with_units c3d other) p = Raise e ->
      MarkerGeneric.to_marker g (with_units c3d ("mm"%string :: rest)) p = Raise e) /\
  (forall (p : option RT.t) (m : Marker.t),
      MarkerGeneric.to_marker g (with_units c3d other) p = Ok m ->
      is_ok (MarkerGeneric.to_marker g (with_units c3d ("mm"%string :: rest)) p) = true).
Proof.
  intros Ho.
  assert (Hpre : forall p,
    MarkerGeneric.to_marker g (with_units c3d other) p
    = (columns <- mapM (index (C3d.LABELS c3d)) (requested (MarkerGeneric.from_markers g)) ;;
       _ <- check_indices c3d columns ;;
       match finite4 (to_meter (with_units c3d other)
                               (mean_of_nanmeans c3d columns 0, mean_of_nanmeans c3d columns 1,
                                mean_of_nanmeans c3d columns 2, mean_of_nanmeans c3d columns 3))
       with
       | None => Raise (markers_not_present (requested (MarkerGeneric.from_markers g)))
       | Some position =>
           Ok (Marker.Build (MarkerGeneric.name g) (MarkerGeneric.parent_name g)
                 (first3 match p with
                         | Some parent => mulv (RT.rt (RT.transpose parent)) position
                         | None => mulv identity position
                         end)
                 (MarkerGeneric.is_technical g) (MarkerGeneric.is_anatomical g))
       end)) by (intros p; rewrite to_marker_steps; reflexivity).
  assert (Hmm : forall p,
    MarkerGeneric.to_marker g (with_units c3d ("mm"%string :: rest)) p
    = (columns <- mapM (index (C3d.LABELS c3d)) (requested (MarkerGeneric.from_markers g)) ;;
       _ <- check_indices c3d columns ;;
       match finite4 (to_meter (with_units c3d ("mm"%string :: rest))
                               (mean_of_nanmeans c3d columns 0, mean_of_nanmeans c3d columns 1,
                                mean_of_nanmeans c3d columns 2, mean_of_nanmeans c3d columns 3))
       with
       | None => Raise (markers_not_present (requested (MarkerGeneric.from_markers g)))
       | Some position =>
           Ok (Marker.Build (MarkerGeneric.name g) (MarkerGeneric.parent_name g)
                 (first3 match p with
                         | Some parent => mulv (RT.rt (RT.transpose parent)) position
                         | None => mulv identity position
                         end)
                 (MarkerGeneric.is_technical g) (MarkerGeneric.is_anatomical g))
       end)) by (intros p; rewrite to_marker_steps; reflexivity).
  assert (Hcases : forall p,
    match MarkerGeneric.to_marker g (with_units c3d other) p with
    | Raise e => MarkerGeneric.to_marker g (with_units c3d ("mm"%string :: rest)) p = Raise e
    | Ok m =>
        is_ok (MarkerGeneric.to_marker g (with_units c3d ("mm"%string :: rest)) p) = true /\
        (p = None ->
         MarkerGeneric.to_marker g (with_units c3d ("mm"%string :: rest)) p
         = Ok (Marker.Build (Marker.name m) (Marker.parent_name m)
                 (vdiv (Marker.position m) 1000)
                 (Marker.is_technical m) (Marker.is_anatomical m)))
    end).
  { intros p. rewrite Hpre, Hmm.
    destruct (mapM _ _) as [columns | e0]; cbv [bind]; [| reflexivity].
    destruct (check_indices c3d columns) as [[] | e0]; [| reflexivity].
    pose proof (finite4_to_meter_units c3d rest other
                  (mean_of_nanmeans c3d columns 0, mean_of_nanmeans c3d columns 1,
                   mean_of_nanmeans c3d columns 2, mean_of_nanmeans c3d columns 3) Ho) as H.
    destruct (finite4 (to_meter (with_units c3d other) _)) as [position |].
    - rewrite H. split; [reflexivity |]. intros ->.
      cbv [Marker.name Marker.parent_name Marker.position Marker.is_technical
           Marker.is_anatomical].
      rewrite !mulv_identity. reflexivity.
    - rewrite H. reflexivity. }
  split; [| split].
  - intros m Hm. specialize (Hcases None). rewrite Hm in Hcases.
    apply Hcases. reflexivity.
  - intros p e He. specialize (Hcases p). rewrite He in Hcases. exact Hcases.
  - intros p m Hm. specialize (Hcases p). rewrite Hm in Hcases. apply Hcases.
Qed.

Lemma to_marker_millimeters_witness :
  exists m : Marker.t,
    MarkerGeneric.to_marker (MarkerGeneric.Build "M" (Str "A") "SEG" true false)
                            (with_units example_trial ["m"; "mm"]%string) None = Ok m /\
    MarkerGeneric.to_marker (MarkerGeneric.Build "M" (Str "A") "SEG" true false)
                            (with_units example_trial ["mm"]%string) None
    = Ok (Marker.Build (Marker.name m) (Marker.parent_name m)
            (vdiv (Marker.position m) 1000)
            (Marker.is_technical m) (Marker.is_anatomical m)).
Proof.
  eexists. split; [reflexivity |].
  apply (proj1 (to_marker_millimeters
                  (MarkerGeneric.Build "M" (Str "A") "SEG" true false) example_trial
                  [] ["m"; "mm"]%string ltac:(simpl; discriminate))).
  reflexivity.
Defined.

(** Sums, and so means, do not depend on the order. *)
Lemma mapM_Permutation {A B : Type} (f : A -> result B) (l l' : list A) (bs : list B) :
  Permutation l l' -> mapM f l = Ok bs ->
  exists bs', mapM f l' = Ok bs' /\ Permutation bs bs'.
Proof.
  intros HP. revert bs. induction HP as [| a l l' HP IH | a b l | l l' l'' HP1 IH1 HP2 IH2];
    intros bs H.
  - exists bs. split; [exact H | apply Permutation_refl].
  - simpl in H. destruct (f a) as [y |] eqn:Ha; [| discriminate].
    simpl in H. destruct (mapM f l) as [ys |] eqn:Hl; [| discriminate].
    injection H as <-. destruct (IH ys eq_refl) as (ys' & Hy & HPy).
    exists (y :: ys'). split; [simpl; rewrite Ha; simpl; rewrite Hy; reflexivity |].
    apply perm_skip; exact HPy.
  - simpl in H. destruct (f b) as [y |] eqn:Hb; [| discriminate].
    simpl in H. destruct (f a) as [x |] eqn:Ha; [| discriminate].
    simpl in H. destruct (mapM f l) as [ys |] eqn:Hl; [| discriminate].
    injection H as <-. exists (x :: y :: ys).
    split; [simpl; rewrite Ha; simpl; rewrite Hb; simpl; rewrite Hl; reflexivity |].
    apply perm_swap.
  - destruct (IH1 bs H) as (bs' & H' & HP'). destruct (IH2 bs' H') as (bs'' & H'' & HP'').
    exists bs''. split; [exact H'' | eapply Permutation_trans; eassumption].
Qed.

Lemma Rsum_values_Permutation (l l' : list sample) :
  Permutation l l' -> Rsum (values l) = Rsum (values l').
Proof.
  induction 1 as [| a l l' HP IH | a b l | l l' l'' HP1 IH1 HP2 IH2].
  - reflexivity.
  - destruct a; simpl; [exact IH | rewrite IH; reflexivity].
  - destruct a, b; simpl; try reflexivity. ring.
  - congruence.
Qed.

Lemma existsb_Permutation {A : Type} (f : A -> bool) (l l' : list A) :
  Permutation l l' -> existsb f l = existsb f l'.
Proof.
  induction 1 as [| a l l' HP IH | a b l | l l' l'' HP1 IH1 HP2 IH2]; simpl.
  - reflexivity.
  - rewrite IH; reflexivity.
  - destruct (f a), (f b); reflexivity.
  - congruence.
Qed.

Lemma forallb_Permutation {A : Type} (f : A -> bool) (l l' : list A) :
  Permutation l l' -> forallb f l = forallb f l'.
Proof.
  induction 1 as [| a l l' HP IH | a b l | l l' l'' HP1 IH1 HP2 IH2]; simpl.
  - reflexivity.
  - rewrite IH; reflexivity.
  - destruct (f a), (f b); reflexivity.
  - congruence.
Qed.

Lemma mean_Permutation (l l' : list sample) : Permutation l l' -> mean l = mean l'.
Proof.
  intros HP. unfold mean.
  rewrite (existsb_Permutation isnan l l' HP), (Rsum_values_Permutation l l' HP).
  pose proof (Permutation_length HP) as Hlen.
  destruct l, l'; try discriminate Hlen; [reflexivity |].
  rewrite Hlen. reflexivity.
Qed.

(** Over the reals the mean over the markers does not depend on their
    order. *)
Lemma to_marker_Permutation (name parent_name : string) (names names' : list string)
    (is_technical is_anatomical : bool) (c3d : C3d.t) (p : option RT.t) (m : Marker.t) :
  Permutation names names' ->
  MarkerGeneric.to_marker
    (MarkerGeneric.Build name (Tuple names) parent_name is_technical is_anatomical) c3d p
  = Ok m ->
  MarkerGeneric.to_marker
    (MarkerGeneric.Build name (Tuple names') parent_name is_technical is_anatomical) c3d p
  = Ok m.
Proof.
  intros HP. rewrite !to_marker_steps.
  cbv [requested MarkerGeneric.from_markers MarkerGeneric.name MarkerGeneric.parent_name
       MarkerGeneric.is_technical MarkerGeneric.is_anatomical].
  destruct (mapM (index (C3d.LABELS c3d)) names) as [columns |] eqn:Hc; [| discriminate].
  destruct (mapM_Permutation _ _ _ _ HP Hc) as (columns' & Hc' & HPc).
  rewrite Hc'. cbv [bind]. unfold check_indices.
  rewrite <- (forallb_Permutation _ columns columns' HPc).
  destruct (forallb _ columns); [| discriminate].
  assert (Hm : forall r, mean_of_nanmeans c3d columns' r = mean_of_nanmeans c3d columns r).
  { intros r. unfold mean_of_nanmeans. symmetry. apply mean_Permutation.
    apply Permutation_map. exact HPc. }
  rewrite !Hm. destruct (finite4 _); [| discriminate]. tauto.
Qed.

Lemma to_marker_fields (g : MarkerGeneric.t) (c3d : C3d.t) (p : option RT.t)
    (m : Marker.t) :
  MarkerGeneric.to_marker g c3d p = Ok m ->
  Marker.name m = MarkerGeneric.name g /\
  Marker.parent_name m = MarkerGeneric.parent_name g /\
  Marker.is_technical m = MarkerGeneric.is_technical g /\
  Marker.is_anatomical m = MarkerGeneric.is_anatomical g.
Proof.
  rewrite to_marker_steps. intros H.
  apply bind_ok in H as (columns & _ & H). apply bind_ok in H as (u & _ & H).
  destruct (finite4 _); [| discriminate]. injection H as <-. repeat split; reflexivity.
Qed.

(** X7.  Whether a marker defined from a tuple of labels resolves does not
    depend on the order of the labels, and neither do the name, the parent
    name and the flags of the marker it resolves to.  For a marker defined
    from two labels, the midpoint of two markers of the trial, the marker
    itself is the same in either order: the sum of two numbers does not
    depend on their order.  (For more labels the sum is taken in the order
    of the tuple, and the position is left out of the statement.) *)
Theorem to_marker_any_order (name parent_name : string) (is_technical is_anatomical : bool)
    (c3d : C3d.t) (p : option RT.t) :
  let marker names :=
    MarkerGeneric.Build name (Tuple names) parent_name is_technical is_anatomical in
  (forall names names' : list string,
      Permutation names names' ->
      is_ok (MarkerGeneric.to_marker (marker names) c3d p)
      = is_ok (MarkerGeneric.to_marker (marker names') c3d p) /\
      (forall m m' : Marker.t,
          MarkerGeneric.to_marker (marker names) c3d p = Ok m ->
          MarkerGeneric.to_marker (marker names') c3d p = Ok m' ->
          Marker.name m' = Marker.name m /\
          Marker.parent_name m' = Marker.parent_name m /\
          Marker.is_technical m' = Marker.is_technical m /\
          Marker.is_anatomical m' = Marker.is_anatomical m)) /\
  (forall (a b : string) (m : Marker.t),
      MarkerGeneric.to_marker (marker [a; b]) c3d p = Ok m ->
      MarkerGeneric.to_marker (marker [b; a]) c3d p = Ok m).
Proof.
  intros marker. subst marker. split.
  - intros names names' HP. split.
    + destruct (MarkerGeneric.to_marker
                  (MarkerGeneric.Build name (Tuple names) parent_name
                     is_technical is_anatomical) c3d p) as [m | e] eqn:E.
      * rewrite (to_marker_Permutation _ _ _ _ _ _ _ _ m HP E). reflexivity.
      * destruct (MarkerGeneric.to_marker
                    (MarkerGeneric.Build name (Tuple names') parent_name
                       is_technical is_anatomical) c3d p) as [m' | e'] eqn:E';
          [| reflexivity].
        rewrite (to_marker_Permutation _ _ _ _ _ _ _ _ m' (Permutation_sym HP) E') in E.
        discriminate E.
    + intros m m' Hm Hm'.
      destruct (to_marker_fields _ _ _ _ Hm) as (H1 & H2 & H3 & H4).
      destruct (to_marker_fields _ _ _ _ Hm') as (H1' & H2' & H3' & H4').
      rewrite H1, H2, H3, H4, H1', H2', H3', H4'. repeat split; reflexivity.
  - intros a b m. apply to_marker_Permutation. apply perm_swap.
Qed.

Lemma to_marker_any_order_witness :
  exists m : Marker.t,
    MarkerGeneric.to_marker
      (MarkerGeneric.Build "M" (Tuple ["A"; "B"]%string) "SEG" true false)
      example_two_markers None = Ok m /\
    MarkerGeneric.to_marker
      (MarkerGeneric.Build "M" (Tuple ["B"; "A"]%string) "SEG" true false)
      example_two_markers None = Ok m.
Proof.
  eexists. split; [reflexivity |].
  apply (proj2 (to_marker_any_order "M" "SEG" true false example_two_markers None)).
  reflexivity.
Defined.

(** ** Rigid transforms are closed under [@] and [transpose] *)

Lemma rotation_keeps_dot (a b c d e f g h i u0 u1 u2 v0 v1 v2 : R) :
  a * a + d * d + g * g = 1 -> b * b + e * e + h * h = 1 -> c * c + f * f + i * i = 1 ->
  a * b + d * e + g * h = 0 -> a * c + d * f + g * i = 0 -> b * c + e * f + h * i = 0 ->
  (a * u0 + b * u1 + c * u2) * (a * v0 + b * v1 + c * v2)
  + (d * u0 + e * u1 + f * u2) * (d * v0 + e * v1 + f * v2)
  + (g * u0 + h * u1 + i * u2) * (g * v0 + h * v1 + i * v2)
  = u0 * v0 + u1 * v1 + u2 * v2.
Proof. intros. nsatz. Qed.

(** A right-handed rotation block is its own cofactor matrix. *)
Lemma rotation_cofactors (a b d e g h : R) :
  a * a + d * d + g * g = 1 -> b * b + e * e + h * h = 1 ->
  a * b + d * e + g * h = 0 ->
  let c := d * h - g * e in
  let f := g * b - a * h in
  let i := a * e - d * b in
  a = e * i - f * h /\ b = f * g - d * i /\ d = h * c - b * i /\ e = a * i - c * g /\
  g = b * f - c * e /\ h = c * d - a * f.
Proof. intros H1 H2 H3. cbv zeta. repeat split; nsatz. Qed.

Lemma rotation_keeps_cross (a b c d e f g h i u0 u1 u2 v0 v1 v2 : R) :
  a * a + d * d + g * g = 1 -> b * b + e * e + h * h = 1 ->
  a * b + d * e + g * h = 0 ->
  c = d * h - g * e -> f = g * b - a * h -> i = a * e - d * b ->
  a * (u1 * v2 - u2 * v1) + b * (u2 * v0 - u0 * v2) + c * (u0 * v1 - u1 * v0)
  = (d * u0 + e * u1 + f * u2) * (g * v0 + h * v1 + i * v2)
    - (g * u0 + h * u1 + i * u2) * (d * v0 + e * v1 + f * v2) /\
  d * (u1 * v2 - u2 * v1) + e * (u2 * v0 - u0 * v2) + f * (u0 * v1 - u1 * v0)
  = (g * u0 + h * u1 + i * u2) * (a * v0 + b * v1 + c * v2)
    - (a * u0 + b * u1 + c * u2) * (g * v0 + h * v1 + i * v2) /\
  g * (u1 * v2 - u2 * v1) + h * (u2 * v0 - u0 * v2) + i * (u0 * v1 - u1 * v0)
  = (a * u0 + b * u1 + c * u2) * (d * v0 + e * v1 + f * v2)
    - (d * u0 + e * u1 + f * u2) * (a * v0 + b * v1 + c * v2).
Proof.
  intros H1 H2 H3 Hc Hf Hi.
  destruct (rotation_cofactors a b d e g h H1 H2 H3) as (Ca & Cb & Cd & Ce & Cg & Ch).
  cbv zeta in *. rewrite <- Hc, <- Hf, <- Hi in *.
  repeat split.
  - transitivity ((e * i - f * h) * (u1 * v2 - u2 * v1)
                  + (f * g - d * i) * (u2 * v0 - u0 * v2)
                  + (d * h - g * e) * (u0 * v1 - u1 * v0));
      [rewrite <- Ca, <- Cb, <- Hc; reflexivity | ring].
  - transitivity ((h * c - b * i) * (u1 * v2 - u2 * v1)
                  + (a * i - c * g) * (u2 * v0 - u0 * v2)
                  + (g * b - a * h) * (u0 * v1 - u1 * v0));
      [rewrite <- Cd, <- Ce, <- Hf; reflexivity | ring].
  - transitivity ((b * f - c * e) * (u1 * v2 - u2 * v1)
                  + (c * d - a * f) * (u2 * v0 - u0 * v2)
                  + (a * e - d * b) * (u0 * v1 - u1 * v0));
      [rewrite <- Cg, <- Ch, <- Hi; reflexivity | ring].
Qed.

Lemma mmul_rigid (a b : Mat4) : rigid a -> rigid b -> rigid (mmul a b).
Proof.
  intros ((U0 & U1 & U2) & (O01 & O02 & O12) & Ha) ((V0 & V1 & V2) & (P01 & P02 & P12) & Hb).
  apply norm_one_dot in U0, U1, U2, V0, V1, V2.
  destruct a as [[a0 a1 a2 a3] [b0 b1 b2 b3] [c0 c1 c2 c3] [d0 d1 d2 d3]].
  destruct b as [[p0 p1 p2 p3] [q0 q1 q2 q3] [r0 r1 r2 r3] [s0 s1 s2 s3]].
  unfold homogeneous in Ha, Hb; simpl in Ha, Hb.
  injection Ha as -> -> -> ->. injection Hb as -> -> -> ->.
  unfold dot, col3, mget in *; simpl in *.
  pose proof (rotation_keeps_dot a0 a1 a2 b0 b1 b2 c0 c1 c2) as K.
  repeat split.
  - apply norm_of_dot_one.
    cbv [mmul dot4 mcol mrow mget vget col3 dot row0 row1 row2 row3 e0 e1 e2 e3 vx vy vz].
    pose proof (K p0 q0 r0 p0 q0 r0 U0 U1 U2 O01 O02 O12) as E. lra.
  - apply norm_of_dot_one.
    cbv [mmul dot4 mcol mrow mget vget col3 dot row0 row1 row2 row3 e0 e1 e2 e3 vx vy vz].
    pose proof (K p1 q1 r1 p1 q1 r1 U0 U1 U2 O01 O02 O12) as E. lra.
  - apply norm_of_dot_one.
    cbv [mmul dot4 mcol mrow mget vget col3 dot row0 row1 row2 row3 e0 e1 e2 e3 vx vy vz].
    pose proof (K p2 q2 r2 p2 q2 r2 U0 U1 U2 O01 O02 O12) as E. lra.
  - cbv [mmul dot4 mcol mrow mget vget col3 dot row0 row1 row2 row3 e0 e1 e2 e3 vx vy vz].
    pose proof (K p0 q0 r0 p1 q1 r1 U0 U1 U2 O01 O02 O12) as E. lra.
  - cbv [mmul dot4 mcol mrow mget vget col3 dot row0 row1 row2 row3 e0 e1 e2 e3 vx vy vz].
    pose proof (K p0 q0 r0 p2 q2 r2 U0 U1 U2 O01 O02 O12) as E. lra.
  - cbv [mmul dot4 mcol mrow mget vget col3 dot row0 row1 row2 row3 e0 e1 e2 e3 vx vy vz].
    pose proof (K p1 q1 r1 p2 q2 r2 U0 U1 U2 O01 O02 O12) as E. lra.
  - unfold homogeneous.
    cbv [mmul dot4 mcol mrow mget vget row0 row1 row2 row3 e0 e1 e2 e3].
    f_equal; ring.
Qed.

Lemma mmul_right_handed (a b : Mat4) :
  rigid a -> right_handed a -> rigid b -> right_handed b -> right_handed (mmul a b).
Proof.
  intros ((U0 & U1 & U2) & (O01 & O02 & O12) & Ha) Ra (_ & _ & Hb) Rb.
  apply norm_one_dot in U0, U1, U2.
  destruct a as [[a0 a1 a2 a3] [b0 b1 b2 b3] [c0 c1 c2 c3] [d0 d1 d2 d3]].
  destruct b as [[p0 p1 p2 p3] [q0 q1 q2 q3] [r0 r1 r2 r3] [s0 s1 s2 s3]].
  unfold homogeneous in Ha, Hb; simpl in Ha, Hb.
  injection Ha as -> -> -> ->. injection Hb as -> -> -> ->.
  unfold right_handed, cross, dot, col3, mget in *; simpl in *.
  injection Ra as Ra0 Ra1 Ra2. injection Rb as -> -> ->.
  destruct (rotation_keeps_cross a0 a1 a2 b0 b1 b2 c0 c1 c2 p0 q0 r0 p1 q1 r1
              U0 U1 O01) as (K0 & K1 & K2); [lra | lra | lra |].
  cbv [mmul dot4 mcol mrow mget vget col3 cross row0 row1 row2 row3 e0 e1 e2 e3 vx vy vz].
  f_equal; lra.
Qed.

Lemma transpose_rigid (m : Mat4) (parent : option RT.t) (l : bool) :
  rigid m -> rigid (RT.rt (RT.transpose (RT.Build m parent l))).
Proof.
  intros ((U0 & U1 & U2) & (O01 & O02 & O12) & Hh).
  apply norm_one_dot in U0, U1, U2.
  destruct m as [[a0 a1 a2 a3] [b0 b1 b2 b3] [c0 c1 c2 c3] [d0 d1 d2 d3]].
  unfold homogeneous in Hh; simpl in Hh. injection Hh as -> -> -> ->.
  unfold dot, col3, mget in *; simpl in *.
  destruct (rotation_rows_orthonormal a0 a1 a2 b0 b1 b2 c0 c1 c2 U0 U1 U2 O01 O02 O12)
    as ((R0 & R1 & R2) & (R01 & R02 & R12)).
  repeat split; try apply norm_of_dot_one;
    cbv [RT.transpose RT.copy RT.rt RT.parent_rt RT.is_rt_local clear_row3 set_col3 mT
         block3_mulv row3_of mcol mget mrow vget vset vopp dot col3
         row0 row1 row2 row3 e0 e1 e2 e3 vx vy vz]; lra.
Qed.

Lemma transpose_right_handed (m : Mat4) (parent : option RT.t) (l : bool) :
  rigid m -> right_handed m -> right_handed (RT.rt (RT.transpose (RT.Build m parent l))).
Proof.
  intros ((U0 & U1 & U2) & (O01 & O02 & O12) & Hh) Rm.
  apply norm_one_dot in U0, U1, U2.
  destruct m as [[a0 a1 a2 a3] [b0 b1 b2 b3] [c0 c1 c2 c3] [d0 d1 d2 d3]].
  unfold homogeneous in Hh; simpl in Hh. injection Hh as -> -> -> ->.
  unfold right_handed, cross, dot, col3, mget in *; simpl in *.
  injection Rm as Rm0 Rm1 Rm2.
  destruct (rotation_cofactors a0 a1 b0 b1 c0 c1 U0 U1 O01) as (Ca & Cb & Cd & Ce & Cg & Ch).
  cbv zeta in *. rewrite <- Rm0, <- Rm1, <- Rm2 in *.
  cbv [RT.transpose RT.copy RT.rt RT.parent_rt RT.is_rt_local clear_row3 set_col3 mT
       block3_mulv row3_of mcol mget mrow vget vset vopp dot col3 cross
       row0 row1 row2 row3 e0 e1 e2 e3 vx vy vz].
  f_equal; lra.
Qed.

Lemma identity_rigid : rigid identity /\ right_handed identity.
Proof.
  unfold rigid, unit_columns, orthogonal_columns, homogeneous, right_handed.
  repeat split; try apply norm_of_dot_one;
    cbv [identity col3 mget mrow vget dot cross row0 row1 row2 row3 e0 e1 e2 e3 vx vy vz];
    try ring. f_equal; ring.
Qed.

(** X9.  The rigid transforms are closed under the operations of the
    class: the product [a @ b] of two rigid transforms and the transpose of
    a rigid transform are rigid, right-handed when the operands are, and
    the default transform (the identity) is rigid and right-handed.  The
    same for [SegmentCoordinateSystemReal]. *)
Theorem rigid_transforms_closed (a b : Mat4) (l : bool) :
  rigid a -> rigid b ->
  (forall parent : option RT.t,
      let A := RT.Build a parent l in
      rigid (RT.matmul A b) /\
      rigid (RT.rt (RT.transpose A)) /\
      (right_handed a -> right_handed b -> right_handed (RT.matmul A b)) /\
      (right_handed a -> right_handed (RT.rt (RT.transpose A)))) /\
  (forall parent : option SegmentCoordinateSystemReal.t,
      let A := SegmentCoordinateSystemReal.Build a parent l in
      rigid (SegmentCoordinateSystemReal.matmul A b) /\
      rigid (SegmentCoordinateSystemReal.scs (SegmentCoordinateSystemReal.transpose A)) /\
      (right_handed a -> right_handed b ->
       right_handed (SegmentCoordinateSystemReal.matmul A b)) /\
      (right_handed a ->
       right_handed
         (SegmentCoordinateSystemReal.scs (SegmentCoordinateSystemReal.transpose A)))) /\
  rigid (RT.rt RT.default) /\ right_handed (RT.rt RT.default).
Proof.
  intros Ha Hb. split; [| split; [| exact identity_rigid]].
  - intros parent A. subst A. unfold RT.matmul.
    change (RT.rt (RT.Build a parent l)) with a.
    split; [apply mmul_rigid; assumption |].
    split; [apply transpose_rigid; assumption |].
    split; [intros Ra Rb; apply mmul_right_handed; assumption |].
    intros Ra; apply transpose_right_handed; assumption.
  - intros parent A. subst A. unfold SegmentCoordinateSystemReal.matmul.
    change (SegmentCoordinateSystemReal.scs (SegmentCoordinateSystemReal.Build a parent l))
      with a.
    split; [apply mmul_rigid; assumption |].
    split; [exact (transpose_rigid a None l Ha) |].
    split; [intros Ra Rb; apply mmul_right_handed; assumption |].
    intros Ra; exact (transpose_right_handed a None l Ha Ra).
Qed.

Lemma rigid_transforms_closed_witness :
  rigid (RT.matmul (RT.Build (translation 1 2 3) None false) (translation 4 5 6)) /\
  rigid (RT.rt (RT.transpose (RT.Build (translation 1 2 3) None false))).
Proof.
  destruct (proj1 (rigid_transforms_closed (translation 1 2 3) (translation 4 5 6) false
                     (translation_rigid 1 2 3) (translation_rigid 4 5 6)) None)
    as (H1 & H2 & _).
  split; [exact H1 | exact H2].
Defined.

(** ** The frame recipes: [RTGeneric.to_rt] *)

(** The parent of [from_markers] is only attached to the result. *)
Lemma from_markers_parent (origin : Marker.t) (axes : Axis.t * Axis.t * Axis.Name)
    (p : option RT.t) :
  RT.from_markers origin axes p
  = match RT.from_markers origin axes None with
    | Ok f => Ok (RT.Build (RT.rt f) p false)
    | Raise e => Raise e
    end.
Proof.
  unfold RT.from_markers.
  destruct (Axis.Name_eqb _ _); [reflexivity |].
  destruct (RT.reorder _ _) as [[t a1] a2]. unfold Axis.axis, ezc3d_found. cbv [negb bind].
  destruct (Axis.Name_eqb (snd axes) (Axis.name a1)); [reflexivity |].
  destruct (Axis.Name_eqb (snd axes) (Axis.name a2)); reflexivity.
Qed.

Lemma to_rt_parent (r : RTGeneric.t) (c3d : C3d.t) (p : option RT.t) :
  RTGeneric.to_rt r c3d p
  = match RTGeneric.to_rt r c3d None with
    | Ok f => Ok (RT.Build (RT.rt f) p false)
    | Raise e => Raise e
    end.
Proof.
  unfold RTGeneric.to_rt.
  destruct (MarkerGeneric.to_marker _ _ _) as [origin | e]; [| reflexivity]. cbv [bind].
  destruct (AxisGeneric.to_axis (fst _) _ _) as [a0 | e]; [| reflexivity].
  destruct (AxisGeneric.to_axis (snd _) _ _) as [a1 | e]; [| reflexivity].
  apply from_markers_parent.
Qed.

Lemma to_axis_steps (a : AxisGeneric.t) (c3d : C3d.t) (p : option RT.t) :
  AxisGeneric.to_axis a c3d p
  = (start <- MarkerGeneric.to_marker (AxisGeneric.start_point a) c3d p ;;
     end_ <- MarkerGeneric.to_marker (AxisGeneric.end_point a) c3d p ;;
     Ok (Axis.Build (AxisGeneric.name a) start end_)).
Proof. reflexivity. Qed.

Lemma right_handed_frame_rigid (origin : Marker.t) (first second : Axis.t) (m : Mat4) :
  right_handed_frame origin first second m ->
  rigid m /\ right_handed m /\ col3 m 3 = Marker.position origin.
Proof.
  intros (Hu & Ho & Hr & _ & _ & Hc & Hh).
  split; [split; [exact Hu | split; [exact Ho | exact Hh]] |].
  split; [exact Hr |].
  destruct m as [[a0 a1 a2 a3] [b0 b1 b2 b3] [c0 c1 c2 c3] [d0 d1 d2 d3]].
  destruct (Marker.position origin) as [x y z].
  cbv [mcol mrow mget vget col3 row0 row1 row2 row3 e0 e1 e2 e3 vx vy vz] in Hc |- *.
  injection Hc as -> -> -> _. reflexivity.
Qed.

(** X10.  A frame recipe is resolved in the global frame, whatever the
    parent: the parent passed to [to_rt] is attached to the result and has
    no part in its matrix or in its failures.  When the origin and the two
    axes resolve, with distinct axis names, a name to keep that is one of
    them and axes that are not parallel, the matrix is a right-handed rigid
    transform placed at the origin marker; with a parent that is itself
    rigid and holds its global matrix, what [__str__] prints is then the
    rigid matrix of the frame relative to its parent. *)
Theorem to_rt_global_rigid_frame (r : RTGeneric.t) (c3d : C3d.t)
    (origin : Marker.t) (first second : Axis.t) :
  MarkerGeneric.to_marker (RTGeneric.origin r) c3d None = Ok origin ->
  AxisGeneric.to_axis (fst (fst (RTGeneric.axes r))) c3d None = Ok first ->
  AxisGeneric.to_axis (snd (fst (RTGeneric.axes r))) c3d None = Ok second ->
  first_name r <> second_name r ->
  name_to_keep r = first_name r \/ name_to_keep r = second_name r ->
  ~ parallel (axis_vector first) (axis_vector second) ->
  exists m : Mat4,
    (forall p : option RT.t, RTGeneric.to_rt r c3d p = Ok (RT.Build m p false)) /\
    rigid m /\ right_handed m /\ col3 m 3 = Marker.position origin /\
    (forall (P : Mat4) (grandparent : option RT.t) (l : bool),
        rigid P ->
        let parent := RT.Build P grandparent l in
        rigid (RT.str_rt (RT.Build m (Some parent) false)) /\
        mmul P (RT.str_rt (RT.Build m (Some parent) false)) = m).
Proof.
  intros Ho Hf Hs Hd Hk Hp.
  assert (Hnf : Axis.name first = first_name r).
  { rewrite to_axis_steps in Hf. apply bind_ok in Hf as (s & _ & Hf).
    apply bind_ok in Hf as (e & _ & Hf). injection Hf as <-. reflexivity. }
  assert (Hns : Axis.name second = second_name r).
  { rewrite to_axis_steps in Hs. apply bind_ok in Hs as (s & _ & Hs).
    apply bind_ok in Hs as (e & _ & Hs). injection Hs as <-. reflexivity. }
  rewrite <- Hnf, <- Hns in Hd, Hk.
  destruct (from_markers_frame origin first second (name_to_keep r) None Hd Hk Hp)
    as (m & Hm & Hframe).
  apply right_handed_frame_rigid in Hframe as (Hrigid & Hright & Horigin).
  exists m. split; [| split; [exact Hrigid | split; [exact Hright | split; [exact Horigin |]]]].
  - intros p. rewrite to_rt_parent. unfold RTGeneric.to_rt.
    rewrite Ho, Hf, Hs. cbv [bind]. unfold name_to_keep in Hm. rewrite Hm. reflexivity.
  - intros P grandparent l HP parent. subst parent.
    assert (Hstr : RT.str_rt (RT.Build m (Some (RT.Build P grandparent l)) false)
                   = mmul (RT.rt (RT.transpose (RT.Build P grandparent l))) m)
      by reflexivity.
    rewrite Hstr. split.
    + apply mmul_rigid; [| exact Hrigid].
      apply transpose_rigid, HP.
    + rewrite <- mmul_assoc, (transpose_right_inverse P grandparent l HP).
      apply mmul_identity_left.
Qed.

Lemma to_rt_global_rigid_frame_witness :
  exists m : Mat4,
    RTGeneric.to_rt example_frame_recipe example_frame_trial None
    = Ok (RT.Build m None false) /\ rigid m.
Proof.
  edestruct (to_rt_global_rigid_frame example_frame_recipe example_frame_trial)
    as (m & Hm & Hr & _).
  - reflexivity.
  - reflexivity.
  - reflexivity.
  - discriminate.
  - left; reflexivity.
  - unfold parallel, axis_vector, cross, vsub, vzero; simpl. intros H.
    injection H as _ _ H. cbv [dot4 e0 e1 e2 e3] in H. lra.
  - exists m. split; [apply Hm | exact Hr].
Defined.

(** *** What [to_rt] raises, and when *)

Lemma to_rt_steps (r : RTGeneric.t) (c3d : C3d.t) (p : option RT.t) :
  RTGeneric.to_rt r c3d p
  = (origin <- MarkerGeneric.to_marker (RTGeneric.origin r) c3d None ;;
     start0 <- MarkerGeneric.to_marker
                 (AxisGeneric.start_point (fst (fst (RTGeneric.axes r)))) c3d None ;;
     end0 <- MarkerGeneric.to_marker
               (AxisGeneric.end_point (fst (fst (RTGeneric.axes r)))) c3d None ;;
     start1 <- MarkerGeneric.to_marker
                 (AxisGeneric.start_point (snd (fst (RTGeneric.axes r)))) c3d None ;;
     end1 <- MarkerGeneric.to_marker
               (AxisGeneric.end_point (snd (fst (RTGeneric.axes r)))) c3d None ;;
     RT.from_markers origin
       (Axis.Build (first_name r) start0 end0, Axis.Build (second_name r) start1 end1,
        name_to_keep r) p).
Proof.
  unfold RTGeneric.to_rt. rewrite !to_axis_steps.
  destruct (MarkerGeneric.to_marker (RTGeneric.origin r) c3d None); [| reflexivity].
  cbv [bind].
  destruct (MarkerGeneric.to_marker (AxisGeneric.start_point (fst _)) c3d None);
    [| reflexivity].
  destruct (MarkerGeneric.to_marker (AxisGeneric.end_point (fst _)) c3d None);
    [| reflexivity].
  destruct (MarkerGeneric.to_marker (AxisGeneric.start_point (snd _)) c3d None);
    [| reflexivity].
  destruct (MarkerGeneric.to_marker (AxisGeneric.end_point (snd _)) c3d None);
    reflexivity.
Qed.

Lemma Name_eqb_refl (n : Axis.Name) : Axis.Name_eqb n n = true.
Proof. destruct n; reflexivity. Qed.

(** X11.  [set_rt] stores a frame recipe unchecked; what is wrong with it
    shows when [to_rt] resolves it.  The five markers of the recipe are
    resolved first, in the order origin, start and end of the first axis,
    start and end of the second: the first of them that fails gives the
    error, whatever the axis names.  Only when all five resolve are the
    names looked at: two equal axis names raise "The two axes cannot be
    the same axis", a name to keep that is neither of two distinct names
    raises "Name of axis to keep should be one of the two axes", and in
    every other case a frame is returned. *)
Theorem to_rt_failures (r : RTGeneric.t) (c3d : C3d.t) (p : option RT.t) :
  let resolved :=
    first_raise (map (fun g => MarkerGeneric.to_marker g c3d None) (recipe_markers r)) in
  (forall e : exception, resolved = Some e -> RTGeneric.to_rt r c3d p = Raise e) /\
  (resolved = None ->
   (first_name r = second_name r ->
    RTGeneric.to_rt r c3d p = Raise (ValueError "The two axes cannot be the same axis")) /\
   (first_name r <> second_name r ->
    name_to_keep r <> first_name r -> name_to_keep r <> second_name r ->
    RTGeneric.to_rt r c3d p
    = Raise (ValueError "Name of axis to keep should be one of the two axes")) /\
   (first_name r <> second_name r ->
    name_to_keep r = first_name r \/ name_to_keep r = second_name r ->
    exists m, RTGeneric.to_rt r c3d p = Ok (RT.Build m p false))) /\
  (forall (s : SegmentGeneric.t) (origin : str_or_tuple) (n1 n2 keep : Axis.Name)
          (m1 m2 : str_or_tuple * str_or_tuple),
      exists r',
        SegmentGeneric.rt (SegmentGeneric.set_rt s origin n1 m1 n2 m2 keep) = Some r' /\
        first_name r' = n1 /\ second_name r' = n2 /\ name_to_keep r' = keep /\
        map MarkerGeneric.from_markers (recipe_markers r')
        = [origin; fst m1; snd m1; fst m2; snd m2]).
Proof.
  intros resolved. subst resolved. rewrite to_rt_steps. unfold recipe_markers.
  cbv [map first_raise].
  destruct (MarkerGeneric.to_marker (RTGeneric.origin r) c3d None) as [origin | e0];
    [| split; [intros e H; injection H as <-; reflexivity
              | split; [discriminate | intros; eexists; repeat split; reflexivity]]].
  destruct (MarkerGeneric.to_marker (AxisGeneric.start_point (fst _)) c3d None)
    as [start0 | e0];
    [| split; [intros e H; injection H as <-; reflexivity
              | split; [discriminate | intros; eexists; repeat split; reflexivity]]].
  destruct (MarkerGeneric.to_marker (AxisGeneric.end_point (fst _)) c3d None)
    as [end0 | e0];
    [| split; [intros e H; injection H as <-; reflexivity
              | split; [discriminate | intros; eexists; repeat split; reflexivity]]].
  destruct (MarkerGeneric.to_marker (AxisGeneric.start_point (snd _)) c3d None)
    as [start1 | e0];
    [| split; [intros e H; injection H as <-; reflexivity
              | split; [discriminate | intros; eexists; repeat split; reflexivity]]].
  destruct (MarkerGeneric.to_marker (AxisGeneric.end_point (snd _)) c3d None)
    as [end1 | e0];
    [| split; [intros e H; injection H as <-; reflexivity
              | split; [discriminate | intros; eexists; repeat split; reflexivity]]].
  cbv [bind].
  split; [discriminate |]. split; [| intros; eexists; repeat split; reflexivity].
  intros _. split; [| split].
  - intros Heq. unfold RT.from_markers. cbv [fst snd].
    change (Axis.name (Axis.Build (first_name r) start0 end0)) with (first_name r).
    change (Axis.name (Axis.Build (second_name r) start1 end1)) with (second_name r).
    rewrite Heq, Name_eqb_refl. reflexivity.
  - intros Hd Hk1 Hk2. unfold RT.from_markers. cbv [fst snd].
    change (Axis.name (Axis.Build (first_name r) start0 end0)) with (first_name r).
    change (Axis.name (Axis.Build (second_name r) start1 end1)) with (second_name r).
    rewrite (proj2 (Name_eqb_neq _ _) Hd).
    assert (Hnames : forall t a1 a2,
      RT.reorder (Axis.Build (first_name r) start0 end0)
                 (Axis.Build (second_name r) start1 end1) = (t, a1, a2) ->
      Axis.Name_eqb (name_to_keep r) (Axis.name a1) = false /\
      Axis.Name_eqb (name_to_keep r) (Axis.name a2) = false).
    { intros t a1 a2. unfold RT.reorder.
      change (Axis.name (Axis.Build (first_name r) start0 end0)) with (first_name r).
      change (Axis.name (Axis.Build (second_name r) start1 end1)) with (second_name r).
      apply Name_eqb_neq in Hk1, Hk2.
      destruct (first_name r), (second_name r); cbv [Axis.Name_eqb];
        intros H; injection H as <- <- <-; split; assumption. }
    destruct (RT.reorder _ _) as [[t a1] a2].
    destruct (Hnames t a1 a2 eq_refl) as [H1 H2].
    unfold Axis.axis, ezc3d_found. cbv [negb bind]. rewrite H1, H2. reflexivity.
  - intros Hd Hk.
    destruct (from_markers_columns origin (Axis.Build (first_name r) start0 end0)
                (Axis.Build (second_name r) start1 end1) (name_to_keep r) p Hd Hk)
      as (m & Hm & _).
    exists m. exact Hm.
Qed.

Lemma to_rt_failures_witness :
  RTGeneric.to_rt (example_recipe Axis.X Axis.X Axis.Z) example_trial None
  = Raise (ValueError "The two axes cannot be the same axis") /\
  RTGeneric.to_rt (example_recipe Axis.X Axis.Y Axis.Z) example_trial None
  = Raise (ValueError "Name of axis to keep should be one of the two axes") /\
  RTGeneric.to_rt (example_recipe Axis.X Axis.X Axis.Z) example_empty_trial None
  = Raise (markers_not_present ["A"%string]).
Proof.
  split; [| split].
  - apply (proj1 (proj2 (to_rt_failures (example_recipe Axis.X Axis.X Axis.Z)
                           example_trial None))); reflexivity.
  - apply (proj1 (proj2 (proj1 (proj2 (to_rt_failures (example_recipe Axis.X Axis.Y Axis.Z)
                                         example_trial None)) eq_refl)));
      discriminate.
  - apply (proj1 (to_rt_failures (example_recipe Axis.X Axis.X Axis.Z)
                    example_empty_trial None)).
    reflexivity.
Defined.

(** ** Building the generic model *)

Lemma dict_getitem_setitem {V : Type} (d : list (string * V)) (k : string) (v : V) :
  dict_getitem (dict_setitem d k v) k = Ok v.
Proof.
  induction d as [| [k' v'] d IH]; simpl.
  - rewrite String.eqb_refl; reflexivity.
  - destruct (String.eqb k' k) eqn:E; simpl; rewrite E; [reflexivity | exact IH].
Qed.

Lemma dict_getitem_setitem_other {V : Type} (d : list (string * V)) (k k' : string)
    (v : V) :
  k' <> k -> dict_getitem (dict_setitem d k v) k' = dict_getitem d k'.
Proof.
  intros Hne. induction d as [| [k0 v0] d IH]; simpl.
  - destruct (String.eqb_spec k k'); [congruence | reflexivity].
  - destruct (String.eqb_spec k0 k) as [-> | Hk]; simpl.
    + destruct (String.eqb_spec k k'); [congruence | reflexivity].
    + destruct (String.eqb k0 k'); [reflexivity | exact IH].
Qed.

Lemma dict_getitem_missing {V : Type} (d : list (string * V)) (k : string) :
  ~ In k (map fst d) -> dict_getitem d k = Raise (KeyError k).
Proof.
  induction d as [| [k' v'] d IH]; simpl; intros H; [reflexivity |].
  destruct (String.eqb_spec k' k) as [-> | Hk]; [exfalso; apply H; left; reflexivity |].
  apply IH. intros Hin; apply H; right; exact Hin.
Qed.

Lemma dict_getitem_present {V : Type} (d : list (string * V)) (k : string) (v : V) :
  dict_getitem d k = Ok v -> In k (map fst d).
Proof.
  induction d as [| [k' v'] d IH]; simpl; intros H; [discriminate |].
  destruct (String.eqb_spec k' k) as [-> | Hk]; [left; reflexivity | right; apply IH, H].
Qed.

Lemma dict_setitem_keys_present {V : Type} (d : list (string * V)) (k : string) (v : V) :
  In k (map fst d) -> map fst (dict_setitem d k v) = map fst d.
Proof.
  intros Hin. rewrite dict_setitem_keys.
  apply existsb_eqb_In in Hin. rewrite Hin. reflexivity.
Qed.

Lemma dict_setitem_keys_missing {V : Type} (d : list (string * V)) (k : string) (v : V) :
  ~ In k (map fst d) -> map fst (dict_setitem d k v) = map fst d ++ [k].
Proof.
  intros Hnotin. rewrite dict_setitem_keys.
  destruct (existsb (String.eqb k) (map fst d)) eqn:E; [| reflexivity].
  exfalso. apply Hnotin. apply existsb_eqb_In. exact E.
Qed.

(** X12.  [add_segment] files a fresh segment under its name: looking the
    name up gives a segment with the given fields, no marker and no frame
    recipe, every other segment is as it was, a new name goes to the end of
    the order and a name that is already there keeps its place, its former
    markers and recipe being dropped. *)
Theorem add_segment_declares (g : KinematicModelGeneric.t)
    (name parent_name translations rotations : string) :
  let g' := KinematicModelGeneric.add_segment g name parent_name translations rotations in
  dict_getitem (KinematicModelGeneric.segments g') name
  = Ok (SegmentGeneric.Build name parent_name translations rotations [] None) /\
  (forall k : string,
      k <> name ->
      dict_getitem (KinematicModelGeneric.segments g') k
      = dict_getitem (KinematicModelGeneric.segments g) k) /\
  (In name (map fst (KinematicModelGeneric.segments g)) ->
   map fst (KinematicModelGeneric.segments g') = map fst (KinematicModelGeneric.segments g)) /\
  (~ In name (map fst (KinematicModelGeneric.segments g)) ->
   map fst (KinematicModelGeneric.segments g')
   = map fst (KinematicModelGeneric.segments g) ++ [name]) /\
  (wf_model g -> wf_model g').
Proof.
  intros g'. subst g'. unfold KinematicModelGeneric.add_segment. simpl.
  split; [apply dict_getitem_setitem |].
  split; [intros k Hk; apply dict_getitem_setitem_other, Hk |].
  split; [apply dict_setitem_keys_present |].
  split; [apply dict_setitem_keys_missing |].
  apply wf_model_add_segment.
Qed.

Lemma add_segment_declares_witness :
  map fst (KinematicModelGeneric.segments
             (KinematicModelGeneric.add_segment example_child_first "THIGH" "" "" "xyz"))
  = ["THIGH"; "PELVIS"]%string.
Proof.
  apply (proj1 (proj2 (proj2 (add_segment_declares example_child_first
                                "THIGH" "" "" "xyz")))).
  simpl. left; reflexivity.
Defined.

(** X13.  [add_marker] and [set_rt] change the one segment they name and
    nothing else: on a declared segment they succeed, the segment gets the
    marker appended after its markers (filed with the segment's key as
    parent name and, without [from_markers], its own name as the label to
    read), respectively the recipe with its markers untouched; the other
    segments and the order of the keys are as before.  On a name that was
    not declared both raise [KeyError] of the name. *)
Theorem add_marker_and_set_rt_update (g : KinematicModelGeneric.t) (segment : string) :
  (forall (s : SegmentGeneric.t) (name : string) (from_markers : option str_or_tuple)
          (is_technical is_anatomical : bool),
      dict_getitem (KinematicModelGeneric.segments g) segment = Ok s ->
      exists g',
        KinematicModelGeneric.add_marker g segment name from_markers
          is_technical is_anatomical = Ok g' /\
        dict_getitem (KinematicModelGeneric.segments g') segment
        = Ok (SegmentGeneric.Build
                (SegmentGeneric.name s) (SegmentGeneric.parent_name s)
                (SegmentGeneric.translations s) (SegmentGeneric.rotations s)
                (SegmentGeneric.markers s
                 ++ [declared_marker segment name from_markers is_technical is_anatomical])
                (SegmentGeneric.rt s)) /\
        (forall k : string,
            k <> segment ->
            dict_getitem (KinematicModelGeneric.segments g') k
            = dict_getitem (KinematicModelGeneric.segments g) k) /\
        map fst (KinematicModelGeneric.segments g')
        = map fst (KinematicModelGeneric.segments g)) /\
  (forall (s : SegmentGeneric.t) (origin : str_or_tuple) (n1 n2 keep : Axis.Name)
          (m1 m2 : str_or_tuple * str_or_tuple),
      dict_getitem (KinematicModelGeneric.segments g) segment = Ok s ->
      exists g' s' recipe,
        KinematicModelGeneric.set_rt g segment origin n1 m1 n2 m2 keep = Ok g' /\
        dict_getitem (KinematicModelGeneric.segments g') segment = Ok s' /\
        SegmentGeneric.rt s' = Some recipe /\
        first_name recipe = n1 /\ second_name recipe = n2 /\ name_to_keep recipe = keep /\
        map MarkerGeneric.from_markers (recipe_markers recipe)
        = [origin; fst m1; snd m1; fst m2; snd m2] /\
        SegmentGeneric.markers s' = SegmentGeneric.markers s /\
        SegmentGeneric.name s' = SegmentGeneric.name s /\
        SegmentGeneric.parent_name s' = SegmentGeneric.parent_name s /\
        (forall k : string,
            k <> segment ->
            dict_getitem (KinematicModelGeneric.segments g') k
            = dict_getitem (KinematicModelGeneric.segments g) k) /\
        map fst (KinematicModelGeneric.segments g')
        = map fst (KinematicModelGeneric.segments g)) /\
  (~ In segment (map fst (KinematicModelGeneric.segments g)) ->
   (forall (name : string) (from_markers : option str_or_tuple)
           (is_technical is_anatomical : bool),
       KinematicModelGeneric.add_marker g segment name from_markers
         is_technical is_anatomical = Raise (KeyError segment)) /\
   (forall (origin : str_or_tuple) (n1 n2 keep : Axis.Name)
           (m1 m2 : str_or_tuple * str_or_tuple),
       KinematicModelGeneric.set_rt g segment origin n1 m1 n2 m2 keep
       = Raise (KeyError segment))).
Proof.
  split; [| split].
  - intros s name from_markers is_technical is_anatomical Hs.
    unfold KinematicModelGeneric.add_marker. rewrite Hs. cbv [bind].
    eexists. split; [reflexivity |]. simpl.
    split; [rewrite dict_getitem_setitem; destruct from_markers; reflexivity |].
    split; [intros k Hk; apply dict_getitem_setitem_other, Hk |].
    apply dict_setitem_keys_present. apply (dict_getitem_present _ _ _ Hs).
  - intros s origin n1 n2 keep m1 m2 Hs.
    unfold KinematicModelGeneric.set_rt. rewrite Hs. cbv [bind].
    eexists. eexists. eexists. split; [reflexivity |]. simpl.
    split; [apply dict_getitem_setitem |].
    split; [reflexivity |]. repeat (split; [reflexivity |]).
    split; [intros k Hk; apply dict_getitem_setitem_other, Hk |].
    apply dict_setitem_keys_present. apply (dict_getitem_present _ _ _ Hs).
  - intros Hnotin. split; intros.
    + unfold KinematicModelGeneric.add_marker.
      rewrite (dict_getitem_missing _ _ Hnotin). reflexivity.
    + unfold KinematicModelGeneric.set_rt.
      rewrite (dict_getitem_missing _ _ Hnotin). reflexivity.
Qed.

Lemma add_marker_and_set_rt_update_witness :
  KinematicModelGeneric.add_marker example_root "THIGH" "B" None true false
  = Raise (KeyError "THIGH") /\
  exists g',
    KinematicModelGeneric.add_marker example_root "ROOT" "B" None true false = Ok g' /\
    map fst (KinematicModelGeneric.segments g') = ["ROOT"%string].
Proof.
  destruct (add_marker_and_set_rt_update example_root "ROOT") as (Hadd & _ & _).
  destruct (Hadd (SegmentGeneric.Build "ROOT" EmptyString EmptyString EmptyString
                    [MarkerGeneric.Build "A" (Str "A") "ROOT" true false] None)
                 "B"%string None true false eq_refl) as (g' & Hg' & _ & _ & Hkeys).
  split.
  - apply (proj2 (proj2 (add_marker_and_set_rt_update example_root "THIGH"))).
    simpl. intros [H | []]. discriminate H.
  - exists g'. split; [exact Hg' | exact Hkeys].
Defined.

(** ** What the chain holds *)

Lemma add_markers_fields (markers : list Marker.t) (segment : Segment.t) :
  let segment' := fold_left Segment.add_marker markers segment in
  Segment.name segment' = Segment.name segment /\
  Segment.parent_name segment' = Segment.parent_name segment /\
  Segment.translations segment' = Segment.translations segment /\
  Segment.rotations segment' = Segment.rotations segment /\
  Segment.markers segment' = Segment.markers segment ++ markers /\
  Segment.rt segment' = Segment.rt segment /\
  Segment.mass segment' = Segment.mass segment /\
  Segment.center_of_mass segment' = Segment.center_of_mass segment /\
  Segment.inertia_xxyyzz segment' = Segment.inertia_xxyyzz segment /\
  Segment.mesh segment' = Segment.mesh segment.
Proof.
  revert segment; induction markers as [| m markers IH]; intros segment; simpl.
  - rewrite app_nil_r. repeat split; reflexivity.
  - destruct (IH (Segment.add_marker segment m))
      as (H1 & H2 & H3 & H4 & H5 & H6 & H7 & H8 & H9 & H10).
    simpl in *. rewrite H1, H2, H3, H4, H5, H6, H7, H8, H9, H10, <- app_assoc.
    repeat split; reflexivity.
Qed.

(** One turn of the loop, when it returns. *)
Lemma personalize_generic_personalized (c3d : C3d.t) (built built' : list Segment.t)
    (s : SegmentGeneric.t) :
  personalize_generic c3d built s = Ok built' ->
  exists segment, built' = built ++ [segment] /\ personalized c3d built s segment.
Proof.
  unfold personalize_generic. intros H.
  apply bind_ok in H as (parent_index & Hidx & H).
  apply bind_ok in H as (rt & Hrt & H).
  apply bind_ok in H as (markers & Hmarkers & H).
  injection H as <-. eexists. split; [reflexivity |].
  destruct (add_markers_fields markers
              (Segment.init (SegmentGeneric.name s) (SegmentGeneric.parent_name s) (Some rt)
                 (SegmentGeneric.translations s) (SegmentGeneric.rotations s)))
    as (H1 & H2 & H3 & H4 & H5 & H6 & H7 & H8 & H9 & H10).
  unfold personalized. rewrite H1, H2, H3, H4, H5, H6, H7, H8, H9, H10.
  clear H1 H2 H3 H4 H5 H6 H7 H8 H9 H10. simpl.
  repeat (split; [reflexivity |]).
  exists rt. split; [reflexivity |]. split; [| exact Hmarkers].
  destruct (SegmentGeneric.rt s) as [recipe |]; [| injection Hrt as <-; reflexivity].
  apply bind_ok in Hrt as (frame & Hframe & Hrt).
  exists frame. split; [| exact Hrt].
  unfold parent_frame.
  destruct (Segment.truthy (SegmentGeneric.parent_name s)).
  - apply bind_ok in Hidx as (i & Hi & Hidx). injection Hidx as <-.
    apply bind_ok in Hframe as (parent & Hparent & Hframe). injection Hframe as <-.
    unfold getitem in Hparent.
    destruct (nth_error built i) as [parent' |] eqn:Hn; [| discriminate].
    injection Hparent as ->.
    exists i, parent. split; [exact Hi |]. split; [exact Hn |]. split; [| reflexivity].
    assert (Hin : In (SegmentGeneric.parent_name s) (map Segment.name built)).
    { destruct (in_dec string_dec (SegmentGeneric.parent_name s)
                       (map Segment.name built)) as [Hin | Hnotin]; [exact Hin |].
      unfold index in Hi. rewrite index_from_not_in in Hi by exact Hnotin. discriminate. }
    destruct (index_from_in _ _ 0%nat Hin) as (j & Hj & Hnth).
    unfold index in Hi. rewrite Hi in Hj. injection Hj as <-. simpl in Hnth.
    rewrite nth_error_map, Hn in Hnth. simpl in Hnth. injection Hnth as ->. reflexivity.
  - injection Hidx as <-. injection Hframe as <-. reflexivity.
Qed.

Lemma personalize_entries_personalized (c3d : C3d.t)
    (l1 l2 : list (string * SegmentGeneric.t)) (k : string) (s : SegmentGeneric.t)
    (built built' : list Segment.t) :
  personalize_entries c3d (l1 ++ (k, s) :: l2) built = Ok built' ->
  exists done segment rest,
    built' = built ++ done ++ segment :: rest /\
    List.length done = List.length l1 /\ List.length rest = List.length l2 /\
    personalized c3d (built ++ done) s segment.
Proof.
  revert built. induction l1 as [| [k1 s1] l1 IH]; simpl; intros built H.
  - apply bind_ok in H as (built1 & H1 & H).
    apply personalize_generic_personalized in H1 as (segment & -> & Hp).
    assert (Hrest : exists rest, built' = (built ++ [segment]) ++ rest /\
                                 List.length rest = List.length l2).
    { clear Hp. revert H. generalize (built ++ [segment]). clear.
      induction l2 as [| [k2 s2] l2 IH]; simpl; intros l H.
      - injection H as <-. exists []. rewrite app_nil_r. split; reflexivity.
      - apply bind_ok in H as (l' & H1 & H).
        apply personalize_generic_appends in H1 as (segment' & -> & _).
        destruct (IH _ H) as (rest & -> & Hlen).
        exists (segment' :: rest). rewrite <- app_assoc. simpl.
        split; [reflexivity | rewrite Hlen; reflexivity]. }
    destruct Hrest as (rest & -> & Hlen).
    exists [], segment, rest. rewrite <- app_assoc. simpl. rewrite app_nil_r.
    split; [reflexivity |]. split; [reflexivity |]. split; [exact Hlen | exact Hp].
  - apply bind_ok in H as (built1 & H1 & H).
    apply personalize_generic_appends in H1 as (segment1 & -> & _).
    destruct (IH _ H) as (done & segment & rest & -> & Hd & Hr & Hp).
    exists (segment1 :: done), segment, rest.
    rewrite <- !app_assoc in *. simpl in *.
    split; [reflexivity |]. split; [rewrite Hd; reflexivity |]. split; [exact Hr | exact Hp].
Qed.

(** X14.  When the assembly succeeds, the segment at each position of the
    chain is the generic segment at that position made concrete: same
    name, parent name, translations and rotations, the default mass,
    centre of mass, inertia and no mesh; its frame is the default RT when
    the generic segment has no recipe, else the recipe resolved with,
    attached as parent, the frame of the first earlier segment that has the
    parent name (none for a root); and its markers are the generic markers,
    in order, each resolved in that frame. *)
Theorem personalized_chain_segments (g : KinematicModelGeneric.t) (c3d : C3d.t)
    (chain : KinematicChain.t) :
  wf_model g ->
  KinematicModelGeneric.personalized_chain g c3d = Ok chain ->
  forall (l1 l2 : list (string * SegmentGeneric.t)) (k : string) (s : SegmentGeneric.t),
    KinematicModelGeneric.segments g = l1 ++ (k, s) :: l2 ->
    exists done segment rest,
      KinematicChain.segments chain = done ++ segment :: rest /\
      List.length done = List.length l1 /\ List.length rest = List.length l2 /\
      personalized c3d done s segment.
Proof.
  intros [Hnd _] H l1 l2 k s Heq.
  rewrite personalized_chain_entries in H by exact Hnd.
  apply bind_ok in H as (segments & Hrun & H). injection H as <-.
  rewrite Heq in Hrun.
  destruct (personalize_entries_personalized c3d l1 l2 k s [] segments Hrun)
    as (done & segment & rest & -> & Hd & Hr & Hp).
  exists done, segment, rest. simpl in *.
  split; [reflexivity |]. split; [exact Hd |]. split; [exact Hr | exact Hp].
Qed.

Lemma personalized_chain_segments_witness :
  exists chain done segment rest,
    KinematicModelGeneric.personalized_chain example_parent_first example_trial = Ok chain /\
    KinematicChain.segments chain = done ++ segment :: rest /\
    List.length done = 1%nat /\
    Segment.name segment = "THIGH"%string /\
    Segment.parent_name segment = "PELVIS"%string.
Proof.
  destruct (personalized_chain_parents_precede example_parent_first example_trial)
    as (chain & Hc & _);
    [apply example_models_wf | repeat constructor | apply example_parent_first_precede |].
  destruct (personalized_chain_segments example_parent_first example_trial chain
              (proj2 (proj2 (proj2 example_models_wf))) Hc
              [("PELVIS"%string,
                SegmentGeneric.Build "PELVIS" EmptyString EmptyString EmptyString
                  [MarkerGeneric.Build "A" (Str "A") "PELVIS" true false] None)]
              [] "THIGH"%string
              (SegmentGeneric.Build "THIGH" "PELVIS" EmptyString EmptyString [] None)
              eq_refl)
    as (done & segment & rest & Hs & Hd & _ & Hname & Hparent & _).
  exists chain, done, segment, rest.
  split; [exact Hc |]. split; [exact Hs |]. split; [exact Hd |].
  split; [exact Hname | exact Hparent].
Defined.

(** ** More on the table of De Leva *)

Lemma norm_vscale (k : R) (v : Vec3) : 0 <= k -> norm (vscale k v) = k * norm v.
Proof.
  intros Hk. unfold norm.
  replace (dot (vscale k v) (vscale k v)) with (k * k * dot v v)
    by (unfold dot, vscale; simpl; ring).
  rewrite sqrt_mult; [| nra | apply dot_self_nonneg].
  rewrite sqrt_square by exact Hk. reflexivity.
Qed.

Lemma norm_vsub_sym (a b : Vec3) : norm (vsub a b) = norm (vsub b a).
Proof.
  unfold norm. f_equal. unfold dot, vsub; simpl. ring.
Qed.

Lemma dict_getitem_In {V : Type} (d : list (string * V)) (k : string) (v : V) :
  dict_getitem d k = Ok v -> In (k, v) d.
Proof.
  induction d as [| [k' v'] d IH]; simpl; intros H; [discriminate |].
  destruct (String.eqb_spec k' k) as [-> | Hk].
  - injection H as <-. left; reflexivity.
  - right; apply IH, H.
Qed.

Lemma DeLeva_center_of_mass_fraction (sex segment : string) (total : R) (model : Model.t)
    (p : DeLeva.Param) :
  DeLeva.param (DeLeva.init sex total model) segment = Ok p ->
  0 < DeLeva.center_of_mass p < 1.
Proof.
  unfold DeLeva.param. intros H.
  apply bind_ok in H as (by_segment & Hs & Hp).
  apply dict_getitem_In in Hs. apply dict_getitem_In in Hp.
  unfold DeLeva.table in Hs. simpl in Hs.
  destruct Hs as [Hs | [Hs | []]]; injection Hs as _ <-; simpl in Hp;
    repeat (destruct Hp as [Hp | Hp]; [injection Hp as _ <-; simpl; lra |]);
    contradiction.
Qed.

(** X15.  The centre of mass of a tabulated segment, measured from the
    proximal marker and (with [inverse_proximal]) from the distal one, is
    the same point of the line between the two markers at rest: the two
    offsets are c (distal - proximal) and (1 - c) (proximal - distal) for
    the fraction c of the table, which lies strictly between 0 and 1; they
    end at the same point, and their lengths c L and (1 - c) L add up to
    the segment length L. *)
Theorem DeLeva_center_of_mass (sex segment : string) (total : R) (model : Model.t)
    (p : DeLeva.Param) (proximal distal : Vec3) :
  DeLeva.param (DeLeva.init sex total model) segment = Ok p ->
  rest_position model (fst (DeLeva.marker_names p)) = Ok proximal ->
  rest_position model (snd (DeLeva.marker_names p)) = Ok distal ->
  let d := DeLeva.init sex total model in
  let c := DeLeva.center_of_mass p in
  let L := norm (vsub distal proximal) in
  let from_proximal := vscale c (vsub distal proximal) in
  let from_distal := vscale (1 - c) (vsub proximal distal) in
  DeLeva.segment_center_of_mass d segment false
  = Ok (vx from_proximal, vy from_proximal, vz from_proximal) /\
  DeLeva.segment_center_of_mass d segment true
  = Ok (vx from_distal, vy from_distal, vz from_distal) /\
  vadd proximal from_proximal = vadd distal from_distal /\
  0 < c < 1 /\
  DeLeva.segment_length d segment = Ok L /\
  norm from_proximal = c * L /\
  norm from_distal = (1 - c) * L /\
  norm from_proximal + norm from_distal = L.
Proof.
  intros Hp Hprox Hdist d c L from_proximal from_distal.
  pose proof (DeLeva_center_of_mass_fraction sex segment total model p Hp) as Hc.
  unfold rest_position in Hprox, Hdist.
  apply bind_ok in Hprox as (ip & Hip & Hgp).
  apply bind_ok in Hdist as (id & Hid & Hgd).
  assert (Hnp : norm from_proximal = c * L)
    by (apply norm_vscale; subst c; lra).
  assert (Hnd : norm from_distal = (1 - c) * L).
  { subst from_distal L. rewrite (norm_vsub_sym distal proximal).
    apply norm_vscale; subst c; lra. }
  split; [| split; [| split; [| split; [exact Hc | split; [| split; [exact Hnp | split]]]]]].
  - unfold DeLeva.segment_center_of_mass. subst d. rewrite Hp. simpl.
    rewrite Hip, Hid. simpl. rewrite Hgd. simpl. rewrite Hgp. reflexivity.
  - unfold DeLeva.segment_center_of_mass. subst d. rewrite Hp. simpl.
    rewrite Hip, Hid. simpl. rewrite Hgp. simpl. rewrite Hgd. reflexivity.
  - apply Vec3_eq; subst from_proximal from_distal; unfold vadd, vscale, vsub; simpl; ring.
  - unfold DeLeva.segment_length. subst d. rewrite Hp. simpl.
    rewrite Hip, Hid. simpl. rewrite Hgd. simpl. rewrite Hgp. reflexivity.
  - exact Hnd.
  - rewrite Hnp, Hnd. ring.
Qed.

Lemma DeLeva_center_of_mass_witness :
  DeLeva.segment_center_of_mass (DeLeva.init "male" 70 example_thigh_model) "THIGH" false
  = Ok (vx (vscale 0.4095 (vsub (mkVec3 0 0 1) (mkVec3 0 0 0))),
        vy (vscale 0.4095 (vsub (mkVec3 0 0 1) (mkVec3 0 0 0))),
        vz (vscale 0.4095 (vsub (mkVec3 0 0 1) (mkVec3 0 0 0)))).
Proof.
  exact (proj1 (DeLeva_center_of_mass "male" "THIGH" 70 example_thigh_model
                  (DeLeva.Build_Param ("PELVIS", "KNEE")%string (0.1416 * 2) 0.4095
                                      (0.329, 0.329, 0.149))
                  (mkVec3 0 0 0) (mkVec3 0 0 1) eq_refl eq_refl eq_refl)).
Defined.

(** X16.  The masses of the eight tabulated segments, the limbs counted
    for both sides as the table does, add up to the mass of the subject,
    for both sexes. *)
Theorem DeLeva_masses_add_up (sex : string) (total : R) (model : Model.t) :
  In sex sexes ->
  exists masses,
    mapM (DeLeva.segment_mass (DeLeva.init sex total model)) tabulated_segments
    = Ok masses /\
    List.length masses = 8%nat /\
    Rsum masses = total.
Proof.
  unfold sexes; simpl. intros [<- | [<- | []]];
    (eexists; split; [reflexivity |]; split; [reflexivity |]; simpl; lra).
Qed.

Lemma DeLeva_masses_add_up_witness :
  exists masses,
    mapM (DeLeva.segment_mass (DeLeva.init "female" 60 example_thigh_model))
         tabulated_segments = Ok masses /\
    Rsum masses = 60.
Proof.
  destruct (DeLeva_masses_add_up "female" 60 example_thigh_model) as (masses & H & _ & Hs).
  - simpl; right; left; reflexivity.
  - exists masses. split; [exact H | exact Hs].
Defined.

(** X17.  What the methods of [DeLeva] raise.  A sex that is not in the
    table gives [KeyError] of the sex and, for a known sex, a segment that
    is not in the table gives [KeyError] of the segment, in all four
    methods.  For a tabulated segment [segment_mass] never looks at the
    model; the three others fail with the [ValueError] of [list.index] for
    the proximal marker when the model does not have it, and for the distal
    one when only that is missing. *)
Theorem DeLeva_errors (sex segment : string) (total : R) (model : Model.t) :
  let d := DeLeva.init sex total model in
  (~ In sex sexes ->
   DeLeva.segment_mass d segment = Raise (KeyError sex) /\
   DeLeva.segment_length d segment = Raise (KeyError sex) /\
   (forall inverse_proximal,
       DeLeva.segment_center_of_mass d segment inverse_proximal = Raise (KeyError sex)) /\
   DeLeva.segment_moment_of_inertia d segment = Raise (KeyError sex)) /\
  (In sex sexes -> ~ In segment tabulated_segments ->
   DeLeva.segment_mass d segment = Raise (KeyError segment) /\
   DeLeva.segment_length d segment = Raise (KeyError segment) /\
   (forall inverse_proximal,
       DeLeva.segment_center_of_mass d segment inverse_proximal
       = Raise (KeyError segment)) /\
   DeLeva.segment_moment_of_inertia d segment = Raise (KeyError segment)) /\
  (forall p : DeLeva.Param,
      DeLeva.param d segment = Ok p ->
      DeLeva.segment_mass d segment = Ok (DeLeva.mass p * total) /\
      (forall missing : string,
          (~ In (fst (DeLeva.marker_names p)) (Model.markerNames model) /\
           missing = fst (DeLeva.marker_names p)) \/
          (In (fst (DeLeva.marker_names p)) (Model.markerNames model) /\
           ~ In (snd (DeLeva.marker_names p)) (Model.markerNames model) /\
           missing = snd (DeLeva.marker_names p)) ->
          DeLeva.segment_length d segment = Raise (ValueError (not_in_list missing)) /\
          (forall inverse_proximal,
              DeLeva.segment_center_of_mass d segment inverse_proximal
              = Raise (ValueError (not_in_list missing))) /\
          DeLeva.segment_moment_of_inertia d segment
          = Raise (ValueError (not_in_list missing)))).
Proof.
  intros d. subst d. split; [| split].
  - intros Hs.
    assert (Hp : DeLeva.param (DeLeva.init sex total model) segment = Raise (KeyError sex)).
    { unfold DeLeva.param. rewrite dict_getitem_missing by exact Hs. reflexivity. }
    unfold DeLeva.segment_mass, DeLeva.segment_length, DeLeva.segment_center_of_mass,
      DeLeva.segment_moment_of_inertia, DeLeva.segment_mass.
    rewrite Hp. repeat split; reflexivity.
  - intros Hs Hg.
    assert (Hp : DeLeva.param (DeLeva.init sex total model) segment
                 = Raise (KeyError segment)).
    { assert (Ht : exists by_segment,
                dict_getitem DeLeva.table sex = Ok by_segment /\
                map fst by_segment = tabulated_segments).
      { unfold sexes in Hs. simpl in Hs.
        destruct Hs as [<- | [<- | []]]; eexists; split; reflexivity. }
      destruct Ht as (by_segment & Ht & Hkeys).
      unfold DeLeva.param. change (DeLeva.sex (DeLeva.init sex total model)) with sex.
      rewrite Ht. cbv [bind]. apply dict_getitem_missing. rewrite Hkeys. exact Hg. }
    unfold DeLeva.segment_mass, DeLeva.segment_length, DeLeva.segment_center_of_mass,
      DeLeva.segment_moment_of_inertia, DeLeva.segment_mass.
    rewrite Hp. repeat split; reflexivity.
  - intros p Hp.
    assert (Hm : DeLeva.segment_mass (DeLeva.init sex total model) segment
                 = Ok (DeLeva.mass p * total))
      by (unfold DeLeva.segment_mass; rewrite Hp; reflexivity).
    split; [exact Hm |].
    intros missing Hmissing.
    assert (Hidx : (idx_proximal <- index (Model.markerNames model)
                                       (fst (DeLeva.marker_names p)) ;;
                    idx_distal <- index (Model.markerNames model)
                                        (snd (DeLeva.marker_names p)) ;;
                    Ok (idx_proximal, idx_distal))
                   = Raise (ValueError (not_in_list missing))).
    { unfold index. destruct Hmissing as [[Hn ->] | (Hin & Hn & ->)].
      - rewrite index_from_not_in by exact Hn. reflexivity.
      - destruct (index_from_in _ _ 0%nat Hin) as (j & -> & _).
        rewrite index_from_not_in by exact Hn. reflexivity. }
    assert (HL : DeLeva.segment_length (DeLeva.init sex total model) segment
                 = Raise (ValueError (not_in_list missing))).
    { unfold DeLeva.segment_length. rewrite Hp. simpl.
      destruct (index (Model.markerNames model) (fst (DeLeva.marker_names p))) as [ip | e];
        simpl in *; [| injection Hidx as ->; reflexivity].
      destruct (index (Model.markerNames model) (snd (DeLeva.marker_names p))) as [id | e];
        simpl in *; [discriminate Hidx | injection Hidx as ->; reflexivity]. }
    split; [exact HL |]. split.
    + intros inverse_proximal. unfold DeLeva.segment_center_of_mass. rewrite Hp. simpl.
      destruct (index (Model.markerNames model) (fst (DeLeva.marker_names p))) as [ip | e];
        simpl in *; [| injection Hidx as ->; reflexivity].
      destruct (index (Model.markerNames model) (snd (DeLeva.marker_names p))) as [id | e];
        simpl in *; [discriminate Hidx | injection Hidx as ->; reflexivity].
    + unfold DeLeva.segment_moment_of_inertia. rewrite Hm. simpl. rewrite HL. reflexivity.
Qed.

Lemma DeLeva_errors_witness :
  DeLeva.segment_mass (DeLeva.init "other" 70 example_thigh_model) "THIGH"
  = Raise (KeyError "other") /\
  DeLeva.segment_length (DeLeva.init "male" 70 example_thigh_model) "TAIL"
  = Raise (KeyError "TAIL") /\
  DeLeva.segment_length (DeLeva.init "male" 70 example_thigh_model) "SHANK"
  = Raise (ValueError "'ANKLE' is not in list").
Proof.
  split; [| split].
  - apply (proj1 (DeLeva_errors "other" "THIGH" 70 example_thigh_model)).
    unfold sexes; simpl. intros [H | [H | []]]; discriminate H.
  - apply (proj1 (proj2 (DeLeva_errors "male" "TAIL" 70 example_thigh_model))).
    + simpl; left; reflexivity.
    + unfold tabulated_segments; simpl. intuition discriminate.
  - apply (proj2 (proj2 (proj2 (DeLeva_errors "male" "SHANK" 70 example_thigh_model))
                        (DeLeva.Build_Param ("KNEE", "ANKLE")%string (0.0433 * 2) 0.4459
                                            (0.255, 0.249, 0.103)) eq_refl)
                 "ANKLE"%string).
    right. simpl. split; [right; left; reflexivity |].
    split; [intuition discriminate | reflexivity].
Defined.

(** ** The text of a chain *)

Lemma append_assoc (a b c : string) : ((a ++ b) ++ c = a ++ (b ++ c))%string.
Proof. induction a as [| x a IH]; simpl; [reflexivity | rewrite IH; reflexivity]. Qed.

Lemma append_empty_r (a : string) : (a ++ "")%string = a.
Proof. induction a as [| x a IH]; simpl; [reflexivity | rewrite IH; reflexivity]. Qed.

Lemma concat_cons (x : string) (l : list string) :
  String.concat "" (x :: l) = (x ++ String.concat "" l)%string.
Proof. destruct l as [| y l]; simpl; [rewrite append_empty_r |]; reflexivity. Qed.

Lemma fold_left_append {A : Type} (f : A -> string) (l : list A) (init : string) :
  fold_left (fun out x => (out ++ f x)%string) l init
  = (init ++ String.concat "" (map f l))%string.
Proof.
  revert init; induction l as [| x l IH]; intros init.
  - simpl. rewrite append_empty_r. reflexivity.
  - cbn [fold_left map]. rewrite IH, concat_cons, append_assoc. reflexivity.
Qed.

Lemma Segment_str_add_marker (ext : externals) (s : Segment.t) (m : Marker.t) :
  Segment.__str__ ext (Segment.add_marker s m)
  = (Segment.__str__ ext s ++ Marker.__str__ ext m)%string.
Proof.
  destruct s as [n pn tr ro ms rt ma com inertia mesh].
  unfold Segment.__str__, Segment.add_marker.
  cbn [Segment.name Segment.parent_name Segment.translations Segment.rotations
       Segment.markers Segment.rt Segment.mass Segment.center_of_mass
       Segment.inertia_xxyyzz Segment.mesh].
  rewrite fold_left_app. reflexivity.
Qed.

(** X18.  The text written for a chain is put together from the texts of
    its parts, in order: it is the line "version 4" and an empty line,
    followed by the text of each segment and three newlines; appending a
    segment to the chain appends its text, and adding a marker to a segment
    appends the text of the marker to the text of the segment, so that the
    markers of a segment come after its "endsegment" in the order they were
    added. *)
Theorem chain_text_composes (ext : externals) :
  (forall segments : list Segment.t,
      KinematicChain.__str__ ext (KinematicChain.Build segments)
      = ("version 4" ++ nl ++ nl
         ++ String.concat ""
              (map (fun segment => Segment.__str__ ext segment ++ nl ++ nl ++ nl)
                   segments))%string) /\
  (forall (segments : list Segment.t) (segment : Segment.t),
      KinematicChain.__str__ ext (KinematicChain.Build (segments ++ [segment]))
      = (KinematicChain.__str__ ext (KinematicChain.Build segments)
         ++ Segment.__str__ ext segment ++ nl ++ nl ++ nl)%string) /\
  (forall (segment : Segment.t) (marker : Marker.t),
      Segment.__str__ ext (Segment.add_marker segment marker)
      = (Segment.__str__ ext segment ++ Marker.__str__ ext marker)%string) /\
  (forall (segment : Segment.t) (markers : list Marker.t),
      Segment.__str__ ext (fold_left Segment.add_marker markers segment)
      = (Segment.__str__ ext segment
         ++ String.concat "" (map (Marker.__str__ ext) markers))%string).
Proof.
  split; [| split; [| split]].
  - intros segments. unfold KinematicChain.__str__.
    cbn [KinematicChain.segments].
    rewrite (fold_left_append
               (fun segment => (Segment.__str__ ext segment ++ nl ++ nl ++ nl)%string)).
    rewrite !append_assoc. reflexivity.
  - intros segments segment. unfold KinematicChain.__str__.
    cbn [KinematicChain.segments].
    rewrite fold_left_app. reflexivity.
  - intros segment marker. apply Segment_str_add_marker.
  - intros segment markers. revert segment.
    induction markers as [| m markers IH]; intros segment.
    + simpl. rewrite append_empty_r. reflexivity.
    + cbn [fold_left map]. rewrite IH, Segment_str_add_marker, concat_cons, append_assoc.
      reflexivity.
Qed.

(** ** More on [from_markers] *)

(** X19.  The order in which the two axes are passed to [from_markers]
    does not matter: swapping them gives the same result, the same error
    included.  The same for [SegmentCoordinateSystemReal.from_markers]. *)
Theorem from_markers_axes_commute (origin : Marker.t) (a b : Axis.t) (keep : Axis.Name) :
  (forall parent : option RT.t,
      RT.from_markers origin (a, b, keep) parent
      = RT.from_markers origin (b, a, keep) parent) /\
  (forall parent : option SegmentCoordinateSystemReal.t,
      SegmentCoordinateSystemReal.from_markers origin a b keep parent
      = SegmentCoordinateSystemReal.from_markers origin b a keep parent).
Proof.
  assert (H : forall parent, RT.from_markers origin (a, b, keep) parent
                             = RT.from_markers origin (b, a, keep) parent).
  { intros parent. destruct a as [na sa ea], b as [nb sb eb].
    destruct na, nb; reflexivity. }
  split; [exact H |].
  intros parent.
  rewrite (SegmentCoordinateSystemReal_from_markers_RT origin a b keep parent None).
  rewrite (SegmentCoordinateSystemReal_from_markers_RT origin b a keep parent None).
  rewrite H. reflexivity.
Qed.



Lemma vscale_zero (k : R) : vscale k vzero = vzero.
Proof. apply Vec3_eq; unfold vscale, vzero; simpl; ring. Qed.






(** ** What [Marker.from_data] raises, and in which order *)

Lemma index_in_range (l : list string) (x : string) :
  In x l -> exists i, index l x = Ok i /\ (i < List.length l)%nat.
Proof.
  intros Hin. destruct (index_from_in l x 0%nat Hin) as (j & Hj & Hn).
  exists j. split; [exact Hj |]. apply nth_error_Some. rewrite Hn. discriminate.
Qed.

Lemma mapM_index_known (labels names : list string) :
  Forall (fun x => In x labels) names ->
  exists columns,
    mapM (index labels) names = Ok columns /\
    Forall (fun i => (i < List.length labels)%nat) columns.
Proof.
  induction 1 as [| x names Hx _ (columns & Hc & Hr)]; simpl.
  - exists []. split; [reflexivity | constructor].
  - destruct (index_in_range labels x Hx) as (i & Hi & Hlt).
    exists (i :: columns). rewrite Hi. simpl. rewrite Hc. simpl.
    split; [reflexivity | constructor; assumption].
Qed.

Lemma mapM_index_first_unknown (labels l1 l2 : list string) (n : string) :
  Forall (fun x => In x labels) l1 -> ~ In n labels ->
  mapM (index labels) (l1 ++ n :: l2) = Raise (ValueError (not_in_list n)).
Proof.
  intros H1 Hn. induction H1 as [| x l1 Hx _ IH]; simpl.
  - unfold index. rewrite index_from_not_in by exact Hn. reflexivity.
  - destruct (index_in_range labels x Hx) as (i & -> & _). simpl. rewrite IH. reflexivity.
Qed.

Lemma mean_of_nanmeans_no_frame (c3d : C3d.t) (columns : list nat) (r : nat) :
  C3d.nb_frames c3d = 0%nat -> mean_of_nanmeans c3d columns r = nan.
Proof.
  intros H0. unfold mean_of_nanmeans. rewrite H0. simpl.
  destruct columns as [| i columns]; [reflexivity |].
  apply mean_with_nan. left. reflexivity.
Qed.

(** X21.  The failures of a marker definition come in a fixed order.  The
    labels are looked up first, in the order they are requested: the first
    one that the trial does not have raises the [ValueError] of
    [list.index], whose message is the [repr] of that label followed by
    " is not in list", whatever the data.  With every label known, a label
    whose column is beyond the data raises [IndexError].  Then an empty
    tuple of labels, and a trial without frames, raise the [RuntimeError]
    "The markers ... are not present in the c3d", with the [repr] of the
    tuple of labels.  None of this depends on the parent frame. *)
Theorem to_marker_failures (name parent_name : string) (is_technical is_anatomical : bool)
    (c3d : C3d.t) (p : option RT.t) :
  let marker from_markers :=
    MarkerGeneric.Build name from_markers parent_name is_technical is_anatomical in
  (forall (l1 l2 : list string) (n : string),
      Forall (fun x => In x (C3d.LABELS c3d)) l1 -> ~ In n (C3d.LABELS c3d) ->
      MarkerGeneric.to_marker (marker (Tuple (l1 ++ n :: l2))) c3d p
      = Raise (ValueError (repr_str n ++ " is not in list"))) /\
  (forall n : string,
      ~ In n (C3d.LABELS c3d) ->
      MarkerGeneric.to_marker (marker (Str n)) c3d p
      = Raise (ValueError (repr_str n ++ " is not in list"))) /\
  (forall (from_markers : str_or_tuple) (columns : list nat),
      mapM (index (C3d.LABELS c3d)) (requested from_markers) = Ok columns ->
      (exists i, In i columns /\ (C3d.nb_points c3d <= i)%nat) ->
      MarkerGeneric.to_marker (marker from_markers) c3d p = Raise IndexError) /\
  MarkerGeneric.to_marker (marker (Tuple [])) c3d p
  = Raise (RuntimeError "The markers () are not present in the c3d") /\
  (forall from_markers : str_or_tuple,
      Forall (fun x => In x (C3d.LABELS c3d)) (requested from_markers) ->
      (List.length (C3d.LABELS c3d) <= C3d.nb_points c3d)%nat ->
      C3d.nb_frames c3d = 0%nat ->
      MarkerGeneric.to_marker (marker from_markers) c3d p
      = Raise (RuntimeError ("The markers " ++ repr_tuple (requested from_markers)
                             ++ " are not present in the c3d"))).
Proof.
  intros marker. subst marker.
  split; [| split; [| split; [| split]]].
  - intros l1 l2 n H1 Hn. rewrite to_marker_steps.
    cbv [MarkerGeneric.from_markers requested].
    rewrite (mapM_index_first_unknown _ l1 l2 n H1 Hn). reflexivity.
  - intros n Hn. rewrite to_marker_steps.
    cbv [MarkerGeneric.from_markers requested].
    change [n] with ([] ++ n :: @nil string).
    rewrite (mapM_index_first_unknown _ [] [] n (Forall_nil _) Hn). reflexivity.
  - intros from_markers columns Hc (i & Hi & Hout). rewrite to_marker_steps.
    cbv [MarkerGeneric.from_markers]. rewrite Hc. cbv [bind].
    unfold check_indices.
    replace (forallb (fun i => (i <? C3d.nb_points c3d)%nat) columns) with false;
      [reflexivity |].
    symmetry. apply not_true_is_false. intros Hall.
    rewrite forallb_forall in Hall. specialize (Hall i Hi).
    apply Nat.ltb_lt in Hall. lia.
  - rewrite to_marker_steps. reflexivity.
  - intros from_markers Hknown Hlabels H0. rewrite to_marker_steps.
    cbv [MarkerGeneric.from_markers].
    destruct (mapM_index_known _ _ Hknown) as (columns & Hc & Hr).
    rewrite Hc. cbv [bind].
    rewrite check_indices_in_range.
    + rewrite !mean_of_nanmeans_no_frame by exact H0. reflexivity.
    + eapply Forall_impl; [| exact Hr]. simpl. intros i Hi. lia.
Qed.

Lemma to_marker_failures_witness :
  MarkerGeneric.to_marker
    (MarkerGeneric.Build "M" (Tuple ["A"; "O'B"; "D"]%string) "SEG" true false)
    example_trial None
  = Raise (ValueError (String dquote ("O'B" ++ String dquote " is not in list"))).
Proof.
  apply (proj1 (to_marker_failures "M" "SEG" true false example_trial None)
               ["A"%string] ["D"%string] "O'B"%string).
  - repeat constructor.
  - simpl. intros [H | []]. discriminate H.
Defined.

(** ** Segments without a frame recipe *)

Lemma transpose_default : RT.rt (RT.transpose RT.default) = identity.
Proof.
  cbv [RT.transpose RT.copy RT.default RT.rt RT.parent_rt RT.is_rt_local clear_row3
       set_col3 mT block3_mulv row3_of mcol mget mrow vget vset vopp dot identity
       row0 row1 row2 row3 e0 e1 e2 e3 vx vy vz].
  f_equal; f_equal; ring.
Qed.

Lemma to_marker_default (g : MarkerGeneric.t) (c3d : C3d.t) :
  MarkerGeneric.to_marker g c3d (Some RT.default) = MarkerGeneric.to_marker g c3d None.
Proof. rewrite !to_marker_steps, transpose_default. reflexivity. Qed.

(** X22.  A segment declared without a frame recipe gets the default
    frame, and its markers are then the markers resolved without any
    parent: they sit in the chain at their global mean positions (in
    meters), whatever parent name the segment has. *)
Theorem personalized_without_recipe (c3d : C3d.t) (built : list Segment.t)
    (s : SegmentGeneric.t) (segment : Segment.t) :
  SegmentGeneric.rt s = None ->
  personalize_generic c3d built s = Ok (built ++ [segment]) ->
  Segment.rt segment = Some RT.default /\
  mapM (fun marker => MarkerGeneric.to_marker marker c3d None) (SegmentGeneric.markers s)
  = Ok (Segment.markers segment) /\
  Segment.parent_name segment = SegmentGeneric.parent_name s.
Proof.
  intros Hnone H.
  apply personalize_generic_personalized in H as (segment' & Heq & Hp).
  apply app_inj_tail in Heq as [_ <-].
  destruct Hp as (_ & Hparent & _ & _ & _ & _ & _ & _ & rt & Hrt & Hframe & Hmarkers).
  rewrite Hnone in Hframe. subst rt.
  split; [exact Hrt |]. split; [| exact Hparent].
  rewrite <- Hmarkers. clear.
  induction (SegmentGeneric.markers s) as [| m ms IH]; simpl; [reflexivity |].
  rewrite to_marker_default, IH. reflexivity.
Qed.

Lemma personalized_without_recipe_witness :
  exists segment,
    personalize_generic example_trial []
      (SegmentGeneric.Build "ROOT" EmptyString EmptyString EmptyString
         [MarkerGeneric.Build "A" (Str "A") "ROOT" true false] None)
    = Ok ([] ++ [segment]) /\
    Segment.rt segment = Some RT.default.
Proof.
  eexists. split; [reflexivity |].
  eapply (proj1 (personalized_without_recipe example_trial []
                   (SegmentGeneric.Build "ROOT" EmptyString EmptyString EmptyString
                      [MarkerGeneric.Build "A" (Str "A") "ROOT" true false] None)
                   _ eq_refl eq_refl)).
Defined.
